(** * track-person-detect: the YOLO detection-decode kernels, the darknet
      config parser and the network builder

    A shallow embedding of

    - [gpuYoloLayer] (yoloForward.cu) and [softmaxGPU], [gpuRegionLayer]
      (the region-layer kernel file): one CUDA thread is a function from
      the output arrays to the output arrays;
    - [Yolo::parseConfigFile] and [Yolo::buildYoloNetwork] (yolo.cpp).

    Machine integers are [Z] with the wrap-around of their width written
    out; [float] is IEEE 754 binary32 and [double] binary64, both through
    the Standard Library's [SpecFloat]; [std::map<std::string,std::string>]
    is [gmap string string]. *)

From Stdlib Require Import ZArith Lia Bool List Ascii String.
From Stdlib Require Import Floats.SpecFloat.
From stdpp Require Import gmap strings list functions pretty.

Local Open Scope Z_scope.

(** ** Machine integers *)

(** [uint] (32 bits, wraps) and [int] (two's complement on 32 bits). *)
Definition u32 (z : Z) : Z := z mod 2 ^ 32.
Definition s32 (z : Z) : Z := (z + 2 ^ 31) mod 2 ^ 32 - 2 ^ 31.
Definition INT_MAX : Z := 2 ^ 31 - 1.
Definition INT_MIN : Z := - 2 ^ 31.

(** ** Floating point: binary32 and binary64 *)

Module F32.
Definition float : Type := spec_float.

Definition add : float -> float -> float := SFadd 24 128.
Definition sub : float -> float -> float := SFsub 24 128.
Definition mul : float -> float -> float := SFmul 24 128.
Definition div : float -> float -> float := SFdiv 24 128.
Definition opp : float -> float := SFopp.
(** [a < b]; [a > b] is [lt b a]. Every comparison with a NaN is false. *)
Definition lt : float -> float -> bool := SFltb.

(** Conversion of an [int] or [uint] value, round to nearest even. *)
Definition of_int (z : Z) : float := binary_normalize 24 128 z 0 false.

Definition zero : float := S754_zero false.
Definition one : float := Eval vm_compute in of_int 1.
Definition neg_infinity : float := S754_infinity true.

(** [float] to [int]: truncation toward zero. Outside the range of [int]
    the C++ conversion is undefined; the device instruction saturates and
    turns a NaN into 0, which is what is modelled. *)
Definition to_int (x : float) : Z :=
  match x with
  | S754_finite s m e =>
      let a := if 0 <=? e then Zpos m * 2 ^ e else Zpos m / 2 ^ (- e) in
      let v := if s then - a else a in
      Z.max INT_MIN (Z.min INT_MAX v)
  | S754_infinity s => if s then INT_MIN else INT_MAX
  | _ => 0
  end.
End F32.

Module F64.
Definition add : spec_float -> spec_float -> spec_float := SFadd 53 1024.
Definition sub : spec_float -> spec_float -> spec_float := SFsub 53 1024.
Definition mul : spec_float -> spec_float -> spec_float := SFmul 53 1024.

(** The [double] literal [0.5]. *)
Definition half : spec_float := Eval vm_compute in binary_normalize 53 1024 1 (-1) false.

(** Narrowing of a [double] to [float] on assignment. A [float] widened
    to [double] keeps its value, so widening is the identity on
    [spec_float]. *)
Definition to_float (d : spec_float) : F32.float :=
  match d with
  | S754_finite s m e => binary_normalize 24 128 (cond_Zopp s (Zpos m)) e s
  | _ => d
  end.
End F64.

(** *** An executable [__expf]

    [__expf] is a device intrinsic: a fast approximation of the exponential,
    computed as [2^(x * log2 e)], whose low-order bits the source does not
    fix. The kernels below take the intrinsic as a parameter; [expf32] is the
    model used to run them: the binary32 rounding of [2^(x * log2 e)], the
    power of two being evaluated on integers scaled by [2^64]. *)

Module Expf.
(** [log2 e] as a [float]: 12102203 * 2^-23. *)
Definition log2e : F32.float := S754_finite false 12102203 (-23).

(** [ln 2 * 2^64], rounded. *)
Definition ln2_64 : Z := 12786308645202655660.

(** Taylor series of [e^y] for [0 <= y < 1], [y] and the result scaled by
    [2^64]: [term] is [y^i / i!], [fuel] terms are added. *)
Fixpoint exp_series (fuel : nat) (i : Z) (y term acc : Z) : Z :=
  match fuel with
  | O => acc
  | S fuel' =>
      let term' := term * y / 2 ^ 64 / (i + 1) in
      exp_series fuel' (i + 1) y term' (acc + term')
  end.

(** [2^a] for a finite [a = (-1)^s * m * 2^e] with [-150 < a < 128]. *)
Definition exp2_finite (s : bool) (m : positive) (e : Z) : F32.float :=
  let v := cond_Zopp s (Zpos m) in
  if 0 <=? e then binary_normalize 24 128 1 (v * 2 ^ e) false
  else
    let n := Z.shiftr v (- e) in
    let p := v - n * 2 ^ (- e) in
    let y := p * ln2_64 / 2 ^ (- e) in
    binary_normalize 24 128 (exp_series 24 0 y (2 ^ 64) (2 ^ 64)) (n - 64) false.

Definition exp2 (a : F32.float) : F32.float :=
  match a with
  | S754_nan => S754_nan
  | S754_infinity s => if s then F32.zero else S754_infinity false
  | S754_zero _ => F32.one
  | S754_finite s m e =>
      if F32.lt a (F32.of_int (-150)) then F32.zero
      else if F32.lt (F32.of_int 128) a then S754_infinity false
      else exp2_finite s m e
  end.

Definition expf32 (x : F32.float) : F32.float := exp2 (F32.mul x log2e).
End Expf.

(** ** The decode kernels *)

Module Kernel.
Import F32.

(** The scalar arguments the two kernels share, and the anchor table. *)
Record Params := {
  scoreThreshold : float;
  netWidth : Z;
  netHeight : Z;
  gridSizeX : Z;
  gridSizeY : Z;
  numOutputClasses : Z;
  numBBoxes : Z;
  anchors : Z -> float
}.

(** The output arrays of one batch element. An array is the function from
    offsets to cells that the device pointer denotes; [countData] is read
    and written at offset 0 only. *)
Record Out := {
  d_indexes : Z -> Z;
  d_scores : Z -> float;
  d_boxes : Z -> float;
  d_classes : Z -> Z;
  countData : Z -> Z
}.

Section WithExp.
(** The [__expf] intrinsic. *)
Variable expf : float -> float.

Definition sigmoidGPU (x : float) : float :=
  div one (add one (expf (opp x))).

(** Offset of channel [k] of anchor [z_id] at cell [bbindex]: the sum is
    taken on [uint]. *)
Definition chanIndex (P : Params) (bbindex numGridCells z_id k : Z) : Z :=
  u32 (bbindex + numGridCells * (z_id * (5 + numOutputClasses P) + k)).

(** The running maximum over the classes: [maxProb] starts at [0.0f] and
    [maxIndex] at [-1]; a class replaces them when [prob > maxProb]. *)
Definition maxStep (prob : Z -> float) (acc : float * Z) (i : Z) : float * Z :=
  if lt (fst acc) (prob i) then (prob i, s32 i) else acc.

Definition maxLoop (prob : Z -> float) (n : Z) : float * Z :=
  fold_left (maxStep prob) (seqZ 0 n) (zero, -1).

(** The five stores of a surviving detection at the reserved slot. *)
Definition emit (o : Out) (count : Z) (objectness maxProb : float) (maxIndex : Z)
    (x y w h : float) : Out :=
  {| d_indexes := <[count := count]> (d_indexes o);
     d_scores := <[count := add (mul objectness maxProb) one]> (d_scores o);
     d_boxes :=
       <[count * 4 + 3 := F64.to_float (F64.add y (F64.mul F64.half h))]>
       (<[count * 4 + 2 := F64.to_float (F64.add x (F64.mul F64.half w))]>
       (<[count * 4 + 1 := F64.to_float (F64.sub y (F64.mul F64.half h))]>
       (<[count * 4 + 0 := F64.to_float (F64.sub x (F64.mul F64.half w))]>
          (d_boxes o))));
     d_classes := <[count := maxIndex]> (d_classes o);
     countData := <[0 := s32 (count + 1)]> (countData o) |}.

(** *** [gpuYoloLayer] *)

Definition yoloClassProb (input : Z -> float) (P : Params) (bbindex numGridCells z_id : Z)
    (i : Z) : float :=
  sigmoidGPU (input (chanIndex P bbindex numGridCells z_id (5 + i))).

Definition gpuYoloLayer (input : Z -> float) (P : Params) (scaleXY : float)
    (mask : Z -> Z) (x_id y_id z_id : Z) (o : Out) : Out :=
  if (gridSizeX P <=? x_id) || (gridSizeY P <=? y_id) || (numBBoxes P <=? z_id)
  then o
  else
    let numGridCells := s32 (gridSizeX P * gridSizeY P) in
    let bbindex := s32 (y_id * gridSizeX P + x_id) in
    let chan k := input (chanIndex P bbindex numGridCells z_id k) in
    let objectness := sigmoidGPU (chan 4) in
    if lt objectness (scoreThreshold P) then o
    else
      let count := countData o 0 in
      let alpha := scaleXY in
      let beta := F64.to_float (F64.mul (opp F64.half) (sub scaleXY (of_int 1))) in
      let x :=
        div (mul (add (add (mul (sigmoidGPU (chan 0)) alpha) beta) (of_int x_id))
                 (of_int (netWidth P)))
            (of_int (gridSizeX P)) in
      let y :=
        div (mul (add (add (mul (sigmoidGPU (chan 1)) alpha) beta) (of_int y_id))
                 (of_int (netHeight P)))
            (of_int (gridSizeY P)) in
      let w := mul (expf (chan 2)) (anchors P (s32 (mask z_id * 2))) in
      let h := mul (expf (chan 3)) (anchors P (s32 (mask z_id * 2 + 1))) in
      let '(maxProb, maxIndex) :=
        maxLoop (yoloClassProb input P bbindex numGridCells z_id) (numOutputClasses P) in
      emit o count objectness maxProb maxIndex x y w h.

(** *** [softmaxGPU] *)

(** First loop: [int val = input[..]] truncates the logit, and [largest]
    is the running maximum of the truncated values, from [-INFINITY]. *)
Definition largestStep (input : Z -> float) (P : Params) (bbindex numGridCells z_id : Z)
    (largest : float) (i : Z) : float :=
  let val := to_int (input (chanIndex P bbindex numGridCells z_id (5 + i))) in
  if lt largest (of_int val) then of_int val else largest.

Definition softmaxLargest (input : Z -> float) (P : Params) (bbindex numGridCells z_id : Z)
    : float :=
  fold_left (largestStep input P bbindex numGridCells z_id)
    (seqZ 0 (numOutputClasses P)) neg_infinity.

(** Second loop: exponentials, their sum, and the store of each. *)
Definition expStep (input : Z -> float) (P : Params) (bbindex numGridCells z_id : Z)
    (temp largest : float) (acc : float * (Z -> float)) (i : Z) : float * (Z -> float) :=
  let k := chanIndex P bbindex numGridCells z_id (5 + i) in
  let e := expf (sub (div (input k) temp) (div largest temp)) in
  (add (fst acc) e, <[k := e]> (snd acc)).

(** Third loop: division of each stored exponential by the sum. *)
Definition normStep (P : Params) (bbindex numGridCells z_id : Z) (sum : float)
    (output : Z -> float) (i : Z) : Z -> float :=
  let k := chanIndex P bbindex numGridCells z_id (5 + i) in
  <[k := div (output k) sum]> output.

Definition softmaxGPU (input : Z -> float) (P : Params) (bbindex numGridCells z_id : Z)
    (temp : float) (output : Z -> float) : Z -> float :=
  let classes := seqZ 0 (numOutputClasses P) in
  let largest := softmaxLargest input P bbindex numGridCells z_id in
  let '(sum, output1) :=
    fold_left (expStep input P bbindex numGridCells z_id temp largest) classes
      (zero, output) in
  fold_left (normStep P bbindex numGridCells z_id sum) classes output1.

(** *** [gpuRegionLayer] *)

(** The class probability the kernel reads back from the softmax buffer. *)
Definition regionClassProb (softmax : Z -> float) (P : Params)
    (bbindex numGridCells z_id : Z) (i : Z) : float :=
  softmax (chanIndex P bbindex numGridCells z_id (5 + i)).

Definition gpuRegionLayer (input : Z -> float) (P : Params) (x_id y_id z_id : Z)
    (st : (Z -> float) * Out) : (Z -> float) * Out :=
  let '(softmax, o) := st in
  if (gridSizeX P <=? x_id) || (gridSizeY P <=? y_id) || (numBBoxes P <=? z_id)
  then st
  else
    let numGridCells := s32 (gridSizeX P * gridSizeY P) in
    let bbindex := s32 (y_id * gridSizeX P + x_id) in
    let chan k := input (chanIndex P bbindex numGridCells z_id k) in
    let objectness := sigmoidGPU (chan 4) in
    if lt objectness (scoreThreshold P) then st
    else
      let count := countData o 0 in
      let x :=
        div (mul (add (sigmoidGPU (chan 0)) (of_int x_id)) (of_int (netWidth P)))
            (of_int (gridSizeX P)) in
      let y :=
        div (mul (add (sigmoidGPU (chan 1)) (of_int y_id)) (of_int (netHeight P)))
            (of_int (gridSizeY P)) in
      let w :=
        div (mul (mul (expf (chan 2)) (anchors P (u32 (z_id * 2)))) (of_int (netWidth P)))
            (of_int (gridSizeX P)) in
      let h :=
        div (mul (mul (expf (chan 3)) (anchors P (u32 (z_id * 2 + 1))))
                 (of_int (netHeight P)))
            (of_int (gridSizeY P)) in
      let softmax' := softmaxGPU input P bbindex numGridCells z_id one softmax in
      let '(maxProb, maxIndex) :=
        maxLoop (regionClassProb softmax' P bbindex numGridCells z_id)
          (numOutputClasses P) in
      (softmax', emit o count objectness maxProb maxIndex x y w h).

(** *** What a thread reads at its cell *)

(** The guard on the thread coordinates. *)
Definition outOfRange (P : Params) (x_id y_id z_id : Z) : bool :=
  (gridSizeX P <=? x_id) || (gridSizeY P <=? y_id) || (numBBoxes P <=? z_id).

Definition numGridCellsOf (P : Params) : Z := s32 (gridSizeX P * gridSizeY P).
Definition bbindexOf (P : Params) (x_id y_id : Z) : Z := s32 (y_id * gridSizeX P + x_id).

(** Raw channel [k] (0..3 the box, 4 the objectness, 5.. the classes). *)
Definition chanOf (input : Z -> float) (P : Params) (x_id y_id z_id k : Z) : float :=
  input (chanIndex P (bbindexOf P x_id y_id) (numGridCellsOf P) z_id k).

Definition objectnessOf (input : Z -> float) (P : Params) (x_id y_id z_id : Z) : float :=
  sigmoidGPU (chanOf input P x_id y_id z_id 4).

(** The class probabilities of the two variants. *)
Definition yoloProbOf (input : Z -> float) (P : Params) (x_id y_id z_id i : Z) : float :=
  yoloClassProb input P (bbindexOf P x_id y_id) (numGridCellsOf P) z_id i.

Definition regionProbOf (input : Z -> float) (softmax : Z -> float) (P : Params)
    (x_id y_id z_id i : Z) : float :=
  regionClassProb
    (softmaxGPU input P (bbindexOf P x_id y_id) (numGridCellsOf P) z_id one softmax)
    P (bbindexOf P x_id y_id) (numGridCellsOf P) z_id i.

(** The box of the anchor-mask variant: centre and size. *)
Definition yoloBeta (scaleXY : float) : float :=
  F64.to_float (F64.mul (opp F64.half) (sub scaleXY (of_int 1))).

Definition yoloCenterX (input : Z -> float) (P : Params) (scaleXY : float)
    (x_id y_id z_id : Z) : float :=
  div (mul (add (add (mul (sigmoidGPU (chanOf input P x_id y_id z_id 0)) scaleXY)
                     (yoloBeta scaleXY)) (of_int x_id))
           (of_int (netWidth P)))
      (of_int (gridSizeX P)).

Definition yoloCenterY (input : Z -> float) (P : Params) (scaleXY : float)
    (x_id y_id z_id : Z) : float :=
  div (mul (add (add (mul (sigmoidGPU (chanOf input P x_id y_id z_id 1)) scaleXY)
                     (yoloBeta scaleXY)) (of_int y_id))
           (of_int (netHeight P)))
      (of_int (gridSizeY P)).

Definition yoloWidth (input : Z -> float) (P : Params) (mask : Z -> Z)
    (x_id y_id z_id : Z) : float :=
  mul (expf (chanOf input P x_id y_id z_id 2)) (anchors P (s32 (mask z_id * 2))).

Definition yoloHeight (input : Z -> float) (P : Params) (mask : Z -> Z)
    (x_id y_id z_id : Z) : float :=
  mul (expf (chanOf input P x_id y_id z_id 3)) (anchors P (s32 (mask z_id * 2 + 1))).

(** The box of the region variant. *)
Definition regionCenterX (input : Z -> float) (P : Params) (x_id y_id z_id : Z) : float :=
  div (mul (add (sigmoidGPU (chanOf input P x_id y_id z_id 0)) (of_int x_id))
           (of_int (netWidth P)))
      (of_int (gridSizeX P)).

Definition regionCenterY (input : Z -> float) (P : Params) (x_id y_id z_id : Z) : float :=
  div (mul (add (sigmoidGPU (chanOf input P x_id y_id z_id 1)) (of_int y_id))
           (of_int (netHeight P)))
      (of_int (gridSizeY P)).

Definition regionWidth (input : Z -> float) (P : Params) (x_id y_id z_id : Z) : float :=
  div (mul (mul (expf (chanOf input P x_id y_id z_id 2)) (anchors P (u32 (z_id * 2))))
           (of_int (netWidth P)))
      (of_int (gridSizeX P)).

Definition regionHeight (input : Z -> float) (P : Params) (x_id y_id z_id : Z) : float :=
  div (mul (mul (expf (chanOf input P x_id y_id z_id 3)) (anchors P (u32 (z_id * 2 + 1))))
           (of_int (netHeight P)))
      (of_int (gridSizeY P)).

(** Corners from centre and size: [c - 0.5 * s] and [c + 0.5 * s], taken
    in [double] and narrowed on the store. *)
Definition cornerLow (c s : float) : float := F64.to_float (F64.sub c (F64.mul F64.half s)).
Definition cornerHigh (c s : float) : float := F64.to_float (F64.add c (F64.mul F64.half s)).
End WithExp.

(** The order of the floats that are not NaN, as a triple compared
    lexicographically: sign class, exponent, mantissa. *)
Definition rank (a : float) : Z * Z * Z :=
  match a with
  | S754_nan => (0, 0, 0)
  | S754_zero _ => (0, 0, 0)
  | S754_infinity s => (if s then -2 else 2, 0, 0)
  | S754_finite s m e => if s then (-1, - e, - Zpos m) else (1, e, Zpos m)
  end.

Definition lex3 (p q : Z * Z * Z) : Prop :=
  p.1.1 < q.1.1 \/ (p.1.1 = q.1.1 /\ (p.1.2 < q.1.2 \/ (p.1.2 = q.1.2 /\ p.2 < q.2))).

(** [maxIndex] is the first class of maximal probability among the [n]
    classes, and [maxProb] that probability. *)
Definition firstMaximum (prob : Z -> float) (n : Z) (maxProb : float) (maxIndex : Z) : Prop :=
  0 <= maxIndex < n /\ maxProb = prob maxIndex /\
  (forall j, 0 <= j < n -> lt maxProb (prob j) = false) /\
  (forall j, 0 <= j < maxIndex -> lt (prob j) maxProb = true).

(** What the loop over the classes leaves in [maxProb] and [maxIndex],
    whatever the probabilities. When none compares greater than [0.0f]
    (a NaN never does): the initial [0.0f] and [-1]. Otherwise: a class
    whose probability exceeds [0.0f], that no class exceeds, and that
    every earlier class is below unless its probability is a NaN. *)
Definition runningMaximum (prob : Z -> float) (n : Z) (maxProb : float) (maxIndex : Z)
    : Prop :=
  ((forall j, 0 <= j < n -> lt zero (prob j) = false) /\ maxProb = zero /\ maxIndex = -1) \/
  ((exists j, 0 <= j < n /\ lt zero (prob j) = true) /\
   0 <= maxIndex < n /\ maxProb = prob maxIndex /\ lt zero maxProb = true /\
   (forall j, 0 <= j < n -> lt maxProb (prob j) = false) /\
   (forall j, 0 <= j < maxIndex -> prob j = S754_nan \/ lt (prob j) maxProb = true)).

(** *** Concrete launches *)

Module Scenario.
Definition half : float := Eval vm_compute in div (of_int 1) (of_int 2).
Definition quarter : float := Eval vm_compute in div (of_int 1) (of_int 4).

(** A device array holding the given cells from offset 0, zero elsewhere. *)
Definition array (l : list float) : Z -> float :=
  fun k => if k <? 0 then zero else default zero (l !! Z.to_nat k).

Definition blank : Out :=
  {| d_indexes := fun _ => 0; d_scores := fun _ => zero; d_boxes := fun _ => zero;
     d_classes := fun _ => 0; countData := fun _ => 0 |}.

(** One scale of [gx] x [gy] cells and one anchor of prior (10, 13), on a
    416 x 416 network. *)
Definition scale (threshold : float) (gx gy classes : Z) : Params :=
  {| scoreThreshold := threshold; netWidth := 416; netHeight := 416;
     gridSizeX := gx; gridSizeY := gy; numOutputClasses := classes; numBBoxes := 1;
     anchors := array [of_int 10; of_int 13] |}.

Definition mask0 : Z -> Z := fun _ => 0.

(** A 1 x 1 grid: the channels [tx; ty; tw; th; objectness; classes..] of
    the only cell lie at offsets 0, 1, 2, ... *)

(** Objectness logit 0, whose sigmoid is exactly 0.5, and one class. *)
Definition atThreshold : Z -> float := array [zero; zero; zero; zero; zero; zero].

(** Objectness 0.5 over a threshold of 0.25, and one class of logit -1000. *)
Definition farNegative : Z -> float :=
  array [zero; zero; zero; zero; zero; of_int (-1000)].

(** Two classes of logits 2.5 and 0.5. *)
Definition twoClasses : Z -> float :=
  array [zero; zero; zero; zero; zero; div (of_int 5) (of_int 2); half].

(** A 2 x 2 grid with one class: channel [k] of cell [b] lies at offset
    [b + 4 * k]. Cell (0,0) has objectness logit 10 and class logit 2,
    the three others objectness logit -10. *)
Definition oneObject : Z -> float :=
  array [zero; zero; zero; zero;
         zero; zero; zero; zero;
         zero; zero; zero; zero;
         zero; zero; zero; zero;
         of_int 10; of_int (-10); of_int (-10); of_int (-10);
         of_int 2; zero; zero; zero].
End Scenario.

(** *** The host launchers [cudaYoloLayer] and [cudaRegionLayer] *)

(** The values [blockIdx * blockDim + threadIdx] takes along one axis of a
    launch of [size / threads + 1] blocks of [threads] threads. *)
Definition axisIds (size threads : Z) : list Z :=
  b ← seqZ 0 (u32 (size / threads + 1)); t ← seqZ 0 threads; [u32 (b * threads + t)].

(** The coordinates [(x_id, y_id, z_id)] of the threads of one launch:
    [threads_per_block(16, 16, 4)] and
    [number_of_blocks(gridSizeX / 16 + 1, gridSizeY / 16 + 1, numBBoxes / 4 + 1)].
    The launch is one the device accepts (it takes no more than 65535
    blocks along y and z). *)
Definition launchIds (P : Params) : list (Z * Z * Z) :=
  z ← axisIds (numBBoxes P) 4; y ← axisIds (gridSizeY P) 16;
  x ← axisIds (gridSizeX P) 16; [(x, y, z)].

(** The cells of the grid, one per anchor. *)
Definition gridCells (P : Params) : list (Z * Z * Z) :=
  z ← seqZ 0 (numBBoxes P); y ← seqZ 0 (gridSizeY P); x ← seqZ 0 (gridSizeX P); [(x, y, z)].

(** A device pointer moved by [base] elements, and the array behind the
    original pointer once the kernel has written through the moved one. *)
Definition offset {A} (base : Z) (a : Z -> A) : Z -> A := fun k => a (base + k).
Definition onto {A} (base : Z) (a : Z -> A) : Z -> A := fun j => a (j - base).

(** [r1] and [r2] have the same counter, and agree on every cell on which
    [o1] and [o2] agree. *)
Definition agree_on (o1 o2 r1 r2 : Out) : Prop :=
  countData r1 0 = countData r2 0 /\
  (forall k, d_indexes o1 k = d_indexes o2 k -> d_indexes r1 k = d_indexes r2 k) /\
  (forall k, d_scores o1 k = d_scores o2 k -> d_scores r1 k = d_scores r2 k) /\
  (forall k, d_classes o1 k = d_classes o2 k -> d_classes r1 k = d_classes r2 k) /\
  (forall j, d_boxes o1 j = d_boxes o2 j -> d_boxes r1 j = d_boxes r2 j).

Section Launch.
Variable expf : float -> float.

(** The exponential the second loop of [softmaxGPU] stores for class
    [i], the sum it accumulates in the order of the loop, and the
    quotient the third loop leaves. *)
Definition softmaxExp (input : Z -> float) (P : Params) (bbindex numGridCells z_id : Z)
    (temp : float) (i : Z) : float :=
  expf (sub (div (input (chanIndex P bbindex numGridCells z_id (5 + i))) temp)
            (div (softmaxLargest input P bbindex numGridCells z_id) temp)).

Definition softmaxSum (input : Z -> float) (P : Params) (bbindex numGridCells z_id : Z)
    (temp : float) : float :=
  fold_left (fun sum i => add sum (softmaxExp input P bbindex numGridCells z_id temp i))
    (seqZ 0 (numOutputClasses P)) zero.

Definition softmaxProbOf (input : Z -> float) (P : Params) (x_id y_id z_id i : Z) : float :=
  div (softmaxExp input P (bbindexOf P x_id y_id) (numGridCellsOf P) z_id one i)
      (softmaxSum input P (bbindexOf P x_id y_id) (numGridCellsOf P) z_id one).

(** A thread that is in range and whose objectness is not below the
    threshold. *)
Definition survives (input : Z -> float) (P : Params) (t : Z * Z * Z) : bool :=
  negb (outOfRange P t.1.1 t.1.2 t.2) &&
  negb (lt (objectnessOf expf input P t.1.1 t.1.2 t.2) (scoreThreshold P)).

(** How many threads of [schedule] survive. *)
Definition emitted (input : Z -> float) (P : Params) (schedule : list (Z * Z * Z)) : Z :=
  Z.of_nat (length (List.filter (survives input P) schedule)).

(** The threads of a launch, run one after the other in the order of
    [schedule]. The only cell two threads share is the counter, which
    each reads and writes in one atomic step, so a launch behaves as
    its threads run in some order; which one is not fixed. *)
Definition runYolo (input : Z -> float) (P : Params) (scaleXY : float) (mask : Z -> Z)
    (schedule : list (Z * Z * Z)) (o : Out) : Out :=
  fold_left (fun o t => gpuYoloLayer expf input P scaleXY mask t.1.1 t.1.2 t.2 o)
    schedule o.

(** The same for [gpuRegionLayer], the softmax buffer being threaded
    along. A thread writes the class cells of its own anchor only; for
    a tensor of at most [2 ^ 32] cells no two threads share a cell. *)
Definition runRegion (input : Z -> float) (P : Params)
    (schedule : list (Z * Z * Z)) (st : (Z -> float) * Out) : (Z -> float) * Out :=
  fold_left (fun st t => gpuRegionLayer expf input P t.1.1 t.1.2 t.2 st) schedule st.

(** The arrays of batch element [batch] as the launch receives them. *)
Definition batchOut (batch outputSize : Z) (o : Out) : Out :=
  {| d_indexes := offset (batch * outputSize mod 2 ^ 64) (d_indexes o);
     d_scores := offset (batch * outputSize mod 2 ^ 64) (d_scores o);
     d_boxes := offset (u32 (batch * 4) * outputSize mod 2 ^ 64) (d_boxes o);
     d_classes := offset (batch * outputSize mod 2 ^ 64) (d_classes o);
     countData := offset batch (countData o) |}.

(** The arrays behind the original pointers after that launch. *)
Definition unbatchOut (batch outputSize : Z) (o : Out) : Out :=
  {| d_indexes := onto (batch * outputSize mod 2 ^ 64) (d_indexes o);
     d_scores := onto (batch * outputSize mod 2 ^ 64) (d_scores o);
     d_boxes := onto (u32 (batch * 4) * outputSize mod 2 ^ 64) (d_boxes o);
     d_classes := onto (batch * outputSize mod 2 ^ 64) (d_classes o);
     countData := onto batch (countData o) |}.

(** The launch for batch element [batch]: the kernel receives every
    pointer moved to the part of that element. *)
Definition launchYolo (input : Z -> float) (inputSize outputSize : Z)
    (P : Params) (scaleXY : float) (mask : Z -> Z)
    (schedule : Z -> list (Z * Z * Z)) (batch : Z) (o : Out) : Out :=
  runYolo (offset (batch * inputSize mod 2 ^ 64) input) P scaleXY mask
    (schedule batch) (batchOut batch outputSize o).

Definition launchRegion (input : Z -> float) (inputSize outputSize : Z)
    (P : Params) (schedule : Z -> list (Z * Z * Z)) (batch : Z)
    (st : (Z -> float) * Out) : (Z -> float) * Out :=
  runRegion (offset (batch * inputSize mod 2 ^ 64) input) P (schedule batch)
    (offset (batch * inputSize mod 2 ^ 64) (fst st), batchOut batch outputSize (snd st)).

(** [cudaYoloLayer]: one launch per batch element, on the same stream
    and so one after the other; [schedule batch] is the order in which
    the threads of that launch take effect. *)
Definition cudaYoloLayer (input : Z -> float) (batchSize inputSize outputSize : Z)
    (P : Params) (scaleXY : float) (mask : Z -> Z)
    (schedule : Z -> list (Z * Z * Z)) (o : Out) : Out :=
  fold_left
    (fun o batch =>
       unbatchOut batch outputSize
         (launchYolo input inputSize outputSize P scaleXY mask schedule batch o))
    (seqZ 0 batchSize) o.

(** [cudaRegionLayer]: the same, with the softmax buffer moved like the
    input. *)
Definition cudaRegionLayer (input : Z -> float) (batchSize inputSize outputSize : Z)
    (P : Params) (schedule : Z -> list (Z * Z * Z)) (st : (Z -> float) * Out)
    : (Z -> float) * Out :=
  fold_left
    (fun st batch =>
       let st' := launchRegion input inputSize outputSize P schedule batch st in
       (onto (batch * inputSize mod 2 ^ 64) (fst st'),
        unbatchOut batch outputSize (snd st')))
    (seqZ 0 batchSize) st.
End Launch.
End Kernel.

(** ** Strings *)

Module Str.

Definition size (s : string) : Z := Z.of_nat (String.length s).

(** [std::string::npos] and its value once stored in an [int]. *)
Definition npos : Z := 2 ^ 64 - 1.

(** [s.front()]. On an empty string the call is undefined; the model
    reads the terminating NUL of the buffer. *)
Definition front (s : string) : ascii :=
  match s with
  | EmptyString => "000"%char
  | String c _ => c
  end.

(** [s.substr(pos, len)] for [pos <= s.size()]; [len] is a [size_t], and
    the result stops at the end of [s]. *)
Definition substr (pos len : Z) (s : string) : string :=
  String.substring (Z.to_nat pos) (Z.to_nat (Z.min len (size s))) s.

(** [s.find(c)]: the offset of the first [c], or [npos]. *)
Fixpoint find_from (c : ascii) (s : string) (k : Z) : Z :=
  match s with
  | EmptyString => npos
  | String d r => if Ascii.eqb d c then k else find_from c r (k + 1)
  end.
Definition find (s : string) (c : ascii) : Z := find_from c s 0.

(** [s.find(pat) != npos]. *)
Fixpoint contains (pat s : string) : bool :=
  String.prefix pat s ||
  match s with
  | EmptyString => false
  | String _ r => contains pat r
  end.

(** [isspace] in the C locale. *)
Definition isspace (c : ascii) : bool :=
  let n := Z.of_nat (nat_of_ascii c) in
  (n =? 32) || ((9 <=? n) && (n <=? 13)).

Fixpoint leftTrim (s : string) : string :=
  match s with
  | EmptyString => EmptyString
  | String c r => if isspace c then leftTrim r else s
  end.

Fixpoint rightTrim (s : string) : string :=
  match s with
  | EmptyString => EmptyString
  | String c r =>
      match rightTrim r with
      | EmptyString => if isspace c then EmptyString else String c EmptyString
      | r' => String c r'
      end
  end.

(** Modelled from the spec: [trim] is a helper of the repository's
    utilities that is not part of the sources at hand; the spec has keys,
    values and section names "trimmed of surrounding whitespace". *)
Definition trim (s : string) : string := rightTrim (leftTrim s).

Definition is_digit (c : ascii) : bool :=
  let n := Z.of_nat (nat_of_ascii c) in (48 <=? n) && (n <=? 57).

Fixpoint digits (s : string) (acc : option Z) : option Z :=
  match s with
  | EmptyString => acc
  | String c r =>
      if is_digit c
      then digits r (Some (10 * default 0 acc + (Z.of_nat (nat_of_ascii c) - 48)))
      else acc
  end.

(** [std::stoi(s)]: leading white space, an optional sign, decimal digits;
    what follows the digits is ignored. [None] stands for the exception
    thrown when there is no digit or the value does not fit an [int]. *)
Definition stoi (s : string) : option Z :=
  let s := leftTrim s in
  let '(neg, s) :=
    match s with
    | String "-"%char r => (true, r)
    | String "+"%char r => (false, r)
    | _ => (false, s)
    end in
  match digits s None with
  | None => None
  | Some v =>
      let v := if neg : bool then - v else v in
      if (INT_MIN <=? v) && (v <=? INT_MAX) then Some v else None
  end.

(** [std::stoul(s)]: as [stoi], on [unsigned long]; a minus sign negates
    the value on 64 bits. *)
Definition stoul (s : string) : option Z :=
  let s := leftTrim s in
  let '(neg, s) :=
    match s with
    | String "-"%char r => (true, r)
    | String "+"%char r => (false, r)
    | _ => (false, s)
    end in
  match digits s None with
  | None => None
  | Some v =>
      if v <? 2 ^ 64 then Some (if neg : bool then (- v) mod 2 ^ 64 else v) else None
  end.

(** The text between the commas of [s], in order. *)
Fixpoint fields (s : string) : list string :=
  match s with
  | EmptyString => [EmptyString]
  | String c r =>
      if Ascii.eqb c ","%char then EmptyString :: fields r
      else
        match fields r with
        | [] => [String c EmptyString]
        | f :: fs => String c f :: fs
        end
  end.

(** The pieces the loops over [anchors] and [mask] convert: the loop ends
    when what is left of the string is empty, so an empty last field is
    not converted. *)
Definition pieces (s : string) : list string :=
  match reverse (fields s) with
  | EmptyString :: fs => reverse fs
  | _ => fields s
  end.
End Str.

(** ** [Yolo::parseConfigFile] *)

Module Config.
Import Str.

(** [block.insert(std::pair(key, value))]: [std::map::insert] leaves the
    map as it is when the key is already there. *)
Definition map_insert (key value : string) (block : gmap string string)
    : gmap string string :=
  match block !! key with
  | Some _ => block
  | None => <[key := value]> block
  end.

(** The body of the [getline] loop. *)
Definition parseLine (st : list (gmap string string) * gmap string string) (line : string)
    : list (gmap string string) * gmap string string :=
  let '(blocks, block) := st in
  if size line =? 0 then st
  else if Ascii.eqb (front line) " "%char then st
  else if Ascii.eqb (front line) "#"%char then st
  else
    let line := trim line in
    if Ascii.eqb (front line) "["%char
    then
      let '(blocks, block) :=
        if 0 <? Z.of_nat (base.size block) then (blocks ++ [block], ∅) else (blocks, block) in
      let value := trim (substr 1 ((size line - 2) mod 2 ^ 64) line) in
      (blocks, map_insert "type" value block)
    else
      let cpos := s32 (find line "="%char) in
      let key := trim (substr 0 (cpos mod 2 ^ 64) line) in
      let value := trim (substr (cpos + 1) npos line) in
      (blocks, map_insert key value block).

(** The lines are those [getline] yields, in order, without their line
    terminator; opening the file is not part of the model. *)
Definition parseConfigFile (lines : list string) : list (gmap string string) :=
  let '(blocks, block) := fold_left parseLine lines ([], ∅) in
  blocks ++ [block].

(** *** The declarative reading of a config resource *)

(** What a line that is not skipped contributes: a section header with its
    name, or a key and a value. *)
Inductive entry :=
| Header (name : string)
| KeyValue (key value : string).

Definition skipped (line : string) : bool :=
  (size line =? 0) || Ascii.eqb (front line) " "%char || Ascii.eqb (front line) "#"%char.

Definition classify (line : string) : option entry :=
  if skipped line then None
  else
    let line := trim line in
    if Ascii.eqb (front line) "["%char
    then Some (Header (trim (substr 1 ((size line - 2) mod 2 ^ 64) line)))
    else
      let cpos := s32 (find line "="%char) in
      Some (KeyValue (trim (substr 0 (cpos mod 2 ^ 64) line))
                     (trim (substr (cpos + 1) npos line))).

Definition entries (lines : list string) : list entry := omap classify lines.

(** The key/value pairs in front of the first header, and then, for each
    header, the pair for [type] followed by the pairs of its section. *)
Fixpoint sections (es : list entry)
    : list (string * string) * list (list (string * string)) :=
  match es with
  | [] => ([], [])
  | KeyValue k v :: r => let '(pre, secs) := sections r in ((k, v) :: pre, secs)
  | Header n :: r => let '(pre, secs) := sections r in ([], (("type"%string, n) :: pre) :: secs)
  end.

(** The section names, in order. *)
Definition headers (es : list entry) : list string :=
  omap (fun e => match e with Header n => Some n | KeyValue _ _ => None end) es.

(** The map a run of pairs builds when the first pair of a key wins,
    which is what [list_to_map] computes. *)
Definition first_wins (kvs : list (string * string)) : gmap string string :=
  list_to_map kvs.

(** The block pushed when a header is read: the current one, unless it
    has no entry. *)
Definition flush (block : gmap string string) : list (gmap string string) :=
  if 0 <? Z.of_nat (base.size block) then [block] else [].

(** The claimed policy: the last pair of a key wins. *)
Definition last_wins (kvs : list (string * string)) : gmap string string :=
  list_to_map (reverse kvs).
End Config.

(** ** [Yolo::buildYoloNetwork] *)

Module Builder.
Import Str.
Local Open Scope string_scope.
Local Open Scope Z_scope.

(** The ways a build ends other than by [return NVDSINFER_SUCCESS]: a
    failed [assert], or an exception that [createEngine] does not catch. *)
Inductive Abort :=
| ChannelDrift                   (* assert(getNumChannels(previous) == channels) *)
| NullOutput                     (* a layer that is not built, assert(previous != nullptr) *)
| MissingParam (key : string)    (* assert(block.find(key) != block.end()) *)
| BadBackReference               (* the asserts on i - 2 and i + from - 1 *)
| UnsupportedLayer (type : string)
| UnusedWeights                  (* "Number of unused weights left" *)
| NoModelType                    (* "Could not determine model type" *)
| TopKTooLarge (outputSize : Z)  (* "topk > Number of outputs" *)
| ErrorInCfg                     (* "Error in yolo cfg file" *)
| OutOfRange                     (* std::out_of_range, from at() *)
| BadNumber.                     (* the exception of stoi *)

Inductive Res (A : Type) :=
| Ok (a : A)
| Fatal (e : Abort).
Arguments Ok {A} a.
Arguments Fatal {A} e.

Definition bind {A B} (r : Res A) (k : A -> Res B) : Res B :=
  match r with
  | Ok a => k a
  | Fatal e => Fatal e
  end.

Notation "x <- r ;; k" := (bind r (fun x => k))
  (at level 100, r at next level, right associativity).
Notation "r ;;; k" := (bind r (fun _ => k))
  (at level 100, right associativity).

Definition assert (b : bool) (e : Abort) : Res unit :=
  if b then Ok tt else Fatal e.

Definition orAbort {A} (o : option A) (e : Abort) : Res A :=
  match o with
  | Some a => Ok a
  | None => Fatal e
  end.

(** [block.at(key)]. *)
Definition at_ (block : gmap string string) (key : string) : Res string :=
  orAbort (block !! key) OutOfRange.

Definition has (block : gmap string string) (key : string) : bool :=
  bool_decide (is_Some (block !! key)).

(** *** Back-references *)

(** The resolution of [from] at block [i], [n] being
    [tensorOutputs.size()]: the offset into [tensorOutputs] when the three
    asserts hold. [i] is a [uint], so [i - 2] and [i + from - 1] are taken
    on [uint] and [>= 0] always holds of them. *)
Definition resolveFrom (i from n : Z) : option Z :=
  let from := if 0 <? from then s32 (u32 (from - i + 1)) else from in
  if negb (u32 (i - 2) <? n) then None
  else if negb (u32 (i + from - 1) <? n) then None
  else if negb (u32 (i + from - 1) <? u32 (i - 2)) then None
  else Some (u32 (i + from - 1)).

(** The resolution as the spec words it: a non-negative [from] is
    normalised, and the resolved position [i + from] has to be below
    [i - 1] and its offset within the sequence. *)
Definition resolveFrom_spec (i from n : Z) : option Z :=
  let from := if 0 <=? from then from - i + 1 else from in
  if (0 <=? i + from - 1) && (i + from - 1 <? n) && (i + from <? i - 1)
  then Some (i + from - 1)
  else None.

(** *** Per-scale metadata and the members of [Yolo] the build reads *)

(** Modelled from the spec: [TensorInfo] is declared in a header that is
    not among the sources; the spec's ScaleTensorInfo holds the grid width
    and height, the anchor priors, the optional mask, the coordinate scale
    factor and the number of anchors of the scale. The grid sizes and the
    anchor count are taken as the [uint] the kernels receive. *)
Record TensorInfo := {
  blobName : string;
  gridSizeX : Z;
  gridSizeY : Z;
  numBBoxes : Z;
  scaleXY : F32.float;
  anchors : list F32.float;
  mask : list Z
}.

(** Modelled from the spec: the members of [Yolo] are declared in the
    same header; the spec's NetworkMeta has the input width, height and
    channel count, the class count, the new-coordinates flag, the declared
    scale count and the NMS parameters. The counts are taken as [uint]. *)
Record Yolo := {
  m_NetworkType : string;
  m_WtsFilePath : string;
  m_InputBlobName : string;
  m_InputC : Z;
  m_InputH : Z;
  m_InputW : Z;
  m_InputSize : Z;
  m_NumClasses : Z;
  m_LetterBox : Z;
  m_NewCoords : Z;
  m_YoloCount : Z;
  m_TopK : Z;
  m_IouThreshold : F32.float;
  m_ScoreThreshold : F32.float;
  m_ConfigBlocks : list (gmap string string);
  m_YoloTensors : list TensorInfo
}.

Section WithEngine.
(** The inference-engine API and the layer constructors of the other
    source files: a result of [None] is a constructor that aborts or
    hands back no output tensor. Constructors that read weights return
    the advanced [weightPtr] with their tensor. *)
Variable ITensor : Type.
Variable getNumChannels : ITensor -> Z.
Variable getDimensions : ITensor -> list Z.
Variable addInput : string -> Z -> Z -> Z -> option ITensor.
Variable convolutionalLayer :
  Z -> gmap string string -> list F32.float -> Z -> string -> Z -> Z -> ITensor ->
  option (ITensor * Z).
Variable implicitLayer : Z -> list F32.float -> Z -> option (ITensor * Z).
Variable channelsLayer : string -> ITensor -> ITensor -> option ITensor.
Variable shortcutLayer : Z -> string -> ITensor -> ITensor -> option ITensor.
Variable routeLayer : Z -> gmap string string -> list ITensor -> option ITensor.
Variable upsampleLayer : Z -> gmap string string -> ITensor -> option ITensor.
Variable maxpoolLayer : Z -> gmap string string -> ITensor -> option ITensor.
Variable reorgV5Layer : Z -> ITensor -> option ITensor.
Variable reorgPlugin : Z -> ITensor -> option ITensor.
(** The decode plugin over the scale tensors, and the batched NMS on its
    two outputs. *)
Variable yoloAndNMS : Yolo -> list ITensor -> Z -> Z -> option ITensor.

(** The locals of [buildYoloNetwork], and [m_YoloTensors], which the
    loop updates in place. *)
Record State := {
  previous : ITensor;
  channels : Z;
  weightPtr : Z;
  tensorOutputs : list ITensor;
  yoloInputs : list ITensor;
  inputYoloCount : Z;
  modelType : Z;
  yoloTensors : list TensorInfo
}.

Definition push (st : State) (t : ITensor) (ch wp : Z) : State :=
  {| previous := t; channels := ch; weightPtr := wp;
     tensorOutputs := tensorOutputs st ++ [t];
     yoloInputs := yoloInputs st;
     inputYoloCount := inputYoloCount st;
     modelType := modelType st;
     yoloTensors := yoloTensors st |}.

(** The decimal exponent of [eps]: 1.0e-5, 1.0e-3 for yolov5, 1.0e-4 for
    yolor. *)
Definition epsExponent (Y : Yolo) : Z :=
  if contains "yolov5" (m_NetworkType Y) then -3
  else if contains "yolor" (m_NetworkType Y) then -4
  else -5.

Definition weightsType (Y : Yolo) : string :=
  if contains ".weights" (m_WtsFilePath Y) then "weights" else "wts".

(** The referenced tensor of a [shortcut], [shift_channels] or
    [control_channels] block. *)
Definition backReference (i : Z) (block : gmap string string) (st : State)
    : Res (Z * ITensor) :=
  assert (has block "from") (MissingParam "from") ;;;
  s <- at_ block "from" ;;
  from <- orAbort (stoi s) BadNumber ;;
  k <- orAbort (resolveFrom i from (Z.of_nat (length (tensorOutputs st)))) BadBackReference ;;
  t <- orAbort (tensorOutputs st !! Z.to_nat k) BadBackReference ;;
  Ok (k, t).

(** One iteration of the loop over [m_ConfigBlocks], at index [i]. *)
Definition buildStep (Y : Yolo) (weights : list F32.float) (i : Z)
    (block : gmap string string) (st : State) : Res State :=
  assert (getNumChannels (previous st) =? channels st) ChannelDrift ;;;
  type <- at_ block "type" ;;
  if String.eqb type "net" then Ok st
  else if String.eqb type "convolutional" then
    out <- orAbort (convolutionalLayer i block weights (weightPtr st) (weightsType Y)
                      (channels st) (epsExponent Y) (previous st)) NullOutput ;;
    _ <- at_ block "activation" ;;
    Ok (push st (fst out) (getNumChannels (fst out)) (snd out))
  else if String.eqb type "implicit_add" || String.eqb type "implicit_mul" then
    assert (has block "filters") (MissingParam "filters") ;;;
    s <- at_ block "filters" ;;
    filters <- orAbort (stoi s) BadNumber ;;
    out <- orAbort (implicitLayer filters weights (weightPtr st)) NullOutput ;;
    Ok (push st (fst out) (getNumChannels (fst out)) (snd out))
  else if String.eqb type "shift_channels" || String.eqb type "control_channels" then
    let kind := if String.eqb type "shift_channels" then "shift" else "control" in
    ref <- backReference i block st ;;
    t <- orAbort (channelsLayer kind (previous st) (snd ref)) NullOutput ;;
    Ok (push st t (channels st) (weightPtr st))
  else if String.eqb type "dropout" then
    Ok (push st (previous st) (channels st) (weightPtr st))
  else if String.eqb type "shortcut" then
    assert (has block "activation") (MissingParam "activation") ;;;
    activation <- at_ block "activation" ;;
    ref <- backReference i block st ;;
    t <- orAbort (shortcutLayer i activation (previous st) (snd ref)) NullOutput ;;
    Ok (push st t (channels st) (weightPtr st))
  else if String.eqb type "route" then
    assert (has block "layers") (MissingParam "layers") ;;;
    t <- orAbort (routeLayer i block (tensorOutputs st)) NullOutput ;;
    Ok (push st t (getNumChannels t) (weightPtr st))
  else if String.eqb type "upsample" then
    t <- orAbort (upsampleLayer (u32 (i - 1)) block (previous st)) NullOutput ;;
    Ok (push st t (channels st) (weightPtr st))
  else if String.eqb type "maxpool" then
    t <- orAbort (maxpoolLayer i block (previous st)) NullOutput ;;
    Ok (push st t (channels st) (weightPtr st))
  else if String.eqb type "reorg" then
    if contains "yolov5" (m_NetworkType Y) || contains "yolor" (m_NetworkType Y) then
      t <- orAbort (reorgV5Layer i (previous st)) NullOutput ;;
      Ok (push st t (getNumChannels t) (weightPtr st))
    else
      t <- orAbort (reorgPlugin i (previous st)) NullOutput ;;
      Ok (push st t (getNumChannels t) (weightPtr st))
  else if String.eqb type "yolo" || String.eqb type "region" then
    let modelType' :=
      if String.eqb type "yolo"
      then (if contains "yolor" (m_NetworkType Y) then 2 else 1)
      else 0 in
    let layerName :=
      (if modelType' =? 0 then "region_" else "yolo_") +:+ pretty i in
    let dims := getDimensions (previous st) in
    cur <- orAbort (yoloTensors st !! Z.to_nat (inputYoloCount st)) OutOfRange ;;
    let cur' :=
      {| blobName := layerName;
         gridSizeX := u32 (dims !!! 2%nat);
         gridSizeY := u32 (dims !!! 1%nat);
         numBBoxes := numBBoxes cur;
         scaleXY := scaleXY cur;
         anchors := anchors cur;
         mask := mask cur |} in
    Ok {| previous := previous st;
          channels := getNumChannels (previous st);
          weightPtr := weightPtr st;
          tensorOutputs := tensorOutputs st ++ [previous st];
          yoloInputs := yoloInputs st ++ [previous st];
          inputYoloCount := u32 (inputYoloCount st + 1);
          modelType := modelType';
          yoloTensors := <[Z.to_nat (inputYoloCount st) := cur']> (yoloTensors st) |}
  else Fatal (UnsupportedLayer type).

Fixpoint buildLoop (Y : Yolo) (weights : list F32.float) (i : Z)
    (blocks : list (gmap string string)) (st : State) : Res State :=
  match blocks with
  | [] => Ok st
  | block :: rest =>
      st' <- buildStep Y weights i block st ;;
      buildLoop Y weights (i + 1) rest st'
  end.

(** [outputSize]: the sum, on [uint64_t], of the products
    [gridSizeX * gridSizeY * numBBoxes], each taken on [uint]. *)
Definition scaleOutputs (ti : TensorInfo) : Z :=
  u32 (gridSizeX ti * gridSizeY ti * numBBoxes ti).

Fixpoint outputSizeLoop (tensors : list TensorInfo) (j : nat) (count : nat) (acc : Z)
    : Res Z :=
  match count with
  | O => Ok acc
  | S count' =>
      cur <- orAbort (tensors !! j) OutOfRange ;;
      outputSizeLoop tensors (S j) count' ((acc + scaleOutputs cur) mod 2 ^ 64)
  end.

(** What follows the loop: the check of the weights, of the number of
    detection blocks, of the model type and of [topk], then the decode
    plugin and the NMS. *)
Definition finishBuild (Y : Yolo) (weights : list F32.float) (st : State) : Res State :=
  assert (s32 (Z.of_nat (length weights)) =? weightPtr st) UnusedWeights ;;;
  if m_YoloCount Y =? inputYoloCount st then
    assert (negb (modelType st =? -1)) NoModelType ;;;
    outputSize <- outputSizeLoop (yoloTensors st) 0 (Z.to_nat (inputYoloCount st)) 0 ;;
    assert (negb (outputSize <? m_TopK Y)) (TopKTooLarge outputSize) ;;;
    t <- orAbort (yoloAndNMS Y (yoloInputs st) outputSize (modelType st)) NullOutput ;;
    Ok (push st t (channels st) (weightPtr st))
  else Fatal ErrorInCfg.

Definition initialState (Y : Yolo) (data : ITensor) : State :=
  {| previous := data;
     channels := s32 (m_InputC Y);
     weightPtr := 0;
     tensorOutputs := [];
     yoloInputs := [];
     inputYoloCount := 0;
     modelType := -1;
     yoloTensors := m_YoloTensors Y |}.

Definition buildYoloNetwork (Y : Yolo) (weights : list F32.float) : Res State :=
  data <- orAbort (addInput (m_InputBlobName Y) (s32 (m_InputC Y)) (s32 (m_InputH Y))
                     (s32 (m_InputW Y))) NullOutput ;;
  assert (0 <? Z.of_nat (length (getDimensions data))) NullOutput ;;;
  st <- buildLoop Y weights 0 (m_ConfigBlocks Y) (initialState Y data) ;;
  finishBuild Y weights st.
End WithEngine.

Arguments previous {ITensor} _.
Arguments channels {ITensor} _.
Arguments weightPtr {ITensor} _.
Arguments tensorOutputs {ITensor} _.
Arguments yoloInputs {ITensor} _.
Arguments inputYoloCount {ITensor} _.
Arguments modelType {ITensor} _.
Arguments yoloTensors {ITensor} _.

(** *** What the checks after the loop are about *)

(** A [yolo] or [region] section. *)
Definition isDetection (block : gmap string string) : bool :=
  match block !! "type" with
  | Some type => String.eqb type "yolo" || String.eqb type "region"
  | None => false
  end.

Definition detectionBlocks (blocks : list (gmap string string)) : Z :=
  Z.of_nat (length (filter (fun b => isDetection b = true) blocks)).

(** The sum over the scales of grid width x grid height x anchor count. *)
Definition totalOutputs (tensors : list TensorInfo) : Z :=
  foldr (fun ti acc => gridSizeX ti * gridSizeY ti * numBBoxes ti + acc) 0 tensors.

(** *** [Yolo::parseConfigBlocks] *)

Section ParseBlocks.
(** [std::stof], with [None] for the exception it throws. *)
Variable stof : string -> option F32.float.

Fixpoint convertAll {A} (convert : string -> option A) (l : list string) : Res (list A) :=
  match l with
  | [] => Ok []
  | piece :: rest =>
      v <- orAbort (convert (trim piece)) BadNumber ;;
      vs <- convertAll convert rest ;;
      Ok (v :: vs)
  end.

(** [std::stoul(block.at(key))] when [key] is there, [fallback] if not. *)
Definition optionalUint (block : gmap string string) (key : string) (fallback : Z)
    : Res Z :=
  match block !! key with
  | Some s => v <- orAbort (stoul s) BadNumber ;; Ok (u32 v)
  | None => Ok fallback
  end.

Definition requiredUint (block : gmap string string) (key : string) : Res Z :=
  s <- at_ block key ;;
  v <- orAbort (stoul s) BadNumber ;;
  Ok (u32 v).

(** The body of the loop over the blocks. *)
Definition parseConfigBlock (Y : Yolo) (block : gmap string string) : Res Yolo :=
  type <- at_ block "type" ;;
  if String.eqb type "net" then
    assert (has block "height") (MissingParam "height") ;;;
    assert (has block "width") (MissingParam "width") ;;;
    assert (has block "channels") (MissingParam "channels") ;;;
    h <- requiredUint block "height" ;;
    w <- requiredUint block "width" ;;
    c <- requiredUint block "channels" ;;
    letterBox <- optionalUint block "letter_box" (m_LetterBox Y) ;;
    Ok {| m_NetworkType := m_NetworkType Y; m_WtsFilePath := m_WtsFilePath Y;
          m_InputBlobName := m_InputBlobName Y;
          m_InputC := c; m_InputH := h; m_InputW := w;
          m_InputSize := u32 (c * h * w);
          m_NumClasses := m_NumClasses Y; m_LetterBox := letterBox;
          m_NewCoords := m_NewCoords Y; m_YoloCount := m_YoloCount Y;
          m_TopK := m_TopK Y; m_IouThreshold := m_IouThreshold Y;
          m_ScoreThreshold := m_ScoreThreshold Y;
          m_ConfigBlocks := m_ConfigBlocks Y; m_YoloTensors := m_YoloTensors Y |}
  else if String.eqb type "region" || String.eqb type "yolo" then
    assert (has block "num") (MissingParam "num") ;;;
    assert (has block "classes") (MissingParam "classes") ;;;
    assert (has block "anchors") (MissingParam "anchors") ;;;
    classes <- requiredUint block "classes" ;;
    newCoords <- optionalUint block "new_coords" (m_NewCoords Y) ;;
    anchorString <- at_ block "anchors" ;;
    anchorList <- convertAll stof (pieces anchorString) ;;
    maskList <-
      match block !! "mask" with
      | Some maskString =>
          ms <- convertAll stoul (pieces maskString) ;; Ok (s32 <$> ms)
      | None => Ok []
      end ;;
    scale <-
      match block !! "scale_x_y" with
      | Some s => orAbort (stof s) BadNumber
      | None => Ok F32.one
      end ;;
    boxes <-
      (if 0 <? Z.of_nat (length maskList)
       then Ok (u32 (Z.of_nat (length maskList)))
       else num <- at_ block "num" ;; v <- orAbort (stoul (trim num)) BadNumber ;;
            Ok (u32 v)) ;;
    Ok {| m_NetworkType := m_NetworkType Y; m_WtsFilePath := m_WtsFilePath Y;
          m_InputBlobName := m_InputBlobName Y;
          m_InputC := m_InputC Y; m_InputH := m_InputH Y; m_InputW := m_InputW Y;
          m_InputSize := m_InputSize Y;
          m_NumClasses := classes; m_LetterBox := m_LetterBox Y;
          m_NewCoords := newCoords; m_YoloCount := u32 (m_YoloCount Y + 1);
          m_TopK := m_TopK Y; m_IouThreshold := m_IouThreshold Y;
          m_ScoreThreshold := m_ScoreThreshold Y;
          m_ConfigBlocks := m_ConfigBlocks Y;
          m_YoloTensors :=
            m_YoloTensors Y ++
            [{| blobName := EmptyString; gridSizeX := 0; gridSizeY := 0; numBBoxes := boxes;
                scaleXY := scale; anchors := anchorList; mask := maskList |}] |}
  else Ok Y.

Fixpoint parseBlocksLoop (Y : Yolo) (blocks : list (gmap string string)) : Res Yolo :=
  match blocks with
  | [] => Ok Y
  | block :: rest => Y' <- parseConfigBlock Y block ;; parseBlocksLoop Y' rest
  end.

Definition parseConfigBlocks (Y : Yolo) : Res Yolo :=
  parseBlocksLoop Y (m_ConfigBlocks Y).
End ParseBlocks.

(** The members as the constructor leaves them, the config blocks being
    those [createEngine] has just read. *)
Definition constructed (networkType wtsFilePath inputBlobName : string)
    (blocks : list (gmap string string)) : Yolo :=
  {| m_NetworkType := networkType; m_WtsFilePath := wtsFilePath;
     m_InputBlobName := inputBlobName;
     m_InputC := 0; m_InputH := 0; m_InputW := 0; m_InputSize := 0;
     m_NumClasses := 0; m_LetterBox := 0; m_NewCoords := 0; m_YoloCount := 0;
     m_TopK := 0; m_IouThreshold := F32.zero; m_ScoreThreshold := F32.zero;
     m_ConfigBlocks := blocks; m_YoloTensors := [] |}.

(** *** The engine interface as one value *)

Record Engine := {
  tensor : Type;
  engine_getNumChannels : tensor -> Z;
  engine_getDimensions : tensor -> list Z;
  engine_addInput : string -> Z -> Z -> Z -> option tensor;
  engine_convolutionalLayer :
    Z -> gmap string string -> list F32.float -> Z -> string -> Z -> Z -> tensor ->
    option (tensor * Z);
  engine_implicitLayer : Z -> list F32.float -> Z -> option (tensor * Z);
  engine_channelsLayer : string -> tensor -> tensor -> option tensor;
  engine_shortcutLayer : Z -> string -> tensor -> tensor -> option tensor;
  engine_routeLayer : Z -> gmap string string -> list tensor -> option tensor;
  engine_upsampleLayer : Z -> gmap string string -> tensor -> option tensor;
  engine_maxpoolLayer : Z -> gmap string string -> tensor -> option tensor;
  engine_reorgV5Layer : Z -> tensor -> option tensor;
  engine_reorgPlugin : Z -> tensor -> option tensor;
  engine_yoloAndNMS : Yolo -> list tensor -> Z -> Z -> option tensor
}.

Definition step (E : Engine) :=
  buildStep (tensor E) (engine_getNumChannels E) (engine_getDimensions E)
    (engine_convolutionalLayer E) (engine_implicitLayer E) (engine_channelsLayer E)
    (engine_shortcutLayer E) (engine_routeLayer E) (engine_upsampleLayer E)
    (engine_maxpoolLayer E) (engine_reorgV5Layer E) (engine_reorgPlugin E).

Definition loop (E : Engine) :=
  buildLoop (tensor E) (engine_getNumChannels E) (engine_getDimensions E)
    (engine_convolutionalLayer E) (engine_implicitLayer E) (engine_channelsLayer E)
    (engine_shortcutLayer E) (engine_routeLayer E) (engine_upsampleLayer E)
    (engine_maxpoolLayer E) (engine_reorgV5Layer E) (engine_reorgPlugin E).

Definition finish (E : Engine) := finishBuild (tensor E) (engine_yoloAndNMS E).

Definition build (E : Engine) :=
  buildYoloNetwork (tensor E) (engine_getNumChannels E) (engine_getDimensions E)
    (engine_addInput E)
    (engine_convolutionalLayer E) (engine_implicitLayer E) (engine_channelsLayer E)
    (engine_shortcutLayer E) (engine_routeLayer E) (engine_upsampleLayer E)
    (engine_maxpoolLayer E) (engine_reorgV5Layer E) (engine_reorgPlugin E)
    (engine_yoloAndNMS E).

(** *** An engine for running the builder

    Tensors are their dimensions; the input and the detection output are
    built, no other layer is. It runs the configurations made of [net],
    [dropout], [yolo] and [region] sections. *)
Module DryRun.
Definition engine : Engine :=
  {| tensor := list Z;
     engine_getNumChannels := fun t => t !!! 0%nat;
     engine_getDimensions := fun t => t;
     engine_addInput := fun _ c h w => Some [c; h; w];
     engine_convolutionalLayer := fun _ _ _ _ _ _ _ _ => None;
     engine_implicitLayer := fun _ _ _ => None;
     engine_channelsLayer := fun _ _ _ => None;
     engine_shortcutLayer := fun _ _ _ _ => None;
     engine_routeLayer := fun _ _ _ => None;
     engine_upsampleLayer := fun _ _ _ => None;
     engine_maxpoolLayer := fun _ _ _ => None;
     engine_reorgV5Layer := fun _ _ => None;
     engine_reorgPlugin := fun _ _ => None;
     engine_yoloAndNMS := fun Y _ _ _ => Some [m_TopK Y; 4] |}.

(** A scale as [parseConfigBlocks] leaves it: three anchors, the grid not
    yet known. *)
Definition scale : TensorInfo :=
  {| blobName := EmptyString; gridSizeX := 0; gridSizeY := 0; numBBoxes := 3;
     scaleXY := F32.one; anchors := []; mask := [0; 1; 2] |}.

Definition section (type : string) : gmap string string := {[ "type" := type ]}.

(** A 416 x 416 x 3 network whose config has the given sections, with
    the given declared scale count, scales and top-K. *)
Definition network (blocks : list (gmap string string)) (yoloCount : Z)
    (tensors : list TensorInfo) (topK : Z) : Yolo :=
  {| m_NetworkType := "yolov4"; m_WtsFilePath := "yolov4.weights";
     m_InputBlobName := "data";
     m_InputC := 3; m_InputH := 416; m_InputW := 416;
     m_InputSize := 519168; m_NumClasses := 80; m_LetterBox := 0; m_NewCoords := 0;
     m_YoloCount := yoloCount; m_TopK := topK;
     m_IouThreshold := F32.zero; m_ScoreThreshold := F32.zero;
     m_ConfigBlocks := blocks; m_YoloTensors := tensors |}.

Definition threeYolo : list (gmap string string) :=
  [section "net"; section "yolo"; section "yolo"; section "yolo"].

(** The locals after the loop over a config with one [yolo] section on a
    255 x 13 x 13 tensor, no weight read. *)
Definition oneScale : State (tensor engine) :=
  {| previous := [255; 13; 13]; channels := 255; weightPtr := 0;
     tensorOutputs := [[255; 13; 13]; [255; 13; 13]];
     yoloInputs := [[255; 13; 13]];
     inputYoloCount := 1; modelType := 1;
     yoloTensors :=
       [{| blobName := "yolo_2"; gridSizeX := 13; gridSizeY := 13; numBBoxes := 3;
           scaleXY := F32.one; anchors := []; mask := [0; 1; 2] |}] |}.
End DryRun.

(** *** What the loop does by the type of the block *)

(** The types [buildYoloNetwork] has a branch for. *)
Definition knownTypes : list string :=
  ["net"; "convolutional"; "implicit_add"; "implicit_mul"; "shift_channels";
   "control_channels"; "dropout"; "shortcut"; "route"; "upsample"; "maxpool"; "reorg";
   "yolo"; "region"].

(** The blocks that read weights. *)
Definition readsWeights (block : gmap string string) : bool :=
  match block !! "type" with
  | Some type =>
      String.eqb type "convolutional" || String.eqb type "implicit_add" ||
      String.eqb type "implicit_mul"
  | None => false
  end.

Definition isNet (block : gmap string string) : bool :=
  match block !! "type" with
  | Some type => String.eqb type "net"
  | None => false
  end.

(** The [modelType] a detection block sets. *)
Definition modelTypeOf (Y : Yolo) (block : gmap string string) : Z :=
  match block !! "type" with
  | Some type =>
      if String.eqb type "yolo"
      then (if contains "yolor" (m_NetworkType Y) then 2 else 1)
      else 0
  | None => 0
  end.

(** The [modelType] after the blocks, from [start]: that of the last
    detection block, if there is one. *)
Definition lastModelType (Y : Yolo) (blocks : list (gmap string string)) (start : Z) : Z :=
  fold_left (fun acc block => if isDetection block then modelTypeOf Y block else acc)
    blocks start.

(** *** [Yolo::parseConfigNMSBlocks] and [Yolo::createEngine] *)

Section Create.
Variable stof : string -> option F32.float.

(** [m_ConfigNMSBlocks[0]] is read unchecked; the blocks come from
    [parseConfigFile], which never returns an empty vector, and the
    model ends the run on one. [m_TopK] is taken as a [uint]. *)
Definition parseConfigNMSBlocks (nmsBlocks : list (gmap string string)) (Y : Yolo)
    : Res Yolo :=
  match nmsBlocks with
  | [] => Fatal OutOfRange
  | block :: _ =>
      type <- at_ block "type" ;;
      assert (String.eqb type "property") (MissingParam "property") ;;;
      assert (has block "iou-threshold") (MissingParam "iou-threshold") ;;;
      assert (has block "score-threshold") (MissingParam "score-threshold") ;;;
      assert (has block "topk") (MissingParam "topk") ;;;
      iouString <- at_ block "iou-threshold" ;;
      iou <- orAbort (stof iouString) BadNumber ;;
      scoreString <- at_ block "score-threshold" ;;
      score <- orAbort (stof scoreString) BadNumber ;;
      topk <- requiredUint block "topk" ;;
      Ok {| m_NetworkType := m_NetworkType Y; m_WtsFilePath := m_WtsFilePath Y;
            m_InputBlobName := m_InputBlobName Y;
            m_InputC := m_InputC Y; m_InputH := m_InputH Y; m_InputW := m_InputW Y;
            m_InputSize := m_InputSize Y;
            m_NumClasses := m_NumClasses Y; m_LetterBox := m_LetterBox Y;
            m_NewCoords := m_NewCoords Y; m_YoloCount := m_YoloCount Y;
            m_TopK := topk; m_IouThreshold := iou; m_ScoreThreshold := score;
            m_ConfigBlocks := m_ConfigBlocks Y; m_YoloTensors := m_YoloTensors Y |}
  end.

(** [m_ConfigBlocks = parseConfigFile(m_ConfigFilePath)]. *)
Definition setConfigBlocks (Y : Yolo) (blocks : list (gmap string string)) : Yolo :=
  {| m_NetworkType := m_NetworkType Y; m_WtsFilePath := m_WtsFilePath Y;
     m_InputBlobName := m_InputBlobName Y;
     m_InputC := m_InputC Y; m_InputH := m_InputH Y; m_InputW := m_InputW Y;
     m_InputSize := m_InputSize Y;
     m_NumClasses := m_NumClasses Y; m_LetterBox := m_LetterBox Y;
     m_NewCoords := m_NewCoords Y; m_YoloCount := m_YoloCount Y;
     m_TopK := m_TopK Y; m_IouThreshold := m_IouThreshold Y;
     m_ScoreThreshold := m_ScoreThreshold Y;
     m_ConfigBlocks := blocks; m_YoloTensors := m_YoloTensors Y |}.

(** [createEngine] up to the network definition: the config file, the
    pass over its blocks, [config_nms.txt] (which is there), the pass
    over its first block, and [parseModel]. [cfg] and [nms] are the
    lines of the two files, [weights] is what [loadWeights] returns.
    The result is the members and the locals of the build; the
    calibrator and the engine built from the network are the
    library's. *)
Definition createEngine (E : Engine) (cfg nms : list string) (weights : list F32.float)
    (Y : Yolo) : Res (Yolo * State (tensor E)) :=
  Y1 <- parseConfigBlocks stof (setConfigBlocks Y (Config.parseConfigFile cfg)) ;;
  Y2 <- parseConfigNMSBlocks (Config.parseConfigFile nms) Y1 ;;
  st <- build E Y2 weights ;;
  Ok (Y2, st).
End Create.

(** *** A config to run [createEngine] on *)

Module Sample.
(** A stand-in for [std::stof] on strings that hold an integer. *)
Definition stof (s : string) : option F32.float := F32.of_int <$> stoi s.

Definition cfg : list string :=
  ["# one scale"; "[net]"; "width=416"; "height=416"; "channels=3"; EmptyString;
   "[yolo]"; "mask=0,1,2"; "anchors=10,13, 16,30, 33,23"; "classes=80"; "num=9"].

Definition nms : list string :=
  ["[property]"; "iou-threshold=1"; "score-threshold=0"; "topk=300"].

(** The object as the constructor leaves it. *)
Definition fresh : Yolo := constructed "yolov4" "yolov4.weights" "data" [].
End Sample.
End Builder.

(** * Properties *)

(** Case analysis on the innermost scrutinee of the goal, as long as there
    is one; the branches that end on distinct constructors are closed. *)
Ltac case_binds :=
  repeat match goal with
    | |- context [match ?x with _ => _ end] =>
        lazymatch x with
        | context [match _ with _ => _ end] => fail
        | _ => destruct x eqn:?; simpl; try discriminate
        end
    end.

(** ** Machine integers *)

Section MachineIntegers.
Lemma s32_small z : INT_MIN <= z <= INT_MAX -> s32 z = z.
Proof.
  unfold s32, INT_MIN, INT_MAX. intros H.
  rewrite Z.mod_small by lia. lia.
Qed.

Lemma u32_small z : 0 <= z < 2 ^ 32 -> u32 z = z.
Proof. unfold u32. intros H. by rewrite Z.mod_small. Qed.

Lemma u32_range z : 0 <= u32 z < 2 ^ 32.
Proof. unfold u32. apply Z.mod_pos_bound. lia. Qed.

(** [s32] changes a value by a multiple of [2^32] only. *)
Lemma u32_s32 a b : u32 (a + s32 b) = u32 (a + b).
Proof.
  unfold u32, s32.
  rewrite (Z.mod_eq (b + 2 ^ 31) (2 ^ 32)) by lia.
  replace (a + (b + 2 ^ 31 - 2 ^ 32 * ((b + 2 ^ 31) / 2 ^ 32) - 2 ^ 31))
    with (a + b + (- ((b + 2 ^ 31) / 2 ^ 32)) * 2 ^ 32) by lia.
  apply Z_mod_plus_full.
Qed.

Lemma u32_u32 a b : u32 (a + u32 b) = u32 (a + b).
Proof. unfold u32. by rewrite Zplus_mod_idemp_r. Qed.

Lemma u32_wrap z : - 2 ^ 32 <= z < 0 -> u32 z = z + 2 ^ 32.
Proof.
  intros H. unfold u32. symmetry. apply (Z.mod_unique _ _ (-1)); lia.
Qed.
End MachineIntegers.

(** ** The decode kernels *)

Section KernelFacts.
Import F32 Kernel.

(** *** The order of the floats *)

Lemma lt_rank a b :
  a <> S754_nan -> b <> S754_nan -> lt a b = true <-> lex3 (rank a) (rank b).
Proof.
  intros Ha Hb. unfold lt, SFltb, SFcompare, lex3.
  destruct a as [sa|sa| |sa ma ea], b as [sb|sb| |sb mb eb]; try congruence;
    try destruct sa; try destruct sb; simpl; try (split; [discriminate | lia]);
    try (split; [lia | reflexivity]);
    change (Pos.compare_cont Eq ma mb) with (Pos.compare ma mb);
    destruct (Z.compare_spec ea eb); destruct (Pos.compare_spec ma mb); simpl;
    split; intros; try discriminate; try reflexivity; try lia.
Qed.

Lemma nan_or_not (a : float) : a = S754_nan \/ a <> S754_nan.
Proof. destruct a; auto; right; congruence. Qed.

Lemma lt_irrefl a : lt a a = false.
Proof.
  destruct (nan_or_not a) as [->|Ha]; [reflexivity|].
  destruct (lt a a) eqn:E; [|reflexivity].
  apply lt_rank in E; auto. unfold lex3 in E. lia.
Qed.

Lemma lt_not_nan a b : lt a b = true -> a <> S754_nan /\ b <> S754_nan.
Proof. destruct a, b; try discriminate; split; congruence. Qed.

Lemma lt_trans a b c : lt a b = true -> lt b c = true -> lt a c = true.
Proof.
  intros Hab Hbc.
  destruct (lt_not_nan _ _ Hab) as [Ha Hb]. destruct (lt_not_nan _ _ Hbc) as [_ Hc].
  apply lt_rank in Hab, Hbc; auto. apply lt_rank; auto.
  unfold lex3 in *. lia.
Qed.

Lemma lt_cotrans a b c :
  a <> S754_nan -> lt b c = true -> lt b a = true \/ lt a c = true.
Proof.
  intros Ha Hbc. destruct (lt_not_nan _ _ Hbc) as [Hb Hc].
  apply lt_rank in Hbc; auto.
  destruct (lt b a) eqn:E1; [by left|]. right.
  apply lt_rank; auto.
  assert (~ lex3 (rank b) (rank a)) as N.
  { intros L. apply lt_rank in L; auto. congruence. }
  unfold lex3 in *. lia.
Qed.

(** *** The running maximum *)

Section MaxLoop.
Variable prob : Z -> float.

Lemma maxLoop_S (k : nat) :
  maxLoop prob (Z.of_nat (S k)) = maxStep prob (maxLoop prob (Z.of_nat k)) (Z.of_nat k).
Proof. unfold maxLoop. rewrite seqZ_S, fold_left_app. reflexivity. Qed.

(** Either nothing exceeded [0.0f] and the sentinel is still there, or
    the index is that of a class whose probability exceeds [0.0f]. *)
Lemma maxLoop_sentinel (k : nat) :
  Z.of_nat k <= 2 ^ 31 ->
  (snd (maxLoop prob (Z.of_nat k)) = -1 /\ fst (maxLoop prob (Z.of_nat k)) = zero /\
   forall j, 0 <= j < Z.of_nat k -> lt zero (prob j) = false) \/
  (0 <= snd (maxLoop prob (Z.of_nat k)) < Z.of_nat k /\
   fst (maxLoop prob (Z.of_nat k)) = prob (snd (maxLoop prob (Z.of_nat k))) /\
   lt zero (fst (maxLoop prob (Z.of_nat k))) = true).
Proof.
  induction k as [|k IH]; intros Hk.
  - left. repeat split; auto. intros j Hj. lia.
  - rewrite maxLoop_S. unfold maxStep.
    destruct (lt (fst (maxLoop prob (Z.of_nat k))) (prob (Z.of_nat k))) eqn:E.
    + right. simpl. rewrite s32_small by (unfold INT_MIN, INT_MAX; lia).
      repeat split; try lia.
      destruct IH as [(_ & Hz & _)|(_ & _ & Hp)]; [lia| |].
      * by rewrite <- Hz.
      * eapply lt_trans; eauto.
    + destruct IH as [(Hi & Hz & Hall)|(Hi & Hp & Hpos)]; [lia| |].
      * left. repeat split; auto. intros j Hj.
        destruct (decide (j = Z.of_nat k)) as [->|]; [by rewrite <- Hz | apply Hall; lia].
      * right. repeat split; auto; lia.
Qed.

(** Without NaN among the probabilities: no class exceeds the maximum
    kept, and every class before the index kept is strictly below it. *)
Lemma maxLoop_max (k : nat) :
  Z.of_nat k <= 2 ^ 31 ->
  (forall j, 0 <= j < Z.of_nat k -> prob j <> S754_nan) ->
  (forall j, 0 <= j < Z.of_nat k -> lt (fst (maxLoop prob (Z.of_nat k))) (prob j) = false) /\
  (forall j, 0 <= j < snd (maxLoop prob (Z.of_nat k)) ->
     lt (prob j) (fst (maxLoop prob (Z.of_nat k))) = true).
Proof.
  induction k as [|k IH]; intros Hk Hnan.
  - split; intros j Hj; simpl in *; lia.
  - destruct IH as [Hub Hfirst]; [lia | intros; apply Hnan; lia |].
    destruct (maxLoop_sentinel k) as [(Hi & Hz & Hall)|(Hi & Hp & Hpos)]; [lia | |];
      rewrite maxLoop_S; unfold maxStep;
      destruct (lt (fst (maxLoop prob (Z.of_nat k))) (prob (Z.of_nat k))) eqn:E; simpl;
      try rewrite s32_small by (unfold INT_MIN, INT_MAX; lia).
    all: split; intros j Hj.
    all: try (destruct (decide (j = Z.of_nat k)) as [->|]; [auto using lt_irrefl |]).
    all: try (apply Hub; lia).
    all: try (apply Hfirst; lia).
    all: try (destruct (lt (prob (Z.of_nat k)) (prob j)) eqn:E2; [|reflexivity];
              rewrite <- (Hub j) by lia; symmetry; eapply lt_trans; eauto).
    all: try (destruct (lt_cotrans (prob j) _ _ (Hnan j ltac:(lia)) E) as [C|C]; [|exact C];
              rewrite Hub in C by lia; discriminate).
    all: try lia.
Qed.
End MaxLoop.

Lemma maxLoop_neg (prob : Z -> float) n : n <= 0 -> maxLoop prob n = (zero, -1).
Proof. intros H. unfold maxLoop. by rewrite seqZ_nil. Qed.

(** *** The two kernels on a thread that survives, and on one that does not *)

Section Threads.
Variable expf : float -> float.
Variable input : Z -> float.
Variable P : Params.
Variables x_id y_id z_id : Z.
Hypothesis Hrange : outOfRange P x_id y_id z_id = false.

Lemma gpuYoloLayer_excluded scaleXY mask o :
  lt (objectnessOf expf input P x_id y_id z_id) (scoreThreshold P) = true ->
  gpuYoloLayer expf input P scaleXY mask x_id y_id z_id o = o.
Proof.
  intros Hgate. unfold gpuYoloLayer. unfold outOfRange in Hrange. rewrite Hrange.
  unfold objectnessOf, chanOf, bbindexOf, numGridCellsOf in Hgate. by rewrite Hgate.
Qed.

Lemma gpuYoloLayer_survivor scaleXY mask o :
  lt (objectnessOf expf input P x_id y_id z_id) (scoreThreshold P) = false ->
  gpuYoloLayer expf input P scaleXY mask x_id y_id z_id o =
  emit o (countData o 0) (objectnessOf expf input P x_id y_id z_id)
    (fst (maxLoop (yoloProbOf expf input P x_id y_id z_id) (numOutputClasses P)))
    (snd (maxLoop (yoloProbOf expf input P x_id y_id z_id) (numOutputClasses P)))
    (yoloCenterX expf input P scaleXY x_id y_id z_id)
    (yoloCenterY expf input P scaleXY x_id y_id z_id)
    (yoloWidth expf input P mask x_id y_id z_id)
    (yoloHeight expf input P mask x_id y_id z_id).
Proof.
  intros Hgate. unfold gpuYoloLayer. unfold outOfRange in Hrange. rewrite Hrange.
  unfold objectnessOf, chanOf, bbindexOf, numGridCellsOf in Hgate. rewrite Hgate.
  unfold yoloProbOf, bbindexOf, numGridCellsOf.
  destruct (maxLoop _ _) as [maxProb maxIndex]. reflexivity.
Qed.

Lemma gpuRegionLayer_excluded st :
  lt (objectnessOf expf input P x_id y_id z_id) (scoreThreshold P) = true ->
  gpuRegionLayer expf input P x_id y_id z_id st = st.
Proof.
  intros Hgate. destruct st as [softmax o]. unfold gpuRegionLayer.
  unfold outOfRange in Hrange. rewrite Hrange.
  unfold objectnessOf, chanOf, bbindexOf, numGridCellsOf in Hgate. by rewrite Hgate.
Qed.

Lemma gpuRegionLayer_survivor softmax o :
  lt (objectnessOf expf input P x_id y_id z_id) (scoreThreshold P) = false ->
  snd (gpuRegionLayer expf input P x_id y_id z_id (softmax, o)) =
  emit o (countData o 0) (objectnessOf expf input P x_id y_id z_id)
    (fst (maxLoop (regionProbOf expf input softmax P x_id y_id z_id) (numOutputClasses P)))
    (snd (maxLoop (regionProbOf expf input softmax P x_id y_id z_id) (numOutputClasses P)))
    (regionCenterX expf input P x_id y_id z_id)
    (regionCenterY expf input P x_id y_id z_id)
    (regionWidth expf input P x_id y_id z_id)
    (regionHeight expf input P x_id y_id z_id).
Proof.
  intros Hgate. unfold gpuRegionLayer. unfold outOfRange in Hrange. rewrite Hrange.
  unfold objectnessOf, chanOf, bbindexOf, numGridCellsOf in Hgate. rewrite Hgate.
  unfold regionProbOf, bbindexOf, numGridCellsOf.
  destruct (maxLoop _ _) as [maxProb maxIndex]. reflexivity.
Qed.
End Threads.

(** *** The stores of [emit] *)

Lemma emit_indexes o c ob mp mi x y w h : d_indexes (emit o c ob mp mi x y w h) c = c.
Proof. simpl. apply fn_lookup_insert. Qed.

Lemma emit_scores o c ob mp mi x y w h :
  d_scores (emit o c ob mp mi x y w h) c = add (mul ob mp) one.
Proof. simpl. apply fn_lookup_insert. Qed.

Lemma emit_classes o c ob mp mi x y w h : d_classes (emit o c ob mp mi x y w h) c = mi.
Proof. simpl. apply fn_lookup_insert. Qed.

Lemma emit_count o c ob mp mi x y w h :
  countData (emit o c ob mp mi x y w h) 0 = s32 (c + 1).
Proof. simpl. apply fn_lookup_insert. Qed.

Lemma emit_boxes o c ob mp mi x y w h :
  d_boxes (emit o c ob mp mi x y w h) (c * 4 + 0) = cornerLow x w /\
  d_boxes (emit o c ob mp mi x y w h) (c * 4 + 1) = cornerLow y h /\
  d_boxes (emit o c ob mp mi x y w h) (c * 4 + 2) = cornerHigh x w /\
  d_boxes (emit o c ob mp mi x y w h) (c * 4 + 3) = cornerHigh y h.
Proof.
  simpl. unfold cornerLow, cornerHigh.
  repeat split;
    repeat (first [ apply fn_lookup_insert | rewrite fn_lookup_insert_ne by lia ]).
Qed.

Lemma lt_asym a b : lt a b = true -> lt b a = false.
Proof.
  intros H. destruct (lt b a) eqn:E; [|reflexivity].
  rewrite <- (lt_irrefl a). symmetry. eapply lt_trans; eauto.
Qed.

(** C1. Anchor-mask variant, for an in-range thread that passes the gate:
    the centre is (sigmoid(tx) * alpha + beta + x_id) * netWidth / gridSizeX
    with alpha = scaleXY and beta = -0.5 * (alpha - 1), and the same in y
    with netHeight / gridSizeY; the size is exp(tw) times the prior that
    the mask selects, with no rescaling; the four cells of the box at the
    reserved slot are cx - w/2, cy - h/2, cx + w/2, cy + h/2, the halves
    being the products 0.5 * w and 0.5 * h taken in double. *)
Theorem yolo_box_decode expf input P scaleXY mask x_id y_id z_id o :
  outOfRange P x_id y_id z_id = false ->
  lt (objectnessOf expf input P x_id y_id z_id) (scoreThreshold P) = false ->
  let o' := gpuYoloLayer expf input P scaleXY mask x_id y_id z_id o in
  let count := countData o 0 in
  let t k := chanOf input P x_id y_id z_id k in
  let alpha := scaleXY in
  let beta := F64.to_float (F64.mul (opp F64.half) (sub alpha (of_int 1))) in
  let cx :=
    div (mul (add (add (mul (sigmoidGPU expf (t 0)) alpha) beta) (of_int x_id))
             (of_int (netWidth P))) (of_int (gridSizeX P)) in
  let cy :=
    div (mul (add (add (mul (sigmoidGPU expf (t 1)) alpha) beta) (of_int y_id))
             (of_int (netHeight P))) (of_int (gridSizeY P)) in
  let w := mul (expf (t 2)) (anchors P (s32 (mask z_id * 2))) in
  let h := mul (expf (t 3)) (anchors P (s32 (mask z_id * 2 + 1))) in
  d_boxes o' (count * 4 + 0) = F64.to_float (F64.sub cx (F64.mul F64.half w)) /\
  d_boxes o' (count * 4 + 1) = F64.to_float (F64.sub cy (F64.mul F64.half h)) /\
  d_boxes o' (count * 4 + 2) = F64.to_float (F64.add cx (F64.mul F64.half w)) /\
  d_boxes o' (count * 4 + 3) = F64.to_float (F64.add cy (F64.mul F64.half h)).
Proof.
  intros Hrange Hgate. cbv zeta.
  rewrite gpuYoloLayer_survivor by assumption.
  apply emit_boxes.
Qed.

Lemma yolo_box_decode_witness :
  let P := Scenario.scale Scenario.quarter 2 2 1 in
  let o' := gpuYoloLayer Expf.expf32 Scenario.oneObject P one Scenario.mask0 0 0 0
              Scenario.blank in
  d_boxes o' 0 = of_int 99 /\ d_boxes o' 1 = div (of_int 195) (of_int 2) /\
  d_boxes o' 2 = of_int 109 /\ d_boxes o' 3 = div (of_int 221) (of_int 2).
Proof.
  cbv zeta.
  destruct (yolo_box_decode Expf.expf32 Scenario.oneObject
              (Scenario.scale Scenario.quarter 2 2 1) one Scenario.mask0 0 0 0
              Scenario.blank) as (H0 & H1 & H2 & H3);
    [vm_compute; reflexivity | vm_compute; reflexivity |].
  change (countData Scenario.blank 0 * 4 + 0) with 0 in H0.
  change (countData Scenario.blank 0 * 4 + 1) with 1 in H1.
  change (countData Scenario.blank 0 * 4 + 2) with 2 in H2.
  change (countData Scenario.blank 0 * 4 + 3) with 3 in H3.
  rewrite H0, H1, H2, H3. vm_compute. repeat split; reflexivity.
Defined.

(** C2, as the kernels have it. For an in-range thread of either kernel:
    when the objectness is strictly below the threshold the thread leaves
    the counter and every array as they are; when it is not below it, and
    so when it equals the threshold or is strictly above it, the thread
    takes the slot [countData[0]], increments the counter and writes the
    slot. *)
Theorem objectness_gate expf input P x_id y_id z_id :
  outOfRange P x_id y_id z_id = false ->
  let objectness := objectnessOf expf input P x_id y_id z_id in
  let included (before after : Out) :=
    countData after 0 = s32 (countData before 0 + 1) /\
    d_indexes after (countData before 0) = countData before 0 in
  (forall scaleXY mask o,
     let o' := gpuYoloLayer expf input P scaleXY mask x_id y_id z_id o in
     (lt objectness (scoreThreshold P) = true -> o' = o) /\
     (lt objectness (scoreThreshold P) = false -> included o o') /\
     (objectness = scoreThreshold P -> included o o') /\
     (lt (scoreThreshold P) objectness = true -> included o o')) /\
  (forall softmax o,
     let st' := gpuRegionLayer expf input P x_id y_id z_id (softmax, o) in
     (lt objectness (scoreThreshold P) = true -> st' = (softmax, o)) /\
     (lt objectness (scoreThreshold P) = false -> included o (snd st')) /\
     (objectness = scoreThreshold P -> included o (snd st')) /\
     (lt (scoreThreshold P) objectness = true -> included o (snd st'))).
Proof.
  intros Hrange. cbv zeta.
  assert (forall a b : float, a = b -> lt a b = false) as Heq
    by (intros a b ->; apply lt_irrefl).
  split.
  - intros scaleXY mask o.
    assert (lt (objectnessOf expf input P x_id y_id z_id) (scoreThreshold P) = false ->
            countData (gpuYoloLayer expf input P scaleXY mask x_id y_id z_id o) 0
              = s32 (countData o 0 + 1) /\
            d_indexes (gpuYoloLayer expf input P scaleXY mask x_id y_id z_id o)
              (countData o 0) = countData o 0) as Hin.
    { intros Hgate. rewrite gpuYoloLayer_survivor by assumption.
      split; [apply emit_count | apply emit_indexes]. }
    split; [intros H; by apply gpuYoloLayer_excluded|].
    split; [exact Hin|].
    split; intros H; apply Hin; auto using lt_asym.
  - intros softmax o.
    assert (lt (objectnessOf expf input P x_id y_id z_id) (scoreThreshold P) = false ->
            countData (snd (gpuRegionLayer expf input P x_id y_id z_id (softmax, o))) 0
              = s32 (countData o 0 + 1) /\
            d_indexes (snd (gpuRegionLayer expf input P x_id y_id z_id (softmax, o)))
              (countData o 0) = countData o 0) as Hin.
    { intros Hgate. rewrite gpuRegionLayer_survivor by assumption.
      split; [apply emit_count | apply emit_indexes]. }
    split; [intros H; by apply gpuRegionLayer_excluded|].
    split; [exact Hin|].
    split; intros H; apply Hin; auto using lt_asym.
Qed.

(** The 2 x 2 scenario: cell (1,0), of objectness below 0.25, leaves the
    arrays as they are, and cell (0,0) takes slot 0. *)
Lemma objectness_gate_witness :
  let P := Scenario.scale Scenario.quarter 2 2 1 in
  gpuYoloLayer Expf.expf32 Scenario.oneObject P one Scenario.mask0 1 0 0 Scenario.blank
    = Scenario.blank /\
  countData (gpuYoloLayer Expf.expf32 Scenario.oneObject P one Scenario.mask0 0 0 0
               Scenario.blank) 0 = 1.
Proof.
  cbv zeta.
  destruct (objectness_gate Expf.expf32 Scenario.oneObject
              (Scenario.scale Scenario.quarter 2 2 1) 1 0 0) as [Hout _];
    [vm_compute; reflexivity |].
  destruct (Hout one Scenario.mask0 Scenario.blank) as (Hexcluded & _).
  destruct (objectness_gate Expf.expf32 Scenario.oneObject
              (Scenario.scale Scenario.quarter 2 2 1) 0 0 0) as [Hin _];
    [vm_compute; reflexivity |].
  destruct (Hin one Scenario.mask0 Scenario.blank) as (_ & Hincluded & _).
  split.
  - apply Hexcluded. vm_compute. reflexivity.
  - apply Hincluded. vm_compute. reflexivity.
Defined.

(** C2 as claimed fails: with a threshold of 0.5 and an objectness logit of
    0 the objectness is exactly the threshold, and both kernels emit the
    cell: the counter goes from 0 to 1 and slot 0 is written (score
    0.5 * 0.5 + 1 in the anchor-mask variant). *)
Lemma threshold_equality_is_emitted :
  let P := Scenario.scale Scenario.half 1 1 1 in
  objectnessOf Expf.expf32 Scenario.atThreshold P 0 0 0 = scoreThreshold P /\
  (let o' := gpuYoloLayer Expf.expf32 Scenario.atThreshold P one Scenario.mask0 0 0 0
               Scenario.blank in
   countData Scenario.blank 0 = 0 /\ countData o' 0 = 1 /\
   d_scores o' 0 = div (of_int 5) (of_int 4)) /\
  (let st' := gpuRegionLayer Expf.expf32 Scenario.atThreshold P 0 0 0
                (fun _ => zero, Scenario.blank) in
   countData (snd st') 0 = 1).
Proof. vm_compute. repeat split; reflexivity. Qed.

Lemma maxLoop_index (prob : Z -> float) n :
  n <= 2 ^ 31 ->
  ((exists j, 0 <= j < n /\ lt zero (prob j) = true) -> 0 <= snd (maxLoop prob n) < n) /\
  ((forall j, 0 <= j < n -> lt zero (prob j) = false) -> snd (maxLoop prob n) = -1).
Proof.
  intros Hn. destruct (Z.le_gt_cases n 0) as [Hneg|Hpos].
  - rewrite maxLoop_neg by assumption. split; [intros (j & Hj & _); lia | reflexivity].
  - rewrite <- (Z2Nat.id n) in * by lia.
    destruct (maxLoop_sentinel prob (Z.to_nat n)) as [(Hi & Hz & Hall)|(Hi & Hp & Hlt)];
      [lia | |].
    + split; [|auto]. intros (j & Hj & Hpj). rewrite Hall in Hpj by lia. discriminate.
    + split; [intros _; lia|]. intros Hall. rewrite Hp, Hall in Hlt by lia. discriminate.
Qed.

Lemma maxLoop_firstMaximum (prob : Z -> float) n :
  n <= 2 ^ 31 ->
  (forall j, 0 <= j < n -> prob j <> S754_nan) ->
  (exists j, 0 <= j < n /\ lt zero (prob j) = true) ->
  firstMaximum prob n (fst (maxLoop prob n)) (snd (maxLoop prob n)).
Proof.
  intros Hn Hnan Hex.
  destruct (maxLoop_index prob n Hn) as [Hin _]. specialize (Hin Hex).
  assert (0 < n) as Hpos by (destruct Hex as (j & Hj & _); lia).
  rewrite <- (Z2Nat.id n) in * by lia.
  destruct (maxLoop_max prob (Z.to_nat n)) as [Hub Hfirst]; [lia | assumption |].
  destruct (maxLoop_sentinel prob (Z.to_nat n)) as [(Hi & _)|(_ & Hp & _)]; [lia | lia |].
  repeat split; auto; lia.
Qed.

(** The loop over the classes, whatever the probabilities. *)
Lemma maxLoop_runningMaximum (prob : Z -> float) n :
  n <= 2 ^ 31 ->
  runningMaximum prob n (fst (maxLoop prob n)) (snd (maxLoop prob n)).
Proof.
  intros Hn. destruct (Z.le_gt_cases n 0) as [Hneg|Hpos].
  { rewrite maxLoop_neg by assumption. left. split; [intros j Hj; lia | done]. }
  rewrite <- (Z2Nat.id n) in * by lia. clear Hpos.
  induction (Z.to_nat n) as [|k IH].
  { left. split; [intros j Hj; lia | done]. }
  specialize (IH ltac:(lia)). rewrite maxLoop_S. unfold maxStep.
  set (m := fst (maxLoop prob (Z.of_nat k))) in *.
  set (i := snd (maxLoop prob (Z.of_nat k))) in *.
  assert (forall j, 0 <= j < Z.of_nat k -> lt m (prob j) = false) as Hupper.
  { destruct IH as [(Hall & -> & _)|(_ & _ & _ & _ & Hub & _)]; assumption. }
  destruct (lt m (prob (Z.of_nat k))) eqn:E; cbn [fst snd].
  - rewrite s32_small by (unfold INT_MIN, INT_MAX; lia).
    assert (lt zero (prob (Z.of_nat k)) = true) as Hpos.
    { destruct IH as [(_ & Hm & _)|(_ & _ & _ & Hz & _)].
      - by rewrite Hm in E.
      - by apply (lt_trans _ m). }
    right. split; [exists (Z.of_nat k); split; [lia | exact Hpos]|].
    split; [lia|]. split; [reflexivity|]. split; [exact Hpos|]. split.
    + intros j Hj. destruct (decide (j = Z.of_nat k)) as [->|Hne]; [apply lt_irrefl|].
      destruct (lt (prob (Z.of_nat k)) (prob j)) eqn:Ej; [|reflexivity].
      rewrite <- (Hupper j) by lia. symmetry. by apply (lt_trans _ (prob (Z.of_nat k))).
    + intros j Hj. destruct (nan_or_not (prob j)) as [Hnan|Hnan]; [by left|]. right.
      destruct (lt_cotrans (prob j) m (prob (Z.of_nat k)) Hnan E) as [Hlt|Hlt];
        [|exact Hlt].
      rewrite Hupper in Hlt by lia. discriminate.
  - destruct IH as [(Hall & Hm & Hi)|((j0 & Hj0 & Hp0) & Hi & Hm & Hz & Hub & Hfirst)].
    + left. split; [|done]. intros j Hj.
      destruct (decide (j = Z.of_nat k)) as [->|Hne]; [by rewrite <- Hm | apply Hall; lia].
    + right. split; [exists j0; split; [lia | exact Hp0]|].
      split; [lia|]. split; [exact Hm|]. split; [exact Hz|]. split; [|exact Hfirst].
      intros j Hj. destruct (decide (j = Z.of_nat k)) as [->|Hne]; [exact E | apply Hub; lia].
Qed.

(** C6, as the kernels have it. A surviving detection of either kernel
    (at most 2^31 classes), at the slot [count] it reserved:
    [d_indexes[count]] is [count]; [d_scores[count]] is
    [objectness * maxProb + 1.0f]; the four cells of [d_boxes] from
    [4 * count] are the corners of the decoded box; [d_classes[count]] is
    [maxIndex]. [maxProb] and [maxIndex] are what the loop over the
    classes leaves: when a class probability compares greater than
    [0.0f], a class of maximal probability and that probability, the class
    being the first one when no probability is a NaN; when none does,
    the initial [0.0f] and [-1], which is the index of no class. *)
Theorem emitted_record expf input P x_id y_id z_id :
  outOfRange P x_id y_id z_id = false ->
  lt (objectnessOf expf input P x_id y_id z_id) (scoreThreshold P) = false ->
  numOutputClasses P <= 2 ^ 31 ->
  let n := numOutputClasses P in
  let objectness := objectnessOf expf input P x_id y_id z_id in
  let record (prob : Z -> float) (after : Out) (count : Z) (cx cy w h : float) :=
    let maxProb := fst (maxLoop prob n) in
    let maxIndex := snd (maxLoop prob n) in
    d_indexes after count = count /\
    d_scores after count = add (mul objectness maxProb) one /\
    d_boxes after (count * 4 + 0) = cornerLow cx w /\
    d_boxes after (count * 4 + 1) = cornerLow cy h /\
    d_boxes after (count * 4 + 2) = cornerHigh cx w /\
    d_boxes after (count * 4 + 3) = cornerHigh cy h /\
    d_classes after count = maxIndex /\
    runningMaximum prob n maxProb maxIndex /\
    ((forall j, 0 <= j < n -> prob j <> S754_nan) ->
     (exists j, 0 <= j < n /\ lt zero (prob j) = true) ->
     firstMaximum prob n maxProb maxIndex) in
  (forall scaleXY mask o,
     record (yoloProbOf expf input P x_id y_id z_id)
       (gpuYoloLayer expf input P scaleXY mask x_id y_id z_id o) (countData o 0)
       (yoloCenterX expf input P scaleXY x_id y_id z_id)
       (yoloCenterY expf input P scaleXY x_id y_id z_id)
       (yoloWidth expf input P mask x_id y_id z_id)
       (yoloHeight expf input P mask x_id y_id z_id)) /\
  (forall softmax o,
     record (regionProbOf expf input softmax P x_id y_id z_id)
       (snd (gpuRegionLayer expf input P x_id y_id z_id (softmax, o))) (countData o 0)
       (regionCenterX expf input P x_id y_id z_id)
       (regionCenterY expf input P x_id y_id z_id)
       (regionWidth expf input P x_id y_id z_id)
       (regionHeight expf input P x_id y_id z_id)).
Proof.
  intros Hrange Hgate Hn. cbv zeta. split.
  - intros scaleXY mask o. rewrite gpuYoloLayer_survivor by assumption.
    split; [apply emit_indexes|]. split; [apply emit_scores|].
    pose proof (emit_boxes o (countData o 0)) as Hb.
    split; [apply Hb|]. split; [apply Hb|]. split; [apply Hb|]. split; [apply Hb|].
    split; [apply emit_classes|].
    split; [by apply maxLoop_runningMaximum|].
    intros Hnan Hex. by apply maxLoop_firstMaximum.
  - intros softmax o. rewrite gpuRegionLayer_survivor by assumption.
    split; [apply emit_indexes|]. split; [apply emit_scores|].
    pose proof (emit_boxes o (countData o 0)) as Hb.
    split; [apply Hb|]. split; [apply Hb|]. split; [apply Hb|]. split; [apply Hb|].
    split; [apply emit_classes|].
    split; [by apply maxLoop_runningMaximum|].
    intros Hnan Hex. by apply maxLoop_firstMaximum.
Qed.

(** The 2 x 2 scenario: the record of cell (0,0) is index 0, class 0 and
    the score [sigmoid(10) * sigmoid(2) + 1]. *)
Lemma emitted_record_witness :
  let P := Scenario.scale Scenario.quarter 2 2 1 in
  let o' := gpuYoloLayer Expf.expf32 Scenario.oneObject P one Scenario.mask0 0 0 0
              Scenario.blank in
  d_indexes o' 0 = 0 /\ d_classes o' 0 = 0 /\
  d_scores o' 0 =
    add (mul (sigmoidGPU Expf.expf32 (of_int 10)) (sigmoidGPU Expf.expf32 (of_int 2))) one.
Proof.
  cbv zeta.
  destruct (emitted_record Expf.expf32 Scenario.oneObject
              (Scenario.scale Scenario.quarter 2 2 1) 0 0 0) as [Hyolo _];
    [vm_compute; reflexivity | vm_compute; reflexivity | vm_compute; discriminate |].
  destruct (Hyolo one Scenario.mask0 Scenario.blank)
    as (Hi & Hs & _ & _ & _ & _ & Hc & Hmax & _).
  change (countData Scenario.blank 0) with 0 in *.
  rewrite Hi, Hs, Hc.
  destruct Hmax as [(Hall & _)|(_ & Hidx & Hprob & _)].
  { specialize (Hall 0 ltac:(simpl; lia)). vm_compute in Hall. discriminate. }
  set (maxIndex := snd (maxLoop _ _)) in *.
  assert (maxIndex = 0) as Hzero.
  { change (numOutputClasses (Scenario.scale Scenario.quarter 2 2 1)) with 1 in Hidx. lia. }
  rewrite Hprob, Hzero.
  split; [reflexivity | split; [reflexivity | vm_compute; reflexivity]].
Defined.

(** C6 as claimed fails: one class, of logit -1000, in a cell whose
    objectness 0.5 passes the threshold 0.25. The probability of the
    class is [0.0f], which is the maximal class probability and has index
    0; it does not compare greater than the initial [maxProb], and the
    record is written with class -1, of which no class probability is the
    maximum. *)
Lemma maximum_class_is_not_written :
  let P := Scenario.scale Scenario.quarter 1 1 1 in
  let prob := yoloProbOf Expf.expf32 Scenario.farNegative P 0 0 0 in
  let o' := gpuYoloLayer Expf.expf32 Scenario.farNegative P one Scenario.mask0 0 0 0
              Scenario.blank in
  outOfRange P 0 0 0 = false /\
  lt (objectnessOf Expf.expf32 Scenario.farNegative P 0 0 0) (scoreThreshold P) = false /\
  countData o' 0 = 1 /\
  d_indexes o' 0 = 0 /\
  (forall j, 0 <= j < numOutputClasses P -> lt (prob 0) (prob j) = false) /\
  d_classes o' 0 = -1 /\
  (forall maxProb, ~ firstMaximum prob (numOutputClasses P) maxProb (d_classes o' 0)).
Proof.
  cbv zeta.
  assert (d_classes
            (gpuYoloLayer Expf.expf32 Scenario.farNegative
               (Scenario.scale Scenario.quarter 1 1 1) one Scenario.mask0 0 0 0
               Scenario.blank) 0 = -1) as Hclass by (vm_compute; reflexivity).
  split; [vm_compute; reflexivity|]. split; [vm_compute; reflexivity|].
  split; [vm_compute; reflexivity|]. split; [vm_compute; reflexivity|].
  split; [|split; [exact Hclass|]].
  - intros j Hj. assert (j = 0) as -> by (simpl in Hj; lia). apply lt_irrefl.
  - intros maxProb (Hidx & _). rewrite Hclass in Hidx. lia.
Qed.

(** C10, as the kernels have it. For a surviving detection of either
    kernel and at most 2^31 classes: when one class probability compares
    strictly greater than [0.0f], the class written lies in
    [0 .. numOutputClasses - 1]; when none does, the class written is the
    sentinel [-1]. *)
Theorem class_index_range expf input P x_id y_id z_id :
  outOfRange P x_id y_id z_id = false ->
  lt (objectnessOf expf input P x_id y_id z_id) (scoreThreshold P) = false ->
  numOutputClasses P <= 2 ^ 31 ->
  let n := numOutputClasses P in
  let verdict (prob : Z -> float) (class : Z) :=
    ((exists j, 0 <= j < n /\ lt zero (prob j) = true) -> 0 <= class < n) /\
    ((forall j, 0 <= j < n -> lt zero (prob j) = false) -> class = -1) in
  (forall scaleXY mask o,
     verdict (yoloProbOf expf input P x_id y_id z_id)
       (d_classes (gpuYoloLayer expf input P scaleXY mask x_id y_id z_id o) (countData o 0))) /\
  (forall softmax o,
     verdict (regionProbOf expf input softmax P x_id y_id z_id)
       (d_classes (snd (gpuRegionLayer expf input P x_id y_id z_id (softmax, o)))
          (countData o 0))).
Proof.
  intros Hrange Hgate Hn. cbv zeta. split.
  - intros scaleXY mask o. rewrite gpuYoloLayer_survivor by assumption.
    rewrite emit_classes. by apply maxLoop_index.
  - intros softmax o. rewrite gpuRegionLayer_survivor by assumption.
    rewrite emit_classes. by apply maxLoop_index.
Qed.

Lemma class_index_range_witness :
  let P := Scenario.scale Scenario.quarter 2 2 1 in
  0 <= d_classes (gpuYoloLayer Expf.expf32 Scenario.oneObject P one Scenario.mask0 0 0 0
                    Scenario.blank) (countData Scenario.blank 0) < 1.
Proof.
  cbv zeta.
  destruct (class_index_range Expf.expf32 Scenario.oneObject
              (Scenario.scale Scenario.quarter 2 2 1) 0 0 0) as [Hyolo _];
    [vm_compute; reflexivity | vm_compute; reflexivity | vm_compute; discriminate |].
  destruct (Hyolo one Scenario.mask0 Scenario.blank) as [Hin _].
  apply Hin. exists 0. split; [simpl; lia | vm_compute; reflexivity].
Defined.

(** C10 as claimed fails: one class, of logit -1000. [__expf(1000)]
    overflows to +infinity, the sigmoid is [1 / (1 + inf) = 0.0f], which
    is not greater than the initial [maxProb], and the detection, whose
    objectness 0.5 passes the threshold 0.25, is written with class -1. *)
Lemma sentinel_class_is_written :
  let P := Scenario.scale Scenario.quarter 1 1 1 in
  let o' := gpuYoloLayer Expf.expf32 Scenario.farNegative P one Scenario.mask0 0 0 0
              Scenario.blank in
  1 <= numOutputClasses P /\
  outOfRange P 0 0 0 = false /\
  Expf.expf32 (of_int 1000) = S754_infinity false /\
  yoloProbOf Expf.expf32 Scenario.farNegative P 0 0 0 0 = zero /\
  countData o' 0 = 1 /\
  d_classes o' 0 = -1 /\
  ~ (0 <= d_classes o' 0 < numOutputClasses P).
Proof. vm_compute. repeat split; try reflexivity; try discriminate. intros [H _]. by apply H. Qed.

(** The value [softmaxGPU] subtracts is [-INFINITY] (no class) or the
    conversion of an [int]: it has no fractional part, whatever the
    logits. *)
Lemma softmaxLargest_integral input P bbindex numGridCells z_id :
  softmaxLargest input P bbindex numGridCells z_id = neg_infinity \/
  exists k : Z, softmaxLargest input P bbindex numGridCells z_id = of_int k.
Proof.
  unfold softmaxLargest.
  assert (forall l acc,
            (acc = neg_infinity \/ exists k : Z, acc = of_int k) ->
            fold_left (largestStep input P bbindex numGridCells z_id) l acc = neg_infinity \/
            exists k : Z,
              fold_left (largestStep input P bbindex numGridCells z_id) l acc = of_int k)
    as Hfold.
  { induction l as [|i l IH]; intros acc Hacc; [exact Hacc|].
    simpl. apply IH. unfold largestStep.
    destruct (lt acc _); [right; eauto | exact Hacc]. }
  apply Hfold. by left.
Qed.

(** C5: the value [softmaxGPU] subtracts is the largest logit truncated to
    an integer, not the largest logit. On the logits 2.5 and 0.5 it is 2,
    strictly below the largest logit, and the exponential stored for that
    class before the division is [__expf(0.5)], not [__expf(0) = 1]. *)
Lemma softmax_subtracts_truncated_maximum :
  let P := Scenario.scale Scenario.quarter 1 1 2 in
  let largest := softmaxLargest Scenario.twoClasses P 0 1 0 in
  chanOf Scenario.twoClasses P 0 0 0 5 = div (of_int 5) (of_int 2) /\
  chanOf Scenario.twoClasses P 0 0 0 6 = Scenario.half /\
  largest = of_int 2 /\
  lt largest (chanOf Scenario.twoClasses P 0 0 0 5) = true /\
  expStep Expf.expf32 Scenario.twoClasses P 0 1 0 one largest (zero, fun _ => zero) 0
    = (Expf.expf32 Scenario.half, <[5 := Expf.expf32 Scenario.half]> (fun _ => zero)) /\
  Expf.expf32 Scenario.half <> one.
Proof. vm_compute. repeat split; try reflexivity; discriminate. Qed.
End KernelFacts.

(** ** The config parser *)

Section ConfigFacts.
Import Str Config.

(** What [parseLine] does, by the kind of line. *)
Lemma parseLine_skipped st line : classify line = None -> parseLine st line = st.
Proof.
  unfold classify, skipped, parseLine. destruct st as [blocks block].
  destruct (size line =? 0)%Z; [done|].
  destruct (Ascii.eqb (front line) " "%char); [done|].
  destruct (Ascii.eqb (front line) "#"%char); [done|]. simpl.
  by destruct (Ascii.eqb (front (trim line)) "["%char).
Qed.

Lemma parseLine_keyvalue blocks block line k v :
  classify line = Some (KeyValue k v) ->
  parseLine (blocks, block) line = (blocks, map_insert k v block).
Proof.
  unfold classify, skipped, parseLine.
  destruct (size line =? 0)%Z; [done|].
  destruct (Ascii.eqb (front line) " "%char); [done|].
  destruct (Ascii.eqb (front line) "#"%char); [done|]. simpl.
  destruct (Ascii.eqb (front (trim line)) "["%char); [done|].
  by intros [= <- <-].
Qed.

Lemma parseLine_header blocks block line n :
  classify line = Some (Header n) ->
  parseLine (blocks, block) line = (blocks ++ flush block, {[ "type"%string := n ]}).
Proof.
  unfold classify, skipped, parseLine, flush.
  destruct (size line =? 0)%Z; [done|].
  destruct (Ascii.eqb (front line) " "%char); [done|].
  destruct (Ascii.eqb (front line) "#"%char); [done|]. simpl.
  destruct (Ascii.eqb (front (trim line)) "["%char); [|done].
  intros [= <-].
  destruct (0 <? Z.of_nat (base.size block)) eqn:E.
  - reflexivity.
  - assert (block = ∅) as ->.
    { apply map_size_empty_iff. apply Z.ltb_ge in E. lia. }
    by rewrite app_nil_r.
Qed.

Lemma map_insert_union k v (block m : gmap string string) :
  map_insert k v block ∪ m = block ∪ <[k := v]> m.
Proof.
  unfold map_insert. apply map_eq. intros j.
  destruct (block !! k) as [u|] eqn:E.
  - rewrite !lookup_union. destruct (decide (k = j)) as [<-|Hne].
    + rewrite E, lookup_insert_eq. by destruct (m !! k).
    + by rewrite lookup_insert_ne.
  - rewrite !lookup_union. destruct (decide (k = j)) as [<-|Hne].
    + rewrite E, !lookup_insert_eq. by destruct (m !! k).
    + by rewrite !lookup_insert_ne.
Qed.

(** The result of the loop from any state, by sections. *)
Lemma parse_from lines : forall blocks block,
  (let '(blocks', block') := fold_left parseLine lines (blocks, block) in blocks' ++ [block']) =
  blocks ++
    (let '(pre, secs) := sections (entries lines) in
     match secs with
     | [] => [block ∪ first_wins pre]
     | _ => flush (block ∪ first_wins pre) ++ (first_wins <$> secs)
     end).
Proof.
  induction lines as [|line rest IH]; intros blocks block.
  - simpl. unfold first_wins. simpl. by rewrite (right_id_L ∅ (∪)).
  - change (fold_left parseLine (line :: rest) (blocks, block))
      with (fold_left parseLine rest (parseLine (blocks, block) line)).
    unfold entries. cbn [omap list_omap].
    destruct (classify line) as [[n|k v]|] eqn:C.
    + rewrite (parseLine_header _ _ _ _ C), IH. fold (entries rest). simpl sections.
      destruct (sections (entries rest)) as [pre secs].
      assert (block ∪ first_wins [] = block) as ->.
      { unfold first_wins. simpl. by rewrite (right_id_L ∅ (∪)). }
      rewrite <- app_assoc. f_equal. f_equal.
      assert ({[ "type"%string := n ]} ∪ first_wins pre = first_wins (("type"%string, n) :: pre))
        as ->.
      { unfold first_wins. simpl. by rewrite insert_union_singleton_l. }
      rewrite fmap_cons.
      destruct secs as [|sec secs']; [reflexivity|].
      unfold flush at 1.
      assert ((0 <? Z.of_nat (base.size (first_wins (("type"%string, n) :: pre)))) = true)
        as ->.
      { apply Z.ltb_lt. unfold first_wins. simpl.
        assert ((base.size (<["type"%string := n]> (list_to_map pre : gmap string string)))
                ≠ 0%nat).
        { rewrite map_size_ne_0_lookup. exists "type"%string. rewrite lookup_insert_eq. eauto. }
        lia. }
      reflexivity.
    + rewrite (parseLine_keyvalue _ _ _ _ _ C), IH. fold (entries rest). simpl sections.
      destruct (sections (entries rest)) as [pre secs].
      assert (map_insert k v block ∪ first_wins pre = block ∪ first_wins ((k, v) :: pre)) as ->.
      { unfold first_wins. simpl. apply map_insert_union. }
      reflexivity.
    + rewrite (parseLine_skipped _ _ C), IH. reflexivity.
Qed.

Lemma parseConfigFile_sections lines :
  parseConfigFile lines =
  (let '(pre, secs) := sections (entries lines) in
   match secs with
   | [] => [first_wins pre]
   | _ => flush (first_wins pre) ++ (first_wins <$> secs)
   end).
Proof.
  unfold parseConfigFile. rewrite (parse_from lines [] ∅). simpl.
  destruct (sections (entries lines)) as [pre secs].
  by rewrite (left_id_L ∅ (∪)).
Qed.

(** A line [[name]] is a header, of name [name] trimmed. *)
Lemma rightTrim_bracket s : rightTrim (s +:+ "]") = s +:+ "]".
Proof.
  induction s as [|c s IH]; [reflexivity|].
  simpl. rewrite IH. by destruct s.
Qed.

Lemma substring_bracket s : String.substring 0 (String.length s) (s +:+ "]") = s.
Proof. induction s as [|c s IH]; [reflexivity|]. simpl. by rewrite IH. Qed.

Lemma length_bracket s : String.length (s +:+ "]") = S (String.length s).
Proof. induction s as [|c s IH]; [reflexivity|]. simpl. by rewrite IH. Qed.

Lemma classify_bracketed name :
  size name < 2 ^ 64 - 2 ->
  classify ("[" +:+ name +:+ "]") = Some (Header (trim name)).
Proof.
  intros Hsize. unfold classify, skipped.
  change ("[" +:+ name +:+ "]")%string with (String "["%char (name +:+ "]")).
  assert (trim (String "["%char (name +:+ "]")) = String "["%char (name +:+ "]")) as ->.
  { unfold trim. change (leftTrim (String "["%char (name +:+ "]")))
      with (String "["%char (name +:+ "]")).
    change (String "["%char (name +:+ "]")) with (("[" +:+ name) +:+ "]").
    apply rightTrim_bracket. }
  simpl. do 3 f_equal.
  unfold substr, size in *. simpl String.length. rewrite length_bracket.
  rewrite Z.mod_small by lia.
  replace (Z.to_nat (Z.min (Z.of_nat (S (S (String.length name))) - 2)
                       (Z.of_nat (S (S (String.length name))))))
    with (String.length name) by lia.
  simpl. apply substring_bracket.
Qed.

(** One section per header, led by the pair of its name. *)
Lemma sections_headers es :
  Forall2 (fun sec n => exists kvs, sec = ("type"%string, n) :: kvs)
    (snd (sections es)) (headers es).
Proof.
  induction es as [|[n|k v] es IH]; simpl.
  - constructor.
  - unfold headers. cbn [omap list_omap]. fold (headers es).
    destruct (sections es) as [pre secs]. simpl in *.
    constructor; [by exists pre | assumption].
  - unfold headers. cbn [omap list_omap]. fold (headers es).
    by destruct (sections es) as [pre secs].
Qed.

(** [first_wins] keeps, of a key, the value of its first pair. *)
Lemma first_wins_lookup (kvs : list (string * string)) key value :
  first_wins kvs !! key = Some value <->
  exists l1 l2, kvs = l1 ++ (key, value) :: l2 /\ key ∉ l1.*1.
Proof.
  unfold first_wins. induction kvs as [|[k v] kvs IH]; simpl.
  - rewrite lookup_empty. split; [done|]. intros (l1 & l2 & H & _). by destruct l1.
  - destruct (decide (k = key)) as [->|Hne].
    + rewrite lookup_insert_eq. split.
      * intros [= ->]. exists [], kvs. split; [done|]. simpl. apply not_elem_of_nil.
      * intros ([|[k1 v1] l1] & l2 & H & Hnot); simplify_eq/=; [done|].
        exfalso. apply Hnot. left.
    + rewrite lookup_insert_ne by done. rewrite IH. split.
      * intros (l1 & l2 & -> & Hnot). exists ((k, v) :: l1), l2. split; [done|].
        simpl. rewrite not_elem_of_cons. auto.
      * intros ([|[k1 v1] l1] & l2 & H & Hnot); simplify_eq/=.
        exists l1, l2. split; [done|]. rewrite not_elem_of_cons in Hnot. tauto.
Qed.

(** C7, as the parser has it. When the first line that is not skipped is
    a section header, [parseConfigFile] returns one block per header, in
    order; each block has under [type] the trimmed text between the
    brackets of its header; and a block holds, for every key of its
    section, the value of the first line with that key: [std::map::insert]
    does not overwrite, so a later duplicate is dropped. *)
Theorem parseConfigFile_blocks lines name rest :
  entries lines = Header name :: rest ->
  let blocks := parseConfigFile lines in
  length blocks = length (headers (entries lines)) /\
  (forall k n, headers (entries lines) !! k = Some n ->
     exists block, blocks !! k = Some block /\ block !! "type"%string = Some n) /\
  (forall k block, blocks !! k = Some block ->
     exists n kvs,
       snd (sections (entries lines)) !! k = Some (("type"%string, n) :: kvs) /\
       forall key value,
         block !! key = Some value <->
         exists l1 l2, ("type"%string, n) :: kvs = l1 ++ (key, value) :: l2 /\ key ∉ l1.*1).
Proof.
  intros Hes. cbv zeta.
  pose proof (sections_headers (entries lines)) as Hsec.
  rewrite parseConfigFile_sections.
  rewrite Hes in *. simpl in Hsec |- *.
  destruct (sections rest) as [pre secs]. simpl in Hsec.
  change (flush (first_wins [])) with (@nil (gmap string string)).
  rewrite app_nil_l.
  split; [|split].
  - rewrite length_fmap. by apply Forall2_length in Hsec.
  - intros k n Hk.
    destruct (Forall2_lookup_r _ _ _ _ _ Hsec Hk) as (sec & Hs & kvs & ->).
    exists (first_wins (("type"%string, n) :: kvs)). split.
    + by rewrite list_lookup_fmap, Hs.
    + apply first_wins_lookup. exists [], kvs. split; [done|]. apply not_elem_of_nil.
  - intros k block Hk. rewrite list_lookup_fmap in Hk.
    destruct (_ !! k) as [sec|] eqn:Hs; [|done]. injection Hk as <-.
    destruct (Forall2_lookup_l _ _ _ _ _ Hsec Hs) as (n & _ & kvs & ->).
    exists n, kvs. split; [done|]. intros key value. apply first_wins_lookup.
Qed.

Lemma parseConfigFile_blocks_witness :
  let lines := ["[net]"; "width=416"; "width = 608"; "# input"; "[yolo]"; "num=3"]%string in
  length (parseConfigFile lines) = 2%nat /\
  exists block, parseConfigFile lines !! 1%nat = Some block /\
                block !! "type"%string = Some "yolo"%string.
Proof.
  cbv zeta.
  destruct (parseConfigFile_blocks
              ["[net]"; "width=416"; "width = 608"; "# input"; "[yolo]"; "num=3"]%string
              "net"%string
              [KeyValue "width" "416"; KeyValue "width" "608"; Header "yolo";
               KeyValue "num" "3"]%string) as (Hlen & Htype & _);
    [vm_compute; reflexivity |].
  split; [exact Hlen | apply (Htype 1%nat); vm_compute; reflexivity].
Defined.

(** C7 as claimed fails on a key that a section gives twice: the block
    keeps the first value, 416, not the last, 608. It also fails on the
    number of blocks when there is no section, or when pairs come before
    the first section: the block under construction is pushed all the
    same. *)
Lemma duplicate_key_keeps_first :
  (let lines := ["[net]"; "width=416"; "width=608"]%string in
   length (headers (entries lines)) = 1%nat /\
   (exists block, parseConfigFile lines = [block] /\
                  block !! "width"%string = Some "416"%string /\
                  last_wins [("type", "net"); ("width", "416"); ("width", "608")]%string
                    !! "width"%string = Some "608"%string)) /\
  (length (headers (entries [])) = 0%nat /\ length (parseConfigFile []) = 1%nat) /\
  (let lines := ["a=b"; "[net]"]%string in
   length (headers (entries lines)) = 1%nat /\ length (parseConfigFile lines) = 2%nat).
Proof.
  split; [|split].
  - cbv zeta. split; [vm_compute; reflexivity|].
    eexists. split; [vm_compute; reflexivity|]. split; vm_compute; reflexivity.
  - split; vm_compute; reflexivity.
  - split; vm_compute; reflexivity.
Qed.
End ConfigFacts.

(** ** The builder *)

Section BackReference.
Import Builder.

(** The offset [resolveFrom] checks, before the checks. *)
Lemma resolveFrom_offset i from :
  0 <= i < 2 ^ 32 -> INT_MIN <= from <= INT_MAX ->
  let rel := if 0 <? from then from - i + 1 else from in
  let from' := if 0 <? from then s32 (u32 (from - i + 1)) else from in
  u32 (i + from' - 1) = u32 (i + rel - 1).
Proof.
  intros Hi Hf. cbv zeta. destruct (0 <? from) eqn:E; [|reflexivity].
  replace (i + s32 (u32 (from - i + 1)) - 1) with ((i - 1) + s32 (u32 (from - i + 1))) by lia.
  rewrite u32_s32, u32_u32. f_equal. lia.
Qed.

Lemma resolveFrom_iff i from n t :
  0 <= i < 2 ^ 32 -> INT_MIN <= from <= INT_MAX -> 0 <= n <= i ->
  let rel := if 0 <? from then from - i + 1 else from in
  resolveFrom i from n = Some t <->
  t = i + rel - 1 /\ 0 <= t < n /\ t < i - 2 /\ i - 2 < n.
Proof.
  intros Hi Hf Hn. cbv zeta. unfold resolveFrom.
  rewrite (resolveFrom_offset i from Hi Hf).
  set (rel := if 0 <? from then from - i + 1 else from).
  assert (0 < i + rel - 1 < 2 ^ 31 \/ - 2 ^ 31 <= rel <= 0) as Hrel.
  { subst rel. unfold INT_MIN, INT_MAX in Hf. destruct (0 <? from) eqn:E; lia. }
  destruct (Z.lt_ge_cases i 2) as [Hsmall|Hbig].
  - rewrite (u32_wrap (i - 2)) by lia.
    destruct (i - 2 + 2 ^ 32 <? n) eqn:E1; [apply Z.ltb_lt in E1; lia|]. simpl.
    split; [discriminate | intros (? & ? & ? & ?); lia].
  - rewrite (u32_small (i - 2)) by lia.
    destruct (Z.lt_ge_cases (i + rel - 1) 0) as [Hneg|Hpos].
    + rewrite (u32_wrap (i + rel - 1)) by lia.
      destruct (i - 2 <? n) eqn:E1; simpl; [|split; [discriminate | intros (? & ? & ? & ?); lia]].
      destruct (i + rel - 1 + 2 ^ 32 <? n) eqn:E2; simpl;
        [apply Z.ltb_lt in E2; lia | split; [discriminate | intros (? & ? & ? & ?); lia]].
    + rewrite (u32_small (i + rel - 1)) by lia.
      destruct (i - 2 <? n) eqn:E1; simpl;
        [apply Z.ltb_lt in E1 | apply Z.ltb_ge in E1; split; [discriminate | intros (? & ? & ? & ?); lia]].
      destruct (i + rel - 1 <? n) eqn:E2; simpl;
        [apply Z.ltb_lt in E2 | apply Z.ltb_ge in E2; split; [discriminate | intros (? & ? & ? & ?); lia]].
      destruct (i + rel - 1 <? i - 2) eqn:E3; simpl;
        [apply Z.ltb_lt in E3 | apply Z.ltb_ge in E3; split; [discriminate | intros (? & ? & ? & ?); lia]].
      split; [intros [= <-]; lia | intros (-> & _); reflexivity].
Qed.
End BackReference.

Section BuilderFacts.
Import Builder.
Variable E : Engine.

(** A step counts the block when it is a detection block, and only then. *)
Lemma buildStep_count Y weights i block st st' :
  step E Y weights i block st = Ok st' ->
  inputYoloCount st' =
    if isDetection block then u32 (inputYoloCount st + 1) else inputYoloCount st.
Proof.
  unfold step, buildStep, isDetection, backReference, at_, assert, orAbort, bind.
  destruct (engine_getNumChannels E (previous st) =? channels st); simpl; [|discriminate].
  destruct (block !! "type"%string) as [type|] eqn:Htype; simpl; [|discriminate].
  repeat match goal with
    | |- context [String.eqb type ?s] =>
        destruct (String.eqb_spec type s) as [->|?]; simpl
    end;
    case_binds; try (intros [= <-]; reflexivity).
Qed.

Lemma detectionBlocks_cons block blocks :
  detectionBlocks (block :: blocks) =
  (if isDetection block then 1 else 0) + detectionBlocks blocks.
Proof.
  unfold detectionBlocks. rewrite filter_cons.
  case_decide as H; destruct (isDetection block); try congruence; simpl; lia.
Qed.

Lemma detectionBlocks_nonneg blocks : 0 <= detectionBlocks blocks.
Proof. unfold detectionBlocks. lia. Qed.

(** The loop counts the detection blocks, on [uint]. *)
Lemma buildLoop_count Y weights blocks : forall i st st',
  loop E Y weights i blocks st = Ok st' ->
  u32 (inputYoloCount st') = u32 (inputYoloCount st + detectionBlocks blocks).
Proof.
  unfold loop. induction blocks as [|block blocks IH]; intros i st st'; simpl.
  - intros [= <-]. unfold detectionBlocks. simpl. f_equal. lia.
  - fold (step E Y weights i block st). unfold bind.
    destruct (step E Y weights i block st) as [st1|] eqn:Hstep; [|discriminate].
    intros Hloop. rewrite (IH _ _ _ Hloop), detectionBlocks_cons.
    rewrite (buildStep_count _ _ _ _ _ _ Hstep).
    destruct (isDetection block).
    + unfold u32. rewrite Zplus_mod_idemp_l. f_equal; lia.
    + f_equal; lia.
Qed.

Lemma buildLoop_count_range Y weights blocks : forall i st st',
  loop E Y weights i blocks st = Ok st' ->
  0 <= inputYoloCount st < 2 ^ 32 -> 0 <= inputYoloCount st' < 2 ^ 32.
Proof.
  unfold loop. induction blocks as [|block blocks IH]; intros i st st'; simpl.
  - by intros [= <-].
  - fold (step E Y weights i block st). unfold bind.
    destruct (step E Y weights i block st) as [st1|] eqn:Hstep; [|discriminate].
    intros Hloop Hst. apply (IH _ _ _ Hloop).
    rewrite (buildStep_count _ _ _ _ _ _ Hstep).
    destruct (isDetection block); [apply u32_range | assumption].
Qed.

(** A build that returns has counted as many detection blocks as
    [m_YoloCount] says. *)
Lemma build_Ok_count Y weights st' :
  build E Y weights = Ok st' ->
  m_YoloCount Y = u32 (detectionBlocks (m_ConfigBlocks Y)).
Proof.
  unfold build, buildYoloNetwork, bind, orAbort, assert.
  destruct (engine_addInput E _ _ _ _) as [data|]; [|discriminate].
  destruct (0 <? _); [|discriminate].
  fold (loop E Y weights 0 (m_ConfigBlocks Y) (initialState (tensor E) Y data)).
  destruct (loop E Y weights 0 (m_ConfigBlocks Y) (initialState (tensor E) Y data))
    as [st|] eqn:Hloop; [|discriminate].
  unfold finishBuild, bind, assert.
  destruct (s32 _ =? weightPtr st); [|discriminate].
  destruct (m_YoloCount Y =? inputYoloCount st) eqn:Hcount; [|discriminate].
  intros _. apply Z.eqb_eq in Hcount. rewrite Hcount.
  rewrite <- (u32_small (inputYoloCount st)).
  - rewrite (buildLoop_count _ _ _ _ _ _ Hloop). reflexivity.
  - apply (buildLoop_count_range _ _ _ _ _ _ Hloop). simpl. lia.
Qed.

Lemma finish_mismatch Y weights (st : State (tensor E)) :
  s32 (Z.of_nat (length weights)) = weightPtr st ->
  m_YoloCount Y <> inputYoloCount st ->
  finish E Y weights st = Fatal ErrorInCfg.
Proof.
  intros Hw Hc. unfold finish, finishBuild, bind, assert.
  rewrite Hw, Z.eqb_refl. apply Z.eqb_neq in Hc. by rewrite Hc.
Qed.

Lemma finish_weights Y weights (st : State (tensor E)) :
  s32 (Z.of_nat (length weights)) <> weightPtr st ->
  finish E Y weights st = Fatal UnusedWeights.
Proof.
  intros Hw. unfold finish, finishBuild, bind, assert.
  apply Z.eqb_neq in Hw. by rewrite Hw.
Qed.

Lemma finish_Ok_weights Y weights (st st' : State (tensor E)) :
  finish E Y weights st = Ok st' ->
  s32 (Z.of_nat (length weights)) = weightPtr st /\ weightPtr st' = weightPtr st.
Proof.
  unfold finish, finishBuild, bind, assert, orAbort.
  destruct (s32 _ =? weightPtr st) eqn:Hw; [|discriminate]. apply Z.eqb_eq in Hw.
  case_binds. by intros [= <-].
Qed.

Lemma build_Ok_weights Y weights st' :
  build E Y weights = Ok st' -> s32 (Z.of_nat (length weights)) = weightPtr st'.
Proof.
  unfold build, buildYoloNetwork, bind, orAbort, assert.
  destruct (engine_addInput E _ _ _ _) as [data|]; [|discriminate].
  destruct (0 <? _); [|discriminate].
  destruct (buildLoop _ _ _ _ _ _ _ _ _ _ _ _ _ _ _ _ _) as [st|]; [|discriminate].
  intros Hfin. apply (finish_Ok_weights Y weights st st') in Hfin as [-> ->]. reflexivity.
Qed.

(** [outputSizeLoop] adds up the products of the scales it visits. *)
Lemma outputSizeLoop_sum (rest : list TensorInfo) : forall (seen : list TensorInfo) acc,
  0 <= acc ->
  Forall (fun ti => 0 <= gridSizeX ti * gridSizeY ti * numBBoxes ti < 2 ^ 32) rest ->
  acc + totalOutputs rest < 2 ^ 64 ->
  outputSizeLoop (seen ++ rest) (length seen) (length rest) acc
    = Ok (acc + totalOutputs rest).
Proof.
  induction rest as [|ti rest IH]; intros seen acc Hacc Hall Hsum; simpl.
  - f_equal. lia.
  - inversion Hall as [|? ? Hti Hrest]; subst.
    assert (0 <= totalOutputs rest) as Hnn.
    { clear -Hrest. induction Hrest; simpl; lia. }
    simpl in Hsum.
    rewrite list_lookup_middle by reflexivity. simpl.
    unfold scaleOutputs. rewrite u32_small by lia.
    rewrite Z.mod_small by lia.
    replace (S (length seen)) with (length (seen ++ [ti])) by (rewrite length_app; simpl; lia).
    rewrite (cons_middle ti seen rest), app_assoc.
    rewrite IH by (auto; lia). f_equal. lia.
Qed.

Lemma step_bad_reference Y weights i block (st : State (tensor E)) type s from :
  engine_getNumChannels E (previous st) = channels st ->
  block !! "type"%string = Some type ->
  type ∈ ["shortcut"; "shift_channels"; "control_channels"]%string ->
  (type = "shortcut"%string -> is_Some (block !! "activation"%string)) ->
  block !! "from"%string = Some s ->
  Str.stoi s = Some from ->
  resolveFrom i from (Z.of_nat (length (tensorOutputs st))) = None ->
  step E Y weights i block st = Fatal BadBackReference.
Proof.
  intros Hch Htype Hin Hact Hfrom Hstoi Hres.
  unfold step, buildStep, backReference, at_, assert, orAbort, bind, has.
  rewrite Hch, Z.eqb_refl, Htype. simpl.
  rewrite !elem_of_cons in Hin. destruct Hin as [->|[->|[->|Hin]]]; simpl.
  - rewrite bool_decide_eq_true_2 by auto. simpl.
    destruct (Hact eq_refl) as [a ->]. simpl.
    rewrite Hfrom. rewrite bool_decide_eq_true_2 by eauto. simpl.
    by rewrite Hstoi, Hres.
  - rewrite Hfrom. rewrite bool_decide_eq_true_2 by eauto. simpl.
    by rewrite Hstoi, Hres.
  - rewrite Hfrom. rewrite bool_decide_eq_true_2 by eauto. simpl.
    by rewrite Hstoi, Hres.
  - by apply elem_of_nil in Hin.
Qed.

Lemma backReference_accepts i block (st : State (tensor E)) s from target :
  block !! "from"%string = Some s ->
  Str.stoi s = Some from ->
  resolveFrom i from (Z.of_nat (length (tensorOutputs st))) = Some target ->
  0 <= target < Z.of_nat (length (tensorOutputs st)) ->
  exists ref, tensorOutputs st !! Z.to_nat target = Some ref /\
              backReference (tensor E) i block st = Ok (target, ref).
Proof.
  intros Hfrom Hstoi Hres Hrange.
  destruct (lookup_lt_is_Some_2 (tensorOutputs st) (Z.to_nat target)) as [ref Href]; [lia|].
  exists ref. split; [assumption|].
  unfold backReference, at_, assert, orAbort, bind, has.
  rewrite Hfrom. rewrite bool_decide_eq_true_2 by eauto. simpl.
  by rewrite Hstoi, Hres, Href.
Qed.
End BuilderFacts.

Section CreateEngine.
Import Builder.
Variable stof : string -> option F32.float.

(** [parseConfigBlocks] counts a block, and records a scale for it, when
    it is a detection block, and only then. *)
Lemma parseConfigBlock_count Y block Y' :
  parseConfigBlock stof Y block = Ok Y' ->
  m_ConfigBlocks Y' = m_ConfigBlocks Y /\
  m_YoloCount Y' = (if isDetection block then u32 (m_YoloCount Y + 1) else m_YoloCount Y) /\
  length (m_YoloTensors Y') =
    (length (m_YoloTensors Y) + if isDetection block then 1 else 0)%nat.
Proof.
  unfold parseConfigBlock, isDetection, requiredUint, optionalUint, at_, assert, orAbort, bind.
  destruct (block !! "type"%string) as [type|] eqn:Htype; simpl; [|discriminate].
  destruct (String.eqb_spec type "net") as [->|Hnet]; simpl.
  - case_binds; intros [= <-]; simpl; repeat split; lia.
  - destruct (String.eqb_spec type "region") as [->|Hregion]; simpl.
    + case_binds; intros [= <-]; simpl; rewrite ?length_app; simpl; repeat split; lia.
    + destruct (String.eqb_spec type "yolo") as [->|Hyolo]; simpl.
      * case_binds; intros [= <-]; simpl; rewrite ?length_app; simpl; repeat split; lia.
      * intros [= <-]. repeat split; lia.
Qed.

Lemma parseBlocksLoop_count blocks : forall Y Y',
  parseBlocksLoop stof Y blocks = Ok Y' ->
  m_ConfigBlocks Y' = m_ConfigBlocks Y /\
  u32 (m_YoloCount Y') = u32 (m_YoloCount Y + detectionBlocks blocks) /\
  (0 <= m_YoloCount Y < 2 ^ 32 -> 0 <= m_YoloCount Y' < 2 ^ 32) /\
  length (m_YoloTensors Y') =
    (length (m_YoloTensors Y) + Z.to_nat (detectionBlocks blocks))%nat.
Proof.
  induction blocks as [|block blocks IH]; intros Y Y'; simpl.
  - intros [= <-]. unfold detectionBlocks. simpl. repeat split; auto; f_equal; lia.
  - unfold bind. destruct (parseConfigBlock stof Y block) as [Y1|] eqn:Hone; [|discriminate].
    intros Hrest.
    destruct (parseConfigBlock_count _ _ _ Hone) as (Hb1 & Hc1 & Hl1).
    destruct (IH _ _ Hrest) as (Hb & Hc & Hr & Hl).
    rewrite detectionBlocks_cons.
    pose proof (detectionBlocks_nonneg blocks) as Hnn.
    split; [congruence|]. split; [|split].
    + rewrite Hc, Hc1. destruct (isDetection block).
      * unfold u32. rewrite Zplus_mod_idemp_l. f_equal; lia.
      * f_equal; lia.
    + intros Hy. apply Hr. rewrite Hc1.
      destruct (isDetection block); [apply u32_range | assumption].
    + rewrite Hl, Hl1. destruct (isDetection block); lia.
Qed.

(** On a newly constructed object, [parseConfigBlocks] leaves in
    [m_YoloCount] the number of detection blocks of the config. *)
Lemma parseConfigBlocks_fresh networkType wtsFilePath inputBlobName blocks Y :
  parseConfigBlocks stof (constructed networkType wtsFilePath inputBlobName blocks) = Ok Y ->
  m_ConfigBlocks Y = blocks /\ m_YoloCount Y = u32 (detectionBlocks blocks).
Proof.
  unfold parseConfigBlocks. intros Hparse.
  apply parseBlocksLoop_count in Hparse as (Hb & Hc & Hr & _).
  split; [exact Hb|].
  rewrite <- (u32_small (m_YoloCount Y)) by (apply Hr; simpl; lia).
  rewrite Hc. f_equal.
Qed.

(** A step, and so the loop, does not end on the config error. *)
Lemma step_not_ErrorInCfg (E : Engine) Y weights i block st :
  step E Y weights i block st <> Fatal ErrorInCfg.
Proof.
  unfold step, buildStep, backReference, at_, assert, orAbort, bind.
  case_binds; intros Habs; discriminate Habs.
Qed.

Lemma loop_not_ErrorInCfg (E : Engine) Y weights blocks : forall i st,
  loop E Y weights i blocks st <> Fatal ErrorInCfg.
Proof.
  unfold loop. induction blocks as [|block blocks IH]; intros i st; simpl; [discriminate|].
  fold (step E Y weights i block st). unfold bind.
  pose proof (step_not_ErrorInCfg E Y weights i block st) as Hstep.
  destruct (step E Y weights i block st) as [st1|e]; [apply IH | congruence].
Qed.

Lemma outputSizeLoop_Fatal tensors count : forall j acc e,
  outputSizeLoop tensors j count acc = Fatal e -> e = OutOfRange.
Proof.
  induction count as [|count IH]; intros j acc e; simpl; [discriminate|].
  unfold bind, orAbort. destruct (tensors !! j); [apply IH | congruence].
Qed.

(** The first [createEngine] on an object: the members that
    [parseConfigBlocks] has set are those of the build, and the build does
    not end on the config error. *)
Lemma first_build_not_ErrorInCfg (E : Engine) Y weights :
  m_YoloCount Y = u32 (detectionBlocks (m_ConfigBlocks Y)) ->
  build E Y weights <> Fatal ErrorInCfg.
Proof.
  intros Hcount. unfold build, buildYoloNetwork, bind, orAbort, assert.
  destruct (engine_addInput E _ _ _ _) as [data|]; [|discriminate].
  destruct (0 <? _); [|discriminate].
  fold (loop E Y weights 0 (m_ConfigBlocks Y) (initialState (tensor E) Y data)).
  pose proof (loop_not_ErrorInCfg E Y weights (m_ConfigBlocks Y) 0
                (initialState (tensor E) Y data)) as Hnot.
  destruct (loop E Y weights 0 (m_ConfigBlocks Y) (initialState (tensor E) Y data))
    as [st|e] eqn:Hloop; [|congruence].
  unfold finishBuild, bind, assert, orAbort.
  destruct (s32 _ =? weightPtr st); [|discriminate]. simpl.
  assert (m_YoloCount Y = inputYoloCount st) as ->.
  { rewrite Hcount. rewrite <- (u32_small (inputYoloCount st)).
    - rewrite (buildLoop_count _ _ _ _ _ _ _ Hloop). reflexivity.
    - apply (buildLoop_count_range _ _ _ _ _ _ _ Hloop). simpl. lia. }
  rewrite Z.eqb_refl.
  destruct (negb (modelType st =? -1)); simpl; [|discriminate].
  destruct (outputSizeLoop _ _ _ _) as [outputSize|e] eqn:Hsize; simpl.
  - case_binds; intros Habs; discriminate Habs.
  - apply outputSizeLoop_Fatal in Hsize as ->. discriminate.
Qed.

(** A second [createEngine] on the same object: [m_YoloCount] is not
    reset, the second [parseConfigBlocks] adds to it, and no build
    returns when the config has a detection block. *)
Lemma second_build_aborts (E : Engine) networkType wtsFilePath inputBlobName blocks Y1 Y2
    weights :
  parseConfigBlocks stof (constructed networkType wtsFilePath inputBlobName blocks) = Ok Y1 ->
  parseConfigBlocks stof Y1 = Ok Y2 ->
  0 < detectionBlocks blocks < 2 ^ 31 ->
  exists e, build E Y2 weights = Fatal e.
Proof.
  intros H1 H2 Hd.
  destruct (parseConfigBlocks_fresh _ _ _ _ _ H1) as (Hb1 & Hc1).
  unfold parseConfigBlocks in H2. rewrite Hb1 in H2.
  apply parseBlocksLoop_count in H2 as (Hb2 & Hc2 & Hr2 & _).
  destruct (build E Y2 weights) as [st'|e] eqn:Hbuild; [|eauto].
  exfalso. apply build_Ok_count in Hbuild.
  rewrite Hb2, Hb1 in Hbuild. rewrite Hbuild, Hc1 in Hc2.
  rewrite (u32_small (detectionBlocks blocks)) in Hc2 by lia.
  rewrite !u32_small in Hc2 by lia. lia.
Qed.
End CreateEngine.

Section BuilderClaims.
Import Builder.

(** C3, as the builder has it. At block [i], with [n] tensors recorded so
    far: a strictly positive [from] is first turned into the relative
    offset [from - i + 1], a zero or negative one is taken as it is; the
    reference is accepted exactly when its offset [i + from - 1] lies
    within the [n] tensors, the referenced position [i + from] is
    strictly below [i - 1], and [i - 2] lies within the [n] tensors too.
    An accepted reference reads the tensor at that very offset; any other
    one makes the step of a [shortcut], [shift_channels] or
    [control_channels] block abort on the assert. *)
Theorem back_reference_resolution (E : Engine) Y weights i from (st : State (tensor E)) :
  0 <= i < 2 ^ 32 ->
  INT_MIN <= from <= INT_MAX ->
  Z.of_nat (length (tensorOutputs st)) <= i ->
  let n := Z.of_nat (length (tensorOutputs st)) in
  let rel := if 0 <? from then from - i + 1 else from in
  let target := i + rel - 1 in
  let accepted := 0 <= target < n /\ i + rel < i - 1 /\ i - 2 < n in
  (resolveFrom i from n = Some target <-> accepted) /\
  (~ accepted -> resolveFrom i from n = None) /\
  (forall block type s,
     engine_getNumChannels E (previous st) = channels st ->
     block !! "type"%string = Some type ->
     type ∈ ["shortcut"; "shift_channels"; "control_channels"]%string ->
     (type = "shortcut"%string -> is_Some (block !! "activation"%string)) ->
     block !! "from"%string = Some s ->
     Str.stoi s = Some from ->
     (~ accepted -> step E Y weights i block st = Fatal BadBackReference) /\
     (accepted ->
      exists ref, tensorOutputs st !! Z.to_nat target = Some ref /\
                  backReference (tensor E) i block st = Ok (target, ref))).
Proof.
  intros Hi Hf Hn. cbv zeta.
  set (n := Z.of_nat (length (tensorOutputs st))).
  set (rel := if 0 <? from then from - i + 1 else from).
  assert (forall t, resolveFrom i from n = Some t <->
                    t = i + rel - 1 /\ 0 <= t < n /\ t < i - 2 /\ i - 2 < n) as Hiff.
  { intros t. apply resolveFrom_iff; auto. subst n. lia. }
  assert (resolveFrom i from n = Some (i + rel - 1) <->
          0 <= i + rel - 1 < n /\ i + rel < i - 1 /\ i - 2 < n) as Hacc.
  { rewrite Hiff. split; [intros (_ & ? & ? & ?) | intros (? & ? & ?)]; repeat split; lia. }
  assert (~ (0 <= i + rel - 1 < n /\ i + rel < i - 1 /\ i - 2 < n) ->
          resolveFrom i from n = None) as Hrej.
  { intros Hno. destruct (resolveFrom i from n) as [t|] eqn:Hres; [|reflexivity].
    exfalso. apply Hno. apply Hacc. f_equal.
    by destruct (proj1 (Hiff t) eq_refl) as (-> & _). }
  split; [exact Hacc|]. split; [exact Hrej|].
  intros block type s Hch Htype Hin Hact Hfrom Hstoi. split.
  - intros Hno. eapply step_bad_reference; eauto.
  - intros Hyes. eapply backReference_accepts; eauto.
    + by apply Hacc.
    + subst n. tauto.
Qed.

(** Block 5 of a run of [dropout] blocks, [from = -3]: offset 1. *)
Lemma back_reference_resolution_witness :
  resolveFrom 5 (-3) 4 = Some 1 /\ resolveFrom 5 (-1) 4 = None.
Proof.
  pose (st := {| previous := [3; 416; 416]; channels := 3; weightPtr := 0;
                 tensorOutputs := replicate 4 [3; 416; 416]; yoloInputs := [];
                 inputYoloCount := 0; modelType := -1; yoloTensors := [] |}
              : State (tensor DryRun.engine)).
  split.
  - apply (back_reference_resolution DryRun.engine
             (DryRun.network [] 0 [] 0) [] 5 (-3) st); vm_compute; intuition congruence.
  - apply (back_reference_resolution DryRun.engine
             (DryRun.network [] 0 [] 0) [] 5 (-1) st); vm_compute; intuition congruence.
Defined.

(** C3 as claimed fails at [from = 0]: the claim normalises it, to the
    tensor at offset 0, which is within bounds and below the bound; the
    builder takes 0 as a relative offset, which is the block itself, and
    aborts. *)
Lemma zero_from_is_rejected :
  resolveFrom_spec 3 0 2 = Some 0 /\
  resolveFrom 3 0 2 = None /\
  (let block : gmap string string :=
     {[ "type" := "shortcut"; "activation" := "linear"; "from" := "0" ]}%string in
   let st : State (tensor DryRun.engine) :=
     {| previous := [3; 416; 416]; channels := 3; weightPtr := 0;
        tensorOutputs := [[3; 416; 416]; [3; 416; 416]]; yoloInputs := [];
        inputYoloCount := 0; modelType := -1; yoloTensors := [] |} in
   step DryRun.engine (DryRun.network [] 0 [] 0) [] 3 block st = Fatal BadBackReference).
Proof. vm_compute. repeat split; reflexivity. Qed.

(** C4. When the weight buffer is no longer than [INT_MAX] scalars: the
    checks after the loop abort with the unused-weights diagnostic
    whenever [weightPtr] differs from the length of the buffer, be it
    shorter or longer, and a build that returns has read exactly as many
    scalars as the buffer holds. *)
Theorem weights_consumed_exactly (E : Engine) Y weights :
  Z.of_nat (length weights) <= INT_MAX ->
  (forall st : State (tensor E),
     weightPtr st <> Z.of_nat (length weights) ->
     finish E Y weights st = Fatal UnusedWeights) /\
  (forall st st' : State (tensor E),
     finish E Y weights st = Ok st' -> weightPtr st = Z.of_nat (length weights)) /\
  (forall st', build E Y weights = Ok st' -> weightPtr st' = Z.of_nat (length weights)).
Proof.
  intros Hlen.
  assert (s32 (Z.of_nat (length weights)) = Z.of_nat (length weights)) as Hs
    by (apply s32_small; unfold INT_MIN, INT_MAX in *; lia).
  split; [|split].
  - intros st Hne. apply finish_weights. rewrite Hs. congruence.
  - intros st st' Hok. apply finish_Ok_weights in Hok as [Hw _]. congruence.
  - intros st' Hok. apply build_Ok_weights in Hok. congruence.
Qed.

(** A buffer of one scalar and a config that reads none. *)
Lemma weights_consumed_exactly_witness :
  finish DryRun.engine (DryRun.network DryRun.threeYolo 1 [] 10) [F32.one] DryRun.oneScale
    = Fatal UnusedWeights.
Proof.
  apply (weights_consumed_exactly DryRun.engine (DryRun.network DryRun.threeYolo 1 [] 10)
           [F32.one]); vm_compute; congruence.
Defined.

(** C8. Whenever the loop has seen a number of detection blocks that
    differs from [m_YoloCount], and the weights were all read, the checks
    after the loop end on "Error in yolo cfg file"; no build returns when
    the number of [yolo] and [region] sections of the config differs from
    [m_YoloCount]; a config of three [yolo] sections under
    [m_YoloCount = 2] aborts, whatever the engine, the weights and the
    scales recorded (with the config error when three scales are
    recorded); and the mismatch branch is reached on some input. *)
Theorem detection_count_mismatch_aborts :
  (forall (E : Engine) Y weights (st : State (tensor E)),
     s32 (Z.of_nat (length weights)) = weightPtr st ->
     m_YoloCount Y <> inputYoloCount st ->
     finish E Y weights st = Fatal ErrorInCfg) /\
  (forall (E : Engine) Y weights,
     m_YoloCount Y <> u32 (detectionBlocks (m_ConfigBlocks Y)) ->
     exists e, build E Y weights = Fatal e) /\
  (forall (E : Engine) weights tensors topK,
     exists e, build E (DryRun.network DryRun.threeYolo 2 tensors topK) weights = Fatal e) /\
  build DryRun.engine
    (DryRun.network DryRun.threeYolo 2 [DryRun.scale; DryRun.scale; DryRun.scale] 10) []
    = Fatal ErrorInCfg /\
  (exists Y weights, build DryRun.engine Y weights = Fatal ErrorInCfg).
Proof.
  assert (forall (E : Engine) Y weights,
            m_YoloCount Y <> u32 (detectionBlocks (m_ConfigBlocks Y)) ->
            exists e, build E Y weights = Fatal e) as Hbuild.
  { intros E Y weights Hne. destruct (build E Y weights) as [st'|e] eqn:Hb; [|eauto].
    apply build_Ok_count in Hb. contradiction. }
  split; [|split; [|split; [|split]]].
  - intros E Y weights st. apply finish_mismatch.
  - exact Hbuild.
  - intros E weights tensors topK. apply Hbuild. vm_compute. discriminate.
  - vm_compute. reflexivity.
  - exists (DryRun.network [DryRun.section "net"; DryRun.section "yolo"] 2
              [DryRun.scale; DryRun.scale] 1), [].
    vm_compute. reflexivity.
Qed.

(** Three [yolo] sections under [m_YoloCount = 2], on two recorded
    scales: the build aborts. *)
Lemma detection_count_mismatch_aborts_witness :
  exists e,
    build DryRun.engine
      (DryRun.network DryRun.threeYolo 2 [DryRun.scale; DryRun.scale] 10) [] = Fatal e.
Proof.
  destruct detection_count_mismatch_aborts as (_ & _ & Hthree & _).
  apply Hthree.
Defined.

(** C9. Once the weights and the number of detection blocks have passed
    their checks and a model type is known, with [outputSize] the sum over
    the scales of grid width x grid height x anchor count (each product
    fitting a [uint], the sum a [uint64_t]): a top-K above the sum aborts
    with "topk > Number of outputs", and a top-K at or below it passes,
    the build going on to the decode plugin and the NMS. *)
Theorem topk_bound (E : Engine) Y weights (st : State (tensor E)) :
  s32 (Z.of_nat (length weights)) = weightPtr st ->
  m_YoloCount Y = inputYoloCount st ->
  modelType st <> -1 ->
  length (yoloTensors st) = Z.to_nat (inputYoloCount st) ->
  Forall (fun ti => 0 <= gridSizeX ti * gridSizeY ti * numBBoxes ti < 2 ^ 32)
    (yoloTensors st) ->
  totalOutputs (yoloTensors st) < 2 ^ 64 ->
  let outputSize := totalOutputs (yoloTensors st) in
  (outputSize < m_TopK Y -> finish E Y weights st = Fatal (TopKTooLarge outputSize)) /\
  (m_TopK Y <= outputSize ->
   finish E Y weights st =
     match engine_yoloAndNMS E Y (yoloInputs st) outputSize (modelType st) with
     | Some t => Ok (push (tensor E) st t (channels st) (weightPtr st))
     | None => Fatal NullOutput
     end).
Proof.
  intros Hw Hc Hm Hlen Hall Hsum. cbv zeta.
  assert (finish E Y weights st =
          bind (assert (negb (totalOutputs (yoloTensors st) <? m_TopK Y))
                  (TopKTooLarge (totalOutputs (yoloTensors st))))
            (fun _ =>
               bind (orAbort (engine_yoloAndNMS E Y (yoloInputs st)
                                (totalOutputs (yoloTensors st)) (modelType st)) NullOutput)
                 (fun t => Ok (push (tensor E) st t (channels st) (weightPtr st))))) as Heq.
  { unfold finish, finishBuild, assert at 1 2.
    rewrite Hw, Hc, !Z.eqb_refl. apply Z.eqb_neq in Hm. rewrite Hm. simpl.
    rewrite <- Hlen.
    pose proof (outputSizeLoop_sum (yoloTensors st) [] 0) as Hloop.
    cbn [app length] in Hloop. rewrite Z.add_0_l in Hloop.
    rewrite Hloop by (auto; lia). reflexivity. }
  rewrite Heq. unfold assert, bind, orAbort. split; intros Hk.
  - apply Z.ltb_lt in Hk. by rewrite Hk.
  - apply Z.ltb_ge in Hk. rewrite Hk. simpl.
    by destruct (engine_yoloAndNMS E Y _ _ _).
Qed.

(** One scale of 13 x 13 x 3 = 507 candidates: a top-K of 508 aborts, a
    top-K of 507 passes. *)
Lemma topk_bound_witness :
  finish DryRun.engine (DryRun.network [] 1 [] 508) [] DryRun.oneScale
    = Fatal (TopKTooLarge 507) /\
  exists st', finish DryRun.engine (DryRun.network [] 1 [] 507) [] DryRun.oneScale = Ok st'.
Proof.
  assert (Forall (fun ti => 0 <= gridSizeX ti * gridSizeY ti * numBBoxes ti < 2 ^ 32)
            (yoloTensors DryRun.oneScale)) as Hall
    by (repeat constructor; simpl; lia).
  split.
  - destruct (topk_bound DryRun.engine (DryRun.network [] 1 [] 508) [] DryRun.oneScale)
      as [Habove _];
      [reflexivity | reflexivity | discriminate | reflexivity | exact Hall | reflexivity |].
    apply Habove. reflexivity.
  - destruct (topk_bound DryRun.engine (DryRun.network [] 1 [] 507) [] DryRun.oneScale)
      as [_ Hbelow];
      [reflexivity | reflexivity | discriminate | reflexivity | exact Hall | reflexivity |].
    eexists. apply Hbelow. discriminate.
Defined.
End BuilderClaims.

(** ** Launches of the kernels *)

Section Runs.
Import F32 Kernel.

(** *** Threads run one after the other *)

(** What [emit] leaves alone. *)
Lemma emit_frame o c ob mp mi x y w h :
  (forall k, k <> c ->
     d_indexes (emit o c ob mp mi x y w h) k = d_indexes o k /\
     d_scores (emit o c ob mp mi x y w h) k = d_scores o k /\
     d_classes (emit o c ob mp mi x y w h) k = d_classes o k) /\
  (forall j, ~ (4 * c <= j < 4 * (c + 1)) ->
     d_boxes (emit o c ob mp mi x y w h) j = d_boxes o j) /\
  (forall k, k <> 0 -> countData (emit o c ob mp mi x y w h) k = countData o k).
Proof.
  split; [|split].
  - intros k Hk. simpl. by rewrite !fn_lookup_insert_ne by congruence.
  - intros j Hj. simpl. by rewrite !fn_lookup_insert_ne by lia.
  - intros k Hk. simpl. by rewrite fn_lookup_insert_ne by congruence.
Qed.

Section Steps.
Context {T S : Type}.
Variable step : S -> T -> S.
Variable out : S -> Out.
Variable alive : T -> bool.
Hypothesis Hdead : forall s t, alive t = false -> out (step s t) = out s.
Hypothesis Hlive : forall s t, alive t = true ->
  exists ob mp mi x y w h,
    out (step s t) = emit (out s) (countData (out s) 0) ob mp mi x y w h.

(** The counter after a run, the slots it has filled, and everything
    else. *)
Lemma run_slots (schedule : list T) : forall s,
  INT_MIN <= countData (out s) 0 ->
  countData (out s) 0 + Z.of_nat (length (List.filter alive schedule)) <= INT_MAX ->
  countData (out (fold_left step schedule s)) 0 =
    countData (out s) 0 + Z.of_nat (length (List.filter alive schedule)) /\
  (forall k, k <> 0 ->
     countData (out (fold_left step schedule s)) k = countData (out s) k) /\
  (forall k,
     countData (out s) 0 <= k <
       countData (out s) 0 + Z.of_nat (length (List.filter alive schedule)) ->
     d_indexes (out (fold_left step schedule s)) k = k) /\
  (forall k,
     ~ (countData (out s) 0 <= k <
          countData (out s) 0 + Z.of_nat (length (List.filter alive schedule))) ->
     d_indexes (out (fold_left step schedule s)) k = d_indexes (out s) k /\
     d_scores (out (fold_left step schedule s)) k = d_scores (out s) k /\
     d_classes (out (fold_left step schedule s)) k = d_classes (out s) k) /\
  (forall j,
     ~ (4 * countData (out s) 0 <= j <
          4 * (countData (out s) 0 + Z.of_nat (length (List.filter alive schedule)))) ->
     d_boxes (out (fold_left step schedule s)) j = d_boxes (out s) j).
Proof.
  induction schedule as [|t schedule IH]; intros s Hlo Hhi.
  - simpl. repeat split; auto; lia.
  - change (fold_left step (t :: schedule) s) with (fold_left step schedule (step s t)).
    simpl List.filter in *. destruct (alive t) eqn:Ha.
    + destruct (Hlive s t Ha) as (ob & mp & mi & x & y & w & h & Hemit).
      simpl length in *. rewrite Nat2Z.inj_succ in *.
      assert (countData (out (step s t)) 0 = countData (out s) 0 + 1) as Hc.
      { rewrite Hemit, emit_count. apply s32_small. lia. }
      destruct (emit_frame (out s) (countData (out s) 0) ob mp mi x y w h)
        as (Hf1 & Hf2 & Hf3).
      destruct (IH (step s t)) as (I1 & I2 & I3 & I4 & I5); [lia | lia |].
      rewrite Hc in *. rewrite <- Hemit in *.
      split; [lia|]. split; [|split; [|split]].
      * intros k Hk. rewrite I2 by assumption. by apply Hf3.
      * intros k Hk. destruct (decide (k = countData (out s) 0)) as [->|Hne].
        -- destruct (I4 (countData (out s) 0)) as (-> & _); [lia|].
           rewrite Hemit. apply emit_indexes.
        -- apply I3. lia.
      * intros k Hk. destruct (I4 k) as (-> & -> & ->); [lia|]. apply Hf1. lia.
      * intros j Hj. rewrite I5 by lia. apply Hf2. lia.
    + specialize (IH (step s t)). rewrite Hdead in IH by assumption.
      apply IH; assumption.
Qed.

(** The slot of a surviving thread holds, at the end of the run, what
    that thread stored. *)
Lemma run_keeps (before after : list T) (t : T) (s : S) :
  alive t = true ->
  INT_MIN <= countData (out s) 0 ->
  countData (out s) 0 +
    Z.of_nat (length (List.filter alive (before ++ t :: after))) <= INT_MAX ->
  let slot := countData (out s) 0 + Z.of_nat (length (List.filter alive before)) in
  let mine := out (step (fold_left step before s) t) in
  let final := out (fold_left step (before ++ t :: after) s) in
  countData (out (fold_left step before s)) 0 = slot /\
  d_indexes final slot = d_indexes mine slot /\
  d_scores final slot = d_scores mine slot /\
  d_classes final slot = d_classes mine slot /\
  (forall j, 4 * slot <= j < 4 * (slot + 1) -> d_boxes final j = d_boxes mine j).
Proof.
  intros Ha Hlo Hhi slot mine final.
  rewrite List.filter_app, length_app in Hhi. simpl List.filter in Hhi.
  rewrite Ha in Hhi. simpl length in Hhi. rewrite Nat2Z.inj_add, Nat2Z.inj_succ in Hhi.
  destruct (run_slots before s) as (B1 & _); [lia | lia |].
  fold slot in B1. split; [exact B1|].
  destruct (Hlive (fold_left step before s) t Ha)
    as (ob & mp & mi & x & y & w & h & Hemit).
  assert (countData mine 0 = slot + 1) as Hc.
  { unfold mine. rewrite Hemit, emit_count, B1. apply s32_small. lia. }
  subst final. rewrite fold_left_app.
  change (fold_left step (t :: after) (fold_left step before s))
    with (fold_left step after (step (fold_left step before s) t)).
  destruct (run_slots after (step (fold_left step before s) t))
    as (_ & _ & _ & A4 & A5); fold mine; [lia | lia |].
  fold mine in A4, A5. rewrite Hc in A4, A5.
  destruct (A4 slot) as (-> & -> & ->); [lia|].
  repeat split; auto. intros j Hj. apply A5. lia.
Qed.
End Steps.
End Runs.

Section Launches.
Import F32 Kernel.
Variable expf : float -> float.
Variable input : Z -> float.
Variable P : Params.

Lemma survives_false t :
  survives expf input P t = false ->
  outOfRange P t.1.1 t.1.2 t.2 = true \/
  (outOfRange P t.1.1 t.1.2 t.2 = false /\
   lt (objectnessOf expf input P t.1.1 t.1.2 t.2) (scoreThreshold P) = true).
Proof.
  unfold survives. destruct (outOfRange P t.1.1 t.1.2 t.2); [by left|].
  destruct (lt _ _); [by right | discriminate].
Qed.

Lemma survives_true t :
  survives expf input P t = true ->
  outOfRange P t.1.1 t.1.2 t.2 = false /\
  lt (objectnessOf expf input P t.1.1 t.1.2 t.2) (scoreThreshold P) = false.
Proof.
  unfold survives. destruct (outOfRange P t.1.1 t.1.2 t.2); [discriminate|].
  destruct (lt _ _); [discriminate | done].
Qed.

Lemma gpuYoloLayer_dead scaleXY mask o t :
  survives expf input P t = false ->
  gpuYoloLayer expf input P scaleXY mask t.1.1 t.1.2 t.2 o = o.
Proof.
  intros H. destruct (survives_false t H) as [Hout|[Hin Hlt]].
  - unfold gpuYoloLayer. unfold outOfRange in Hout. by rewrite Hout.
  - by apply gpuYoloLayer_excluded.
Qed.

Lemma gpuRegionLayer_dead st t :
  survives expf input P t = false ->
  gpuRegionLayer expf input P t.1.1 t.1.2 t.2 st = st.
Proof.
  intros H. destruct (survives_false t H) as [Hout|[Hin Hlt]].
  - destruct st as [softmax o]. unfold gpuRegionLayer. unfold outOfRange in Hout.
    by rewrite Hout.
  - by apply gpuRegionLayer_excluded.
Qed.

Lemma gpuYoloLayer_live scaleXY mask o t :
  survives expf input P t = true ->
  exists ob mp mi x y w h,
    gpuYoloLayer expf input P scaleXY mask t.1.1 t.1.2 t.2 o =
    emit o (countData o 0) ob mp mi x y w h.
Proof.
  intros H. destruct (survives_true t H) as [Hin Hlt].
  rewrite gpuYoloLayer_survivor by assumption. by repeat eexists.
Qed.

Lemma gpuRegionLayer_live st t :
  survives expf input P t = true ->
  exists ob mp mi x y w h,
    snd (gpuRegionLayer expf input P t.1.1 t.1.2 t.2 st) =
    emit (snd st) (countData (snd st) 0) ob mp mi x y w h.
Proof.
  intros H. destruct (survives_true t H) as [Hin Hlt]. destruct st as [softmax o].
  rewrite gpuRegionLayer_survivor by assumption. by repeat eexists.
Qed.

(** The counter and the slots after a run of [gpuYoloLayer] threads. *)
Lemma runYolo_slots scaleXY mask schedule o :
  INT_MIN <= countData o 0 ->
  countData o 0 + emitted expf input P schedule <= INT_MAX ->
  let first := countData o 0 in
  let last := countData o 0 + emitted expf input P schedule in
  let o' := runYolo expf input P scaleXY mask schedule o in
  countData o' 0 = last /\
  (forall k, k <> 0 -> countData o' k = countData o k) /\
  (forall k, first <= k < last -> d_indexes o' k = k) /\
  (forall k, ~ (first <= k < last) ->
     d_indexes o' k = d_indexes o k /\ d_scores o' k = d_scores o k /\
     d_classes o' k = d_classes o k) /\
  (forall j, ~ (4 * first <= j < 4 * last) -> d_boxes o' j = d_boxes o j).
Proof.
  intros Hlo Hhi. unfold emitted in *. cbv zeta. unfold runYolo.
  apply (run_slots
           (fun o t => gpuYoloLayer expf input P scaleXY mask t.1.1 t.1.2 t.2 o)
           (fun o => o) (survives expf input P)); auto.
  - intros s t. apply gpuYoloLayer_dead.
  - intros s t. apply gpuYoloLayer_live.
Qed.

(** X1. A launch of [gpuYoloLayer], its threads taking effect in any
    order: the counter ends at its start value plus the number of
    surviving threads, the slots from the start value up to there hold
    their own index in [d_indexes], and no cell outside these slots (of
    [d_indexes], [d_scores], [d_classes], of [d_boxes] four cells a slot,
    of the counter array) is changed. The counter is an [int]: the sum
    has to stay within [INT_MAX]. *)
Theorem yolo_launch_slots scaleXY mask schedule o :
  INT_MIN <= countData o 0 ->
  countData o 0 + emitted expf input P schedule <= INT_MAX ->
  let first := countData o 0 in
  let last := countData o 0 + emitted expf input P schedule in
  let o' := runYolo expf input P scaleXY mask schedule o in
  countData o' 0 = last /\
  (forall k, k <> 0 -> countData o' k = countData o k) /\
  (forall k, first <= k < last -> d_indexes o' k = k) /\
  (forall k, ~ (first <= k < last) ->
     d_indexes o' k = d_indexes o k /\ d_scores o' k = d_scores o k /\
     d_classes o' k = d_classes o k) /\
  (forall j, ~ (4 * first <= j < 4 * last) -> d_boxes o' j = d_boxes o j).
Proof.
  intros Hlo Hhi. unfold emitted in *. cbv zeta. unfold runYolo.
  apply (run_slots
           (fun o t => gpuYoloLayer expf input P scaleXY mask t.1.1 t.1.2 t.2 o)
           (fun o => o) (survives expf input P)); auto.
  - intros s t. apply gpuYoloLayer_dead.
  - intros s t. apply gpuYoloLayer_live.
Qed.

(** X2. The same launch, seen from one surviving thread: whatever runs
    before and after it, at the end its slot (the start value of the
    counter plus the number of survivors scheduled before it) holds its
    own record: the slot index, the score [objectness * maxProb + 1], the
    class, and the four corners of its box. No later thread overwrites
    it. *)
Theorem yolo_launch_records scaleXY mask before t after o :
  survives expf input P t = true ->
  INT_MIN <= countData o 0 ->
  countData o 0 + emitted expf input P (before ++ t :: after) <= INT_MAX ->
  let slot := countData o 0 + emitted expf input P before in
  let o' := runYolo expf input P scaleXY mask (before ++ t :: after) o in
  let classes := maxLoop (yoloProbOf expf input P t.1.1 t.1.2 t.2) (numOutputClasses P) in
  let cx := yoloCenterX expf input P scaleXY t.1.1 t.1.2 t.2 in
  let cy := yoloCenterY expf input P scaleXY t.1.1 t.1.2 t.2 in
  let w := yoloWidth expf input P mask t.1.1 t.1.2 t.2 in
  let h := yoloHeight expf input P mask t.1.1 t.1.2 t.2 in
  d_indexes o' slot = slot /\
  d_scores o' slot =
    add (mul (objectnessOf expf input P t.1.1 t.1.2 t.2) (fst classes)) one /\
  d_classes o' slot = snd classes /\
  d_boxes o' (slot * 4 + 0) = cornerLow cx w /\
  d_boxes o' (slot * 4 + 1) = cornerLow cy h /\
  d_boxes o' (slot * 4 + 2) = cornerHigh cx w /\
  d_boxes o' (slot * 4 + 3) = cornerHigh cy h.
Proof.
  intros Ha Hlo Hhi. unfold emitted in *. cbv zeta. unfold runYolo.
  destruct (run_keeps
              (fun o t => gpuYoloLayer expf input P scaleXY mask t.1.1 t.1.2 t.2 o)
              (fun o => o) (survives expf input P)
              (fun s t => gpuYoloLayer_dead scaleXY mask s t)
              (fun s t => gpuYoloLayer_live scaleXY mask s t)
              before after t o Ha Hlo Hhi) as (Hc & Hi & Hs & Hk & Hb).
  destruct (survives_true t Ha) as [Hin Hlt].
  rewrite gpuYoloLayer_survivor in Hi, Hs, Hk, Hb by assumption.
  rewrite Hc in Hi, Hs, Hk, Hb.
  rewrite Hi, Hs, Hk, !Hb by lia.
  rewrite emit_indexes, emit_scores, emit_classes.
  match goal with |- context [emit ?a ?b ?c ?d ?e ?f ?g ?i ?j] =>
    destruct (emit_boxes a b c d e f g i j) as (-> & -> & -> & ->) end.
  repeat split.
Qed.

(** The counter and the slots after a run of [gpuRegionLayer] threads. *)
Lemma runRegion_slots schedule st :
  INT_MIN <= countData (snd st) 0 ->
  countData (snd st) 0 + emitted expf input P schedule <= INT_MAX ->
  let o := snd st in
  let first := countData o 0 in
  let last := countData o 0 + emitted expf input P schedule in
  let o' := snd (runRegion expf input P schedule st) in
  countData o' 0 = last /\
  (forall k, k <> 0 -> countData o' k = countData o k) /\
  (forall k, first <= k < last -> d_indexes o' k = k) /\
  (forall k, ~ (first <= k < last) ->
     d_indexes o' k = d_indexes o k /\ d_scores o' k = d_scores o k /\
     d_classes o' k = d_classes o k) /\
  (forall j, ~ (4 * first <= j < 4 * last) -> d_boxes o' j = d_boxes o j).
Proof.
  intros Hlo Hhi. unfold emitted in *. cbv zeta. unfold runRegion.
  apply (run_slots
           (fun st t => gpuRegionLayer expf input P t.1.1 t.1.2 t.2 st)
           snd (survives expf input P)); auto.
  - intros s t H. by rewrite gpuRegionLayer_dead.
  - intros s t. apply gpuRegionLayer_live.
Qed.

(** X3. A launch of [gpuRegionLayer]: the counter and the slots behave
    as for [gpuYoloLayer]. *)
Theorem region_launch_slots schedule st :
  INT_MIN <= countData (snd st) 0 ->
  countData (snd st) 0 + emitted expf input P schedule <= INT_MAX ->
  let o := snd st in
  let first := countData o 0 in
  let last := countData o 0 + emitted expf input P schedule in
  let o' := snd (runRegion expf input P schedule st) in
  countData o' 0 = last /\
  (forall k, k <> 0 -> countData o' k = countData o k) /\
  (forall k, first <= k < last -> d_indexes o' k = k) /\
  (forall k, ~ (first <= k < last) ->
     d_indexes o' k = d_indexes o k /\ d_scores o' k = d_scores o k /\
     d_classes o' k = d_classes o k) /\
  (forall j, ~ (4 * first <= j < 4 * last) -> d_boxes o' j = d_boxes o j).
Proof.
  intros Hlo Hhi. unfold emitted in *. cbv zeta. unfold runRegion.
  apply (run_slots
           (fun st t => gpuRegionLayer expf input P t.1.1 t.1.2 t.2 st)
           snd (survives expf input P)); auto.
  - intros s t H. by rewrite gpuRegionLayer_dead.
  - intros s t. apply gpuRegionLayer_live.
Qed.
End Launches.

Section Softmax.
Import F32 Kernel.

(** A loop that rewrites one cell per index, the cells being distinct. *)
Lemma write_loop (cell : Z -> Z) (g : Z -> float -> float) (l : list Z) :
  NoDup l ->
  (forall i j, i ∈ l -> j ∈ l -> cell i = cell j -> i = j) ->
  forall out0 : Z -> float,
  (forall i, i ∈ l ->
     fold_left (fun out i => <[cell i := g i (out (cell i))]> out) l out0 (cell i) =
     g i (out0 (cell i))) /\
  (forall k, (forall i, i ∈ l -> cell i <> k) ->
     fold_left (fun out i => <[cell i := g i (out (cell i))]> out) l out0 k = out0 k).
Proof.
  induction l as [|a l IH]; intros Hnd Hinj out0.
  - split; [intros i Hi; by apply elem_of_nil in Hi | auto].
  - apply NoDup_cons in Hnd as [Ha Hnd].
    destruct (IH Hnd) with (out0 := <[cell a := g a (out0 (cell a))]> out0)
      as [IH1 IH2].
    { intros i j Hi Hj. apply Hinj; by apply list_elem_of_further. }
    simpl. split.
    + intros i Hi. apply elem_of_cons in Hi as [->|Hi].
      * rewrite IH2; [apply fn_lookup_insert|].
        intros j Hj E. apply Hinj in E; [subst; done | | ].
        -- by apply list_elem_of_further.
        -- apply list_elem_of_here.
      * rewrite IH1 by assumption. rewrite fn_lookup_insert_ne; [done|].
        intros E. apply Hinj in E; [subst; done | | ].
        -- apply list_elem_of_here.
        -- by apply list_elem_of_further.
    + intros k Hk. rewrite IH2.
      * apply fn_lookup_insert_ne. apply Hk, list_elem_of_here.
      * intros i Hi. apply Hk. by apply list_elem_of_further.
Qed.

Lemma fold_left_ext_in {A B} (f g : A -> B -> A) (l : list B) :
  (forall a b, b ∈ l -> f a b = g a b) ->
  forall a, fold_left f l a = fold_left g l a.
Proof.
  induction l as [|b l IH]; intros H a; [done|].
  simpl. rewrite H by apply list_elem_of_here.
  apply IH. intros a' b' Hb. apply H. by apply list_elem_of_further.
Qed.

Lemma maxLoop_ext (p q : Z -> float) n :
  (forall i, 0 <= i < n -> p i = q i) -> maxLoop p n = maxLoop q n.
Proof.
  intros H. unfold maxLoop. apply fold_left_ext_in.
  intros a b Hb. apply elem_of_seqZ in Hb. unfold maxStep. by rewrite H by lia.
Qed.

Section Cells.
Variable expf : float -> float.
Variable input : Z -> float.
Variable P : Params.
Variables bbindex numGridCells z_id : Z.
Hypothesis Hcells : 0 < numGridCells.
Hypothesis Hspan : numGridCells * numOutputClasses P <= 2 ^ 32.

(** The class cells of one anchor are distinct. *)
Lemma class_cells_distinct i j :
  0 <= i < numOutputClasses P -> 0 <= j < numOutputClasses P ->
  chanIndex P bbindex numGridCells z_id (5 + i) =
  chanIndex P bbindex numGridCells z_id (5 + j) -> i = j.
Proof.
  intros Hi Hj E. unfold chanIndex, u32 in E.
  set (a := bbindex + numGridCells * (z_id * (5 + numOutputClasses P) + 5)) in *.
  replace (bbindex + numGridCells * (z_id * (5 + numOutputClasses P) + (5 + i)))
    with (a + numGridCells * i) in E by (unfold a; ring).
  replace (bbindex + numGridCells * (z_id * (5 + numOutputClasses P) + (5 + j)))
    with (a + numGridCells * j) in E by (unfold a; ring).
  assert (((a + numGridCells * i) - (a + numGridCells * j)) mod 2 ^ 32 = 0) as Hd.
  { rewrite Zminus_mod, E, Z.sub_diag. reflexivity. }
  apply Z.mod_divide in Hd; [|lia]. destruct Hd as [q Hq].
  assert (numGridCells * (i - j) = q * 2 ^ 32) as Hq' by lia.
  assert (- 2 ^ 32 < numGridCells * (i - j) < 2 ^ 32) as Hb by nia.
  assert (q = 0) by nia. subst q. nia.
Qed.

Lemma class_cells_inj i j :
  i ∈ seqZ 0 (numOutputClasses P) -> j ∈ seqZ 0 (numOutputClasses P) ->
  chanIndex P bbindex numGridCells z_id (5 + i) =
  chanIndex P bbindex numGridCells z_id (5 + j) -> i = j.
Proof. intros Hi%elem_of_seqZ Hj%elem_of_seqZ. apply class_cells_distinct; lia. Qed.

(** [softmaxGPU] as two passes over the class cells: the store of the
    exponentials, then the division of each by their sum. *)
Lemma softmaxGPU_loops (temp : float) (output : Z -> float) :
  softmaxGPU expf input P bbindex numGridCells z_id temp output =
  fold_left
    (fun out i =>
       <[chanIndex P bbindex numGridCells z_id (5 + i) :=
           (fun _ v => div v (softmaxSum expf input P bbindex numGridCells z_id temp)) i
             (out (chanIndex P bbindex numGridCells z_id (5 + i)))]> out)
    (seqZ 0 (numOutputClasses P))
    (fold_left
       (fun out i =>
          <[chanIndex P bbindex numGridCells z_id (5 + i) :=
              (fun i _ => softmaxExp expf input P bbindex numGridCells z_id temp i) i
                (out (chanIndex P bbindex numGridCells z_id (5 + i)))]> out)
       (seqZ 0 (numOutputClasses P)) output).
Proof.
  assert (forall l acc,
            fold_left
              (expStep expf input P bbindex numGridCells z_id temp
                 (softmaxLargest input P bbindex numGridCells z_id)) l acc =
            (fold_left
               (fun sum i =>
                  add sum (softmaxExp expf input P bbindex numGridCells z_id temp i))
               l (fst acc),
             fold_left
               (fun out i =>
                  <[chanIndex P bbindex numGridCells z_id (5 + i) :=
                      softmaxExp expf input P bbindex numGridCells z_id temp i]> out)
               l (snd acc))) as Hexp.
  { induction l as [|i l IH]; intros [sum out]; [done|]. simpl. rewrite IH. done. }
  unfold softmaxGPU. rewrite Hexp. reflexivity.
Qed.

(** The class cells after [softmaxGPU]. *)
Lemma softmaxGPU_class_cell (temp : float) (output : Z -> float) i :
  0 <= i < numOutputClasses P ->
  softmaxGPU expf input P bbindex numGridCells z_id temp output
    (chanIndex P bbindex numGridCells z_id (5 + i)) =
  div (softmaxExp expf input P bbindex numGridCells z_id temp i)
      (softmaxSum expf input P bbindex numGridCells z_id temp).
Proof.
  intros Hi. rewrite softmaxGPU_loops.
  pose proof (NoDup_seqZ 0 (numOutputClasses P)) as Hnd.
  match goal with |- fold_left _ _ ?o1 _ = _ =>
    destruct (write_loop (fun i => chanIndex P bbindex numGridCells z_id (5 + i))
                (fun _ v => div v (softmaxSum expf input P bbindex numGridCells z_id temp))
                _ Hnd class_cells_inj o1) as [N1 _]
  end.
  rewrite (N1 i) by (apply elem_of_seqZ; lia). cbv beta.
  destruct (write_loop (fun i => chanIndex P bbindex numGridCells z_id (5 + i))
              (fun i _ => softmaxExp expf input P bbindex numGridCells z_id temp i)
              _ Hnd class_cells_inj output) as [E1 _].
  rewrite (E1 i) by (apply elem_of_seqZ; lia). reflexivity.
Qed.

(** X4. [softmaxGPU] on one anchor, when its class cells are distinct
    (a positive number of grid cells, and [numGridCells *
    numOutputClasses] within the range of the [uint] offset): the buffer
    ends with, at the cell of each class, the exponential of that class
    divided by the sum of the exponentials, the sum taken in class
    order; what the buffer held there before plays no part, and every
    other cell of the buffer is left as it was. *)
Theorem softmax_readback (temp : float) (output : Z -> float) :
  (forall i, 0 <= i < numOutputClasses P ->
     softmaxGPU expf input P bbindex numGridCells z_id temp output
       (chanIndex P bbindex numGridCells z_id (5 + i)) =
     div (softmaxExp expf input P bbindex numGridCells z_id temp i)
         (softmaxSum expf input P bbindex numGridCells z_id temp)) /\
  (forall k,
     (forall i, 0 <= i < numOutputClasses P ->
        chanIndex P bbindex numGridCells z_id (5 + i) <> k) ->
     softmaxGPU expf input P bbindex numGridCells z_id temp output k = output k).
Proof.
  pose proof (NoDup_seqZ 0 (numOutputClasses P)) as Hnd.
  split; [intros i Hi; by apply softmaxGPU_class_cell|].
  intros k Hk. rewrite softmaxGPU_loops.
  match goal with |- fold_left _ _ ?o1 _ = _ =>
    destruct (write_loop (fun i => chanIndex P bbindex numGridCells z_id (5 + i))
                (fun _ v => div v (softmaxSum expf input P bbindex numGridCells z_id temp))
                _ Hnd class_cells_inj o1) as [_ N2]
  end.
  destruct (write_loop (fun i => chanIndex P bbindex numGridCells z_id (5 + i))
              (fun i _ => softmaxExp expf input P bbindex numGridCells z_id temp i)
              _ Hnd class_cells_inj output) as [_ E2].
  rewrite N2, E2; [done | |]; intros i Hi%elem_of_seqZ; apply Hk; lia.
Qed.
End Cells.
End Softmax.

Section RegionRecords.
Import F32 Kernel.
Variable expf : float -> float.
Variable input : Z -> float.
Variable P : Params.

Lemma regionProbOf_softmaxProbOf softmax x_id y_id z_id i :
  0 < gridSizeX P * gridSizeY P <= INT_MAX ->
  gridSizeX P * gridSizeY P * numOutputClasses P <= 2 ^ 32 ->
  0 <= i < numOutputClasses P ->
  regionProbOf expf input softmax P x_id y_id z_id i =
  softmaxProbOf expf input P x_id y_id z_id i.
Proof.
  intros Hcells Hspan Hi. unfold regionProbOf, regionClassProb, softmaxProbOf.
  assert (numGridCellsOf P = gridSizeX P * gridSizeY P) as Hn.
  { unfold numGridCellsOf. apply s32_small. unfold INT_MIN, INT_MAX in *. lia. }
  apply softmaxGPU_class_cell; [lia | lia | assumption].
Qed.

(** X5. A launch of [gpuRegionLayer], seen from one surviving thread, on
    a grid whose class cells are distinct ([gridSizeX * gridSizeY]
    positive and within [INT_MAX], times [numOutputClasses] within the
    [uint] range): at the end its slot holds its own record, with the
    score and the class taken from the softmax of its own class logits.
    Neither the order of the threads nor what the softmax buffer held
    changes the record. *)
Theorem region_launch_records before t after st :
  survives expf input P t = true ->
  0 < gridSizeX P * gridSizeY P <= INT_MAX ->
  gridSizeX P * gridSizeY P * numOutputClasses P <= 2 ^ 32 ->
  INT_MIN <= countData (snd st) 0 ->
  countData (snd st) 0 + emitted expf input P (before ++ t :: after) <= INT_MAX ->
  let slot := countData (snd st) 0 + emitted expf input P before in
  let o' := snd (runRegion expf input P (before ++ t :: after) st) in
  let classes :=
    maxLoop (softmaxProbOf expf input P t.1.1 t.1.2 t.2) (numOutputClasses P) in
  let cx := regionCenterX expf input P t.1.1 t.1.2 t.2 in
  let cy := regionCenterY expf input P t.1.1 t.1.2 t.2 in
  let w := regionWidth expf input P t.1.1 t.1.2 t.2 in
  let h := regionHeight expf input P t.1.1 t.1.2 t.2 in
  d_indexes o' slot = slot /\
  d_scores o' slot =
    add (mul (objectnessOf expf input P t.1.1 t.1.2 t.2) (fst classes)) one /\
  d_classes o' slot = snd classes /\
  d_boxes o' (slot * 4 + 0) = cornerLow cx w /\
  d_boxes o' (slot * 4 + 1) = cornerLow cy h /\
  d_boxes o' (slot * 4 + 2) = cornerHigh cx w /\
  d_boxes o' (slot * 4 + 3) = cornerHigh cy h.
Proof.
  intros Ha Hcells Hspan Hlo Hhi. unfold emitted in *. cbv zeta. unfold runRegion.
  destruct (run_keeps
              (fun st t => gpuRegionLayer expf input P t.1.1 t.1.2 t.2 st)
              snd (survives expf input P)
              (fun s t H => f_equal snd (gpuRegionLayer_dead expf input P s t H))
              (fun s t => gpuRegionLayer_live expf input P s t)
              before after t st Ha Hlo Hhi) as (Hc & Hi & Hs & Hk & Hb).
  destruct (survives_true expf input P t Ha) as [Hin Hlt].
  destruct (fold_left (fun st t => gpuRegionLayer expf input P t.1.1 t.1.2 t.2 st)
              before st) as [softmax o1] eqn:Hst.
  rewrite gpuRegionLayer_survivor in Hi, Hs, Hk, Hb by assumption.
  cbn [snd] in Hc. rewrite Hc in Hi, Hs, Hk, Hb.
  rewrite (maxLoop_ext (regionProbOf expf input softmax P t.1.1 t.1.2 t.2)
             (softmaxProbOf expf input P t.1.1 t.1.2 t.2)) in Hi, Hs, Hk, Hb
    by (intros i Hi'; by apply regionProbOf_softmaxProbOf).
  rewrite Hi, Hs, Hk, !Hb by lia.
  rewrite emit_indexes, emit_scores, emit_classes.
  match goal with |- context [emit ?a ?b ?c ?d ?e ?f ?g ?i ?j] =>
    destruct (emit_boxes a b c d e f g i j) as (-> & -> & -> & ->) end.
  repeat split.
Qed.
End RegionRecords.

Section Geometry.
Import F32 Kernel.

(** The ids along one axis are the integers below [threads * (size /
    threads + 1)], each once: the [uint] sum does not wrap. *)
Lemma axisIds_spec size threads :
  1 < threads -> 0 <= size -> threads * (size / threads + 1) <= 2 ^ 32 ->
  NoDup (axisIds size threads) /\
  forall x, x ∈ axisIds size threads <-> 0 <= x < threads * (size / threads + 1).
Proof.
  intros Ht Hs Hfit. unfold axisIds.
  assert (0 <= size / threads) as Hq by (apply Z.div_pos; lia).
  assert (u32 (size / threads + 1) = size / threads + 1) as Hblocks.
  { unfold u32. apply Z.mod_small. nia. }
  rewrite Hblocks.
  assert (forall b t, 0 <= b < size / threads + 1 -> 0 <= t < threads ->
            u32 (b * threads + t) = b * threads + t) as Hid.
  { intros b t Hb Htt. unfold u32. apply Z.mod_small. nia. }
  split.
  - apply NoDup_bind; [| |apply NoDup_seqZ].
    + intros b1 b2 x Hb1%elem_of_seqZ Hb2%elem_of_seqZ H1 H2.
      apply list_elem_of_bind in H1 as (t1 & H1 & Ht1%elem_of_seqZ).
      apply list_elem_of_bind in H2 as (t2 & H2 & Ht2%elem_of_seqZ).
      apply list_elem_of_singleton in H1, H2.
      rewrite Hid in H1, H2 by lia. nia.
    + intros b Hb%elem_of_seqZ. apply NoDup_bind; [| |apply NoDup_seqZ].
      * intros t1 t2 x Ht1%elem_of_seqZ Ht2%elem_of_seqZ
          H1%list_elem_of_singleton H2%list_elem_of_singleton.
        rewrite Hid in H1, H2 by lia. lia.
      * intros t _. apply NoDup_singleton.
  - intros x. split.
    + intros (b & (t & H%list_elem_of_singleton & Htt%elem_of_seqZ)%list_elem_of_bind
                & Hb%elem_of_seqZ)%list_elem_of_bind.
      rewrite Hid in H by lia. nia.
    + intros Hx. apply list_elem_of_bind. exists (x / threads). split.
      * apply list_elem_of_bind. exists (x mod threads). split.
        -- apply list_elem_of_singleton.
           assert (0 <= x mod threads < threads) by (apply Z.mod_pos_bound; lia).
           assert (0 <= x / threads < size / threads + 1).
           { split; [apply Z.div_pos; lia|]. apply Z.div_lt_upper_bound; lia. }
           rewrite Hid by lia. pose proof (Z.div_mod x threads). lia.
        -- apply elem_of_seqZ. pose proof (Z.mod_pos_bound x threads). lia.
      * apply elem_of_seqZ. split; [apply Z.div_pos; lia|].
        simpl. apply Z.div_lt_upper_bound; lia.
Qed.

Lemma axisIds_below size threads x :
  1 < threads -> 0 <= size -> threads * (size / threads + 1) <= 2 ^ 32 ->
  (x ∈ axisIds size threads /\ (size <=? x) = false) <-> 0 <= x < size.
Proof.
  intros Ht Hs Hfit. destruct (axisIds_spec size threads Ht Hs Hfit) as [_ Hin].
  rewrite Hin, Z.leb_gt.
  pose proof (Z.div_mod size threads). pose proof (Z.mod_pos_bound size threads). lia.
Qed.

Lemma uint_blocks size threads :
  0 <= size < 2 ^ 32 -> threads = 16 \/ threads = 4 ->
  threads * (size / threads + 1) <= 2 ^ 32.
Proof.
  intros Hs [-> | ->].
  - assert (size / 16 < 2 ^ 28) by (apply Z.div_lt_upper_bound; lia). lia.
  - assert (size / 4 < 2 ^ 30) by (apply Z.div_lt_upper_bound; lia). lia.
Qed.

Section Grid.
Variable P : Params.
Hypothesis HX : 0 <= gridSizeX P < 2 ^ 32.
Hypothesis HY : 0 <= gridSizeY P < 2 ^ 32.
Hypothesis HB : 0 <= numBBoxes P < 2 ^ 32.

Lemma launchIds_NoDup : NoDup (launchIds P).
Proof.
  destruct (axisIds_spec (gridSizeX P) 16) as [NX _];
    [lia | lia | apply uint_blocks; auto; lia |].
  destruct (axisIds_spec (gridSizeY P) 16) as [NY _];
    [lia | lia | apply uint_blocks; auto; lia |].
  destruct (axisIds_spec (numBBoxes P) 4) as [NZ _];
    [lia | lia | apply uint_blocks; auto; lia |].
  unfold launchIds. apply NoDup_bind; [| |exact NZ].
  - intros z1 z2 t _ _ H1 H2.
    apply list_elem_of_bind in H1 as (y1 & H1 & _).
    apply list_elem_of_bind in H1 as (x1 & H1%list_elem_of_singleton & _).
    apply list_elem_of_bind in H2 as (y2 & H2 & _).
    apply list_elem_of_bind in H2 as (x2 & H2%list_elem_of_singleton & _).
    congruence.
  - intros z _. apply NoDup_bind; [| |exact NY].
    + intros y1 y2 t _ _ H1 H2.
      apply list_elem_of_bind in H1 as (x1 & H1%list_elem_of_singleton & _).
      apply list_elem_of_bind in H2 as (x2 & H2%list_elem_of_singleton & _).
      congruence.
    + intros y _. apply NoDup_bind; [| |exact NX].
      * intros x1 x2 t _ _ H1%list_elem_of_singleton H2%list_elem_of_singleton.
        congruence.
      * intros x _. apply NoDup_singleton.
Qed.

Lemma launchIds_elem x y z :
  (x, y, z) ∈ launchIds P <->
  x ∈ axisIds (gridSizeX P) 16 /\ y ∈ axisIds (gridSizeY P) 16 /\
  z ∈ axisIds (numBBoxes P) 4.
Proof.
  unfold launchIds. split.
  - intros (z' & (y' & (x' & H%list_elem_of_singleton & Hx)%list_elem_of_bind
              & Hy)%list_elem_of_bind & Hz)%list_elem_of_bind.
    by inversion H; subst.
  - intros (Hx & Hy & Hz).
    apply list_elem_of_bind. exists z. split; [|done].
    apply list_elem_of_bind. exists y. split; [|done].
    apply list_elem_of_bind. exists x. split; [|done].
    by apply list_elem_of_singleton.
Qed.

Lemma launchIds_inside x y z :
  ((x, y, z) ∈ launchIds P /\ outOfRange P x y z = false) <->
  (0 <= x < gridSizeX P /\ 0 <= y < gridSizeY P /\ 0 <= z < numBBoxes P).
Proof.
  rewrite launchIds_elem. unfold outOfRange. rewrite !orb_false_iff.
  rewrite <- (axisIds_below (gridSizeX P) 16 x) by (try apply uint_blocks; auto; lia).
  rewrite <- (axisIds_below (gridSizeY P) 16 y) by (try apply uint_blocks; auto; lia).
  rewrite <- (axisIds_below (numBBoxes P) 4 z) by (try apply uint_blocks; auto; lia).
  tauto.
Qed.

Lemma gridCells_NoDup : NoDup (gridCells P).
Proof.
  unfold gridCells. apply NoDup_bind; [| |apply NoDup_seqZ].
  - intros z1 z2 t _ _ H1 H2.
    apply list_elem_of_bind in H1 as (y1 & H1 & _).
    apply list_elem_of_bind in H1 as (x1 & H1%list_elem_of_singleton & _).
    apply list_elem_of_bind in H2 as (y2 & H2 & _).
    apply list_elem_of_bind in H2 as (x2 & H2%list_elem_of_singleton & _).
    congruence.
  - intros z _. apply NoDup_bind; [| |apply NoDup_seqZ].
    + intros y1 y2 t _ _ H1 H2.
      apply list_elem_of_bind in H1 as (x1 & H1%list_elem_of_singleton & _).
      apply list_elem_of_bind in H2 as (x2 & H2%list_elem_of_singleton & _).
      congruence.
    + intros y _. apply NoDup_bind; [| |apply NoDup_seqZ].
      * intros x1 x2 t _ _ H1%list_elem_of_singleton H2%list_elem_of_singleton.
        congruence.
      * intros x _. apply NoDup_singleton.
Qed.

Lemma gridCells_elem x y z :
  (x, y, z) ∈ gridCells P <->
  (0 <= x < gridSizeX P /\ 0 <= y < gridSizeY P /\ 0 <= z < numBBoxes P).
Proof.
  unfold gridCells. split.
  - intros (z' & (y' & (x' & H%list_elem_of_singleton & Hx%elem_of_seqZ)%list_elem_of_bind
              & Hy%elem_of_seqZ)%list_elem_of_bind & Hz%elem_of_seqZ)%list_elem_of_bind.
    inversion H; subst. lia.
  - intros (Hx & Hy & Hz).
    apply list_elem_of_bind. exists z. split; [|apply elem_of_seqZ; lia].
    apply list_elem_of_bind. exists y. split; [|apply elem_of_seqZ; lia].
    apply list_elem_of_bind. exists x. split; [|apply elem_of_seqZ; lia].
    by apply list_elem_of_singleton.
Qed.
End Grid.

(** X6. The launch geometry of [cudaYoloLayer] and [cudaRegionLayer]
    (blocks of 16 x 16 x 4 threads, [size / 16 + 1] or [size / 4 + 1]
    blocks an axis), for sizes in the [uint] range: no two threads of a
    launch have the same coordinates, and the threads that pass the range
    guard of the kernels are the cells of the grid, each anchor of each
    cell exactly once. *)
Theorem launch_covers_grid (P : Params) :
  0 <= gridSizeX P < 2 ^ 32 -> 0 <= gridSizeY P < 2 ^ 32 -> 0 <= numBBoxes P < 2 ^ 32 ->
  NoDup (launchIds P) /\
  forall x y z,
    ((x, y, z) ∈ launchIds P /\ outOfRange P x y z = false) <->
    (0 <= x < gridSizeX P /\ 0 <= y < gridSizeY P /\ 0 <= z < numBBoxes P).
Proof.
  intros HX HY HB. split; [by apply launchIds_NoDup|].
  intros x y z. by apply launchIds_inside.
Qed.
End Geometry.

Section Counting.
Import F32 Kernel.

Lemma filter_length_perm {A} (f : A -> bool) (l k : list A) :
  l ≡ₚ k -> length (List.filter f l) = length (List.filter f k).
Proof.
  induction 1 as [|x l k _ IH|x y l|l k m _ IH1 _ IH2]; simpl.
  - reflexivity.
  - destruct (f x); simpl; congruence.
  - destruct (f x), (f y); reflexivity.
  - congruence.
Qed.

Lemma filter_andb {A} (f g : A -> bool) (l : list A) :
  List.filter (fun a => f a && g a) l = List.filter g (List.filter f l).
Proof.
  induction l as [|a l IH]; simpl; [done|].
  destruct (f a); simpl; [destruct (g a)|]; by rewrite IH.
Qed.

Lemma elem_of_filter_bool {A} (f : A -> bool) (l : list A) (a : A) :
  a ∈ List.filter f l <-> a ∈ l /\ f a = true.
Proof. rewrite !list_elem_of_In. apply filter_In. Qed.

Lemma launch_inside_cells (P : Params) :
  0 <= gridSizeX P < 2 ^ 32 -> 0 <= gridSizeY P < 2 ^ 32 -> 0 <= numBBoxes P < 2 ^ 32 ->
  List.filter (fun t => negb (outOfRange P t.1.1 t.1.2 t.2)) (launchIds P) ≡ₚ gridCells P.
Proof.
  intros HX HY HB. apply NoDup_Permutation.
  - apply NoDup_ListNoDup, List.NoDup_filter, NoDup_ListNoDup. by apply launchIds_NoDup.
  - apply gridCells_NoDup.
  - intros [[x y] z]. rewrite elem_of_filter_bool, gridCells_elem, negb_true_iff.
    by apply launchIds_inside.
Qed.

(** X7. One launch over the whole grid, its threads in any order, for
    sizes in the [uint] range: the counter of either kernel advances by
    the number of anchors of grid cells whose objectness is not below the
    threshold. *)
Theorem launch_counts_cells expf input P scaleXY mask schedule o st :
  schedule ≡ₚ launchIds P ->
  0 <= gridSizeX P < 2 ^ 32 -> 0 <= gridSizeY P < 2 ^ 32 -> 0 <= numBBoxes P < 2 ^ 32 ->
  let kept :=
    List.filter
      (fun t => negb (lt (objectnessOf expf input P t.1.1 t.1.2 t.2) (scoreThreshold P)))
      (gridCells P) in
  (INT_MIN <= countData o 0 ->
   countData o 0 + Z.of_nat (length kept) <= INT_MAX ->
   countData (runYolo expf input P scaleXY mask schedule o) 0 =
     countData o 0 + Z.of_nat (length kept)) /\
  (INT_MIN <= countData (snd st) 0 ->
   countData (snd st) 0 + Z.of_nat (length kept) <= INT_MAX ->
   countData (snd (runRegion expf input P schedule st)) 0 =
     countData (snd st) 0 + Z.of_nat (length kept)).
Proof.
  intros Hperm HX HY HB kept.
  assert (emitted expf input P schedule = Z.of_nat (length kept)) as He.
  { unfold emitted, kept. f_equal.
    rewrite (filter_length_perm _ _ _ Hperm). unfold survives.
    rewrite (filter_andb (fun t => negb (outOfRange P t.1.1 t.1.2 t.2))).
    apply filter_length_perm. by apply launch_inside_cells. }
  rewrite <- He. split; intros Hlo Hhi.
  - by destruct (runYolo_slots expf input P scaleXY mask schedule o Hlo Hhi) as [H _].
  - by destruct (runRegion_slots expf input P schedule st Hlo Hhi) as [H _].
Qed.

(** X8. The offsets at which a thread in range reads the input, for a
    tensor of at most [2 ^ 32] cells: channel [k] of anchor [z_id] at cell
    ([x_id], [y_id]) is cell [x_id] of row [y_id] of plane
    [z_id * (5 + numOutputClasses) + k], and lies inside the
    [gridSizeX * gridSizeY * numBBoxes * (5 + numOutputClasses)] cells of
    the tensor; neither the [int] nor the [uint] arithmetic wraps. *)
Theorem tensor_layout (P : Params) (x_id y_id z_id k : Z) :
  0 <= x_id < gridSizeX P -> 0 <= y_id < gridSizeY P -> 0 <= z_id < numBBoxes P ->
  0 <= numOutputClasses P -> 0 <= k < 5 + numOutputClasses P ->
  gridSizeX P * gridSizeY P * (numBBoxes P * (5 + numOutputClasses P)) <= 2 ^ 32 ->
  chanIndex P (bbindexOf P x_id y_id) (numGridCellsOf P) z_id k =
    ((z_id * (5 + numOutputClasses P) + k) * gridSizeY P + y_id) * gridSizeX P + x_id /\
  0 <= chanIndex P (bbindexOf P x_id y_id) (numGridCellsOf P) z_id k <
    gridSizeX P * gridSizeY P * (numBBoxes P * (5 + numOutputClasses P)).
Proof.
  intros Hx Hy Hz Hc Hk Hfit.
  set (gx := gridSizeX P) in *. set (gy := gridSizeY P) in *.
  set (nb := numBBoxes P) in *. set (nc := numOutputClasses P) in *.
  set (ch := z_id * (5 + nc) + k).
  assert (0 <= ch < nb * (5 + nc)) as Hch by (unfold ch; nia).
  assert (0 < gx * gy) as Hpos by nia.
  assert (0 <= y_id * gx + x_id < gx * gy) as Hbb by nia.
  assert (gx * gy * 5 <= gx * gy * (nb * (5 + nc))) as H5.
  { apply Z.mul_le_mono_nonneg_l; nia. }
  assert (gx * gy * ch + gx * gy <= gx * gy * (nb * (5 + nc))) as Hlast by nia.
  assert (numGridCellsOf P = gx * gy) as ->.
  { unfold numGridCellsOf. apply s32_small. unfold INT_MIN, INT_MAX. fold gx gy. lia. }
  assert (bbindexOf P x_id y_id = y_id * gx + x_id) as ->.
  { unfold bbindexOf. apply s32_small. unfold INT_MIN, INT_MAX. fold gx. lia. }
  unfold chanIndex. fold nc. fold ch.
  assert (u32 (y_id * gx + x_id + gx * gy * ch) = y_id * gx + x_id + gx * gy * ch) as ->.
  { unfold u32. apply Z.mod_small. nia. }
  split; [ring | nia].
Qed.
End Counting.


Section Batches.
Import F32 Kernel.

Lemma insert_local {A} (f g : Z -> A) (a k : Z) (v : A) :
  f k = g k -> <[a := v]> f k = <[a := v]> g k.
Proof.
  intros H. destruct (decide (k = a)) as [->|Hne].
  - by rewrite !fn_lookup_insert.
  - by rewrite !fn_lookup_insert_ne by congruence.
Qed.

Lemma emit_local o1 o2 c ob mp mi x y w h :
  (forall k, d_indexes o1 k = d_indexes o2 k ->
     d_indexes (emit o1 c ob mp mi x y w h) k = d_indexes (emit o2 c ob mp mi x y w h) k) /\
  (forall k, d_scores o1 k = d_scores o2 k ->
     d_scores (emit o1 c ob mp mi x y w h) k = d_scores (emit o2 c ob mp mi x y w h) k) /\
  (forall k, d_classes o1 k = d_classes o2 k ->
     d_classes (emit o1 c ob mp mi x y w h) k = d_classes (emit o2 c ob mp mi x y w h) k) /\
  (forall j, d_boxes o1 j = d_boxes o2 j ->
     d_boxes (emit o1 c ob mp mi x y w h) j = d_boxes (emit o2 c ob mp mi x y w h) j).
Proof.
  repeat split; intros k Hk; simpl; [by apply insert_local.. |].
  by do 4 apply insert_local.
Qed.

Lemma agree_on_emit o1 o2 r1 r2 c ob mp mi x y w h :
  agree_on (emit o1 c ob mp mi x y w h) (emit o2 c ob mp mi x y w h) r1 r2 ->
  agree_on o1 o2 r1 r2.
Proof.
  intros (I1 & I2 & I3 & I4 & I5).
  destruct (emit_local o1 o2 c ob mp mi x y w h) as (E2 & E3 & E4 & E5).
  repeat split; auto.
Qed.

Section Local.
Variable expf : float -> float.
Variable input : Z -> float.
Variable P : Params.

Lemma runYolo_local scaleXY mask schedule : forall o1 o2,
  countData o1 0 = countData o2 0 ->
  agree_on o1 o2 (runYolo expf input P scaleXY mask schedule o1)
    (runYolo expf input P scaleXY mask schedule o2).
Proof.
  unfold runYolo. induction schedule as [|t schedule IH]; intros o1 o2 Hc.
  - simpl. by repeat split.
  - change (fold_left ?f (t :: schedule) ?o) with (fold_left f schedule (f o t)).
    cbv beta. destruct (survives expf input P t) eqn:Ha.
    + destruct (survives_true expf input P t Ha) as [Hin Hlt].
      rewrite !gpuYoloLayer_survivor by assumption. rewrite Hc.
      eapply agree_on_emit. apply IH. reflexivity.
    + rewrite !gpuYoloLayer_dead by assumption. by apply IH.
Qed.

Hypothesis Hcells : 0 < gridSizeX P * gridSizeY P <= INT_MAX.
Hypothesis Hspan : gridSizeX P * gridSizeY P * numOutputClasses P <= 2 ^ 32.

Lemma runRegion_local schedule : forall st1 st2,
  countData (snd st1) 0 = countData (snd st2) 0 ->
  agree_on (snd st1) (snd st2) (snd (runRegion expf input P schedule st1))
    (snd (runRegion expf input P schedule st2)).
Proof.
  unfold runRegion. induction schedule as [|t schedule IH]; intros st1 st2 Hc.
  - simpl. by repeat split.
  - change (fold_left ?f (t :: schedule) ?o) with (fold_left f schedule (f o t)).
    cbv beta. destruct (survives expf input P t) eqn:Ha.
    + destruct (survives_true expf input P t Ha) as [Hin Hlt].
      destruct st1 as [s1 o1], st2 as [s2 o2]. cbn [snd] in *.
      pose proof (gpuRegionLayer_survivor expf input P _ _ _ Hin s1 o1 Hlt) as G1.
      pose proof (gpuRegionLayer_survivor expf input P _ _ _ Hin s2 o2 Hlt) as G2.
      rewrite (maxLoop_ext (regionProbOf expf input s1 P t.1.1 t.1.2 t.2)
                 (softmaxProbOf expf input P t.1.1 t.1.2 t.2)) in G1
        by (intros i Hi; by apply regionProbOf_softmaxProbOf).
      rewrite (maxLoop_ext (regionProbOf expf input s2 P t.1.1 t.1.2 t.2)
                 (softmaxProbOf expf input P t.1.1 t.1.2 t.2)) in G2
        by (intros i Hi; by apply regionProbOf_softmaxProbOf).
      rewrite Hc in G1.
      specialize (IH (gpuRegionLayer expf input P t.1.1 t.1.2 t.2 (s1, o1))
                     (gpuRegionLayer expf input P t.1.1 t.1.2 t.2 (s2, o2))).
      rewrite G1, G2 in IH. eapply agree_on_emit. apply IH. reflexivity.
    + rewrite !gpuRegionLayer_dead by assumption. by apply IH.
Qed.
End Local.

(** *** The batch loop over flat arrays *)

Section Flat.
Variables batchSize outputSize : Z.
Hypothesis Hbatch : 0 <= batchSize <= 2 ^ 30.
Hypothesis Hsize : 0 <= outputSize.
Hypothesis Hflat : 4 * batchSize * outputSize <= 2 ^ 64.

Lemma flat_offset b : 0 <= b < batchSize -> b * outputSize mod 2 ^ 64 = b * outputSize.
Proof. intros Hb. apply Z.mod_small. nia. Qed.

Lemma flat_offset4 b :
  0 <= b < batchSize -> u32 (b * 4) * outputSize mod 2 ^ 64 = 4 * (b * outputSize).
Proof.
  intros Hb. unfold u32. rewrite (Z.mod_small (b * 4)) by lia.
  rewrite Z.mod_small by nia. ring.
Qed.

(** The arrays behind the original pointers, in terms of what the
    launch left behind the moved ones. *)
Lemma unbatch_cells b r :
  0 <= b < batchSize ->
  (forall j, d_indexes (unbatchOut b outputSize r) j = d_indexes r (j - b * outputSize) /\
             d_scores (unbatchOut b outputSize r) j = d_scores r (j - b * outputSize) /\
             d_classes (unbatchOut b outputSize r) j = d_classes r (j - b * outputSize)) /\
  (forall j, d_boxes (unbatchOut b outputSize r) j = d_boxes r (j - 4 * (b * outputSize))) /\
  (forall j, countData (unbatchOut b outputSize r) j = countData r (j - b)).
Proof.
  intros Hb. unfold unbatchOut, onto. cbn [d_indexes d_scores d_classes d_boxes countData].
  rewrite flat_offset, flat_offset4 by assumption. done.
Qed.

Lemma batch_cells b f :
  0 <= b < batchSize ->
  (forall k, d_indexes (batchOut b outputSize f) k = d_indexes f (b * outputSize + k) /\
             d_scores (batchOut b outputSize f) k = d_scores f (b * outputSize + k) /\
             d_classes (batchOut b outputSize f) k = d_classes f (b * outputSize + k)) /\
  (forall j, d_boxes (batchOut b outputSize f) j = d_boxes f (4 * (b * outputSize) + j)) /\
  (forall j, countData (batchOut b outputSize f) j = countData f (b + j)).
Proof.
  intros Hb. unfold batchOut, offset. cbn [d_indexes d_scores d_classes d_boxes countData].
  rewrite flat_offset, flat_offset4 by assumption. done.
Qed.

Section Loop.
Context {S : Type}.
Variable out : S -> Out.
Variable step : S -> Z -> S.
Variable alone : Z -> Out.
Variable s0 : S.

(** What one pass of the loop does to the arrays: nothing outside
    the part of its batch element, and inside it what the launch
    alone does wherever the part is still as at the start. *)
Hypothesis Hstep : forall f b,
  0 <= b < batchSize ->
  countData (out f) b = countData (out s0) b ->
  (forall j, ~ (b * outputSize <= j < (b + 1) * outputSize) ->
     d_indexes (out (step f b)) j = d_indexes (out f) j /\
     d_scores (out (step f b)) j = d_scores (out f) j /\
     d_classes (out (step f b)) j = d_classes (out f) j) /\
  (forall j, ~ (4 * (b * outputSize) <= j < 4 * ((b + 1) * outputSize)) ->
     d_boxes (out (step f b)) j = d_boxes (out f) j) /\
  (forall j, j <> b -> countData (out (step f b)) j = countData (out f) j) /\
  countData (out (step f b)) b = countData (alone b) 0 /\
  (forall k,
     (d_indexes (out f) (b * outputSize + k) = d_indexes (out s0) (b * outputSize + k) ->
      d_indexes (out (step f b)) (b * outputSize + k) = d_indexes (alone b) k) /\
     (d_scores (out f) (b * outputSize + k) = d_scores (out s0) (b * outputSize + k) ->
      d_scores (out (step f b)) (b * outputSize + k) = d_scores (alone b) k) /\
     (d_classes (out f) (b * outputSize + k) = d_classes (out s0) (b * outputSize + k) ->
      d_classes (out (step f b)) (b * outputSize + k) = d_classes (alone b) k)) /\
  (forall j,
     d_boxes (out f) (4 * (b * outputSize) + j) =
       d_boxes (out s0) (4 * (b * outputSize) + j) ->
     d_boxes (out (step f b)) (4 * (b * outputSize) + j) = d_boxes (alone b) j).

(** After the launches of the first [n] batch elements. *)
Lemma batches_upto (n : nat) :
  Z.of_nat n <= batchSize ->
  let f := out (fold_left step (seqZ 0 (Z.of_nat n)) s0) in
  (forall b, 0 <= b < Z.of_nat n ->
     countData f b = countData (alone b) 0 /\
     (forall k, 0 <= k < outputSize ->
        d_indexes f (b * outputSize + k) = d_indexes (alone b) k /\
        d_scores f (b * outputSize + k) = d_scores (alone b) k /\
        d_classes f (b * outputSize + k) = d_classes (alone b) k) /\
     (forall j, 0 <= j < 4 * outputSize ->
        d_boxes f (b * 4 * outputSize + j) = d_boxes (alone b) j)) /\
  (forall j, ~ (0 <= j < Z.of_nat n * outputSize) ->
     d_indexes f j = d_indexes (out s0) j /\ d_scores f j = d_scores (out s0) j /\
     d_classes f j = d_classes (out s0) j) /\
  (forall j, ~ (0 <= j < 4 * (Z.of_nat n * outputSize)) ->
     d_boxes f j = d_boxes (out s0) j) /\
  (forall j, ~ (0 <= j < Z.of_nat n) -> countData f j = countData (out s0) j).
Proof.
  induction n as [|n IH]; intros Hn.
  - simpl. split; [intros b Hb; lia | auto].
  - cbv zeta. rewrite seqZ_S, fold_left_app. simpl fold_left. rewrite Z.add_0_l.
    destruct IH as (I1 & I2 & I3 & I4); [lia|].
    set (f := fold_left step (seqZ 0 (Z.of_nat n)) s0) in *.
    set (m := Z.of_nat n) in *.
    assert (0 <= m < batchSize) as Hm by lia.
    assert (countData (out f) m = countData (out s0) m) as Hcm by (apply I4; lia).
    destruct (Hstep f m Hm Hcm) as (R1 & R2 & R3 & O1 & O2 & O3).
    rewrite Nat2Z.inj_succ. fold m.
    split; [|split; [|split]].
    + intros b Hb. destruct (decide (b = m)) as [->|Hne].
      * split; [exact O1|]. split.
        -- intros k Hk. destruct (O2 k) as (A1 & A2 & A3).
           destruct (I2 (m * outputSize + k)) as (B1 & B2 & B3); [nia|]. auto.
        -- intros j Hj.
           replace (m * 4 * outputSize + j) with (4 * (m * outputSize) + j) by ring.
           apply O3, I3. nia.
      * destruct (I1 b) as (J1 & J2 & J3); [lia|].
        split; [|split].
        -- rewrite R3 by assumption. exact J1.
        -- intros k Hk. destruct (R1 (b * outputSize + k)) as (-> & -> & ->); [nia|].
           by apply J2.
        -- intros j Hj. rewrite R2 by nia. by apply J3.
    + intros j Hj. destruct (R1 j) as (-> & -> & ->); [nia|]. apply I2. nia.
    + intros j Hj. rewrite R2 by nia. apply I3. nia.
    + intros j Hj. rewrite R3 by lia. apply I4. lia.
Qed.
End Loop.

(** One pass, from what the launch does behind the moved pointers. *)
Lemma flat_pass (fo o r a : Out) (b n : Z) :
  0 <= b < batchSize ->
  countData fo b = countData o b ->
  0 <= countData o b -> countData o b + n <= outputSize ->
  (forall k, k <> 0 -> countData r k = countData (batchOut b outputSize fo) k) ->
  (forall k, ~ (countData o b <= k < countData o b + n) ->
     d_indexes r k = d_indexes (batchOut b outputSize fo) k /\
     d_scores r k = d_scores (batchOut b outputSize fo) k /\
     d_classes r k = d_classes (batchOut b outputSize fo) k) ->
  (forall j, ~ (4 * countData o b <= j < 4 * (countData o b + n)) ->
     d_boxes r j = d_boxes (batchOut b outputSize fo) j) ->
  agree_on (batchOut b outputSize fo) (batchOut b outputSize o) r a ->
  (forall j, ~ (b * outputSize <= j < (b + 1) * outputSize) ->
     d_indexes (unbatchOut b outputSize r) j = d_indexes fo j /\
     d_scores (unbatchOut b outputSize r) j = d_scores fo j /\
     d_classes (unbatchOut b outputSize r) j = d_classes fo j) /\
  (forall j, ~ (4 * (b * outputSize) <= j < 4 * ((b + 1) * outputSize)) ->
     d_boxes (unbatchOut b outputSize r) j = d_boxes fo j) /\
  (forall j, j <> b -> countData (unbatchOut b outputSize r) j = countData fo j) /\
  countData (unbatchOut b outputSize r) b = countData a 0 /\
  (forall k,
     (d_indexes fo (b * outputSize + k) = d_indexes o (b * outputSize + k) ->
      d_indexes (unbatchOut b outputSize r) (b * outputSize + k) = d_indexes a k) /\
     (d_scores fo (b * outputSize + k) = d_scores o (b * outputSize + k) ->
      d_scores (unbatchOut b outputSize r) (b * outputSize + k) = d_scores a k) /\
     (d_classes fo (b * outputSize + k) = d_classes o (b * outputSize + k) ->
      d_classes (unbatchOut b outputSize r) (b * outputSize + k) = d_classes a k)) /\
  (forall j,
     d_boxes fo (4 * (b * outputSize) + j) = d_boxes o (4 * (b * outputSize) + j) ->
     d_boxes (unbatchOut b outputSize r) (4 * (b * outputSize) + j) = d_boxes a j).
Proof.
  intros Hb Hc Hlo Hhi S2 S4 S5 (L1 & L2 & L3 & L4 & L5).
  destruct (unbatch_cells b r Hb) as (V1 & V2 & V3).
  destruct (batch_cells b fo Hb) as (W1 & W2 & W3).
  destruct (batch_cells b o Hb) as (U1 & U2 & U3).
  split; [|split; [|split; [|split; [|split]]]].
  - intros j Hj. destruct (V1 j) as (-> & -> & ->).
    destruct (S4 (j - b * outputSize)) as (-> & -> & ->); [lia|].
    destruct (W1 (j - b * outputSize)) as (-> & -> & ->).
    by replace (b * outputSize + (j - b * outputSize)) with j by lia.
  - intros j Hj. rewrite V2, S5, W2 by lia.
    by replace (4 * (b * outputSize) + (j - 4 * (b * outputSize))) with j by lia.
  - intros j Hj. rewrite V3, S2, W3 by lia. by replace (b + (j - b)) with j by lia.
  - rewrite V3, Z.sub_diag. exact L1.
  - intros k. destruct (V1 (b * outputSize + k)) as (-> & -> & ->).
    replace (b * outputSize + k - b * outputSize) with k by lia.
    destruct (W1 k) as (Wi & Ws & Wc). destruct (U1 k) as (Ui & Us & Uc).
    split; [|split]; intros E; [apply L2 | apply L3 | apply L4]; congruence.
  - intros j E. rewrite V2.
    replace (4 * (b * outputSize) + j - 4 * (b * outputSize)) with j by lia.
    apply L5. rewrite W2, U2. exact E.
Qed.
End Flat.

Section Launchers.
Variable expf : float -> float.
Variable input : Z -> float.
Variables batchSize inputSize outputSize : Z.
Variable P : Params.
Variable schedule : Z -> list (Z * Z * Z).

Hypothesis Hbatch : 0 <= batchSize <= 2 ^ 30.
Hypothesis Hsize : 0 <= outputSize <= INT_MAX.
Hypothesis Hflat : 4 * batchSize * outputSize <= 2 ^ 64.

(** X9. [cudaYoloLayer] over a batch, when the detections of every
    batch element fit in its [outputSize] slots (and the flat offsets
    fit the 64-bit pointer arithmetic): batch elements do not
    interfere. What is found at the end in the part of each array that
    belongs to batch element [b] (the counter at [b], the slots from
    [b * outputSize], the box cells from [b * 4 * outputSize]) is what
    the launch for [b] alone leaves there. The kernel itself does not
    compare the slot with [outputSize]. *)
Theorem yolo_batches_independent scaleXY mask (o : Out) (b : Z) :
  (forall b, 0 <= b < batchSize ->
     0 <= countData o b /\
     countData o b +
       emitted expf (offset (b * inputSize mod 2 ^ 64) input) P (schedule b)
       <= outputSize) ->
  0 <= b < batchSize ->
  let all :=
    cudaYoloLayer expf input batchSize inputSize outputSize P scaleXY mask schedule o in
  let alone := launchYolo expf input inputSize outputSize P scaleXY mask schedule b o in
  countData all b = countData alone 0 /\
  (forall k, 0 <= k < outputSize ->
     d_indexes all (b * outputSize + k) = d_indexes alone k /\
     d_scores all (b * outputSize + k) = d_scores alone k /\
     d_classes all (b * outputSize + k) = d_classes alone k) /\
  (forall j, 0 <= j < 4 * outputSize ->
     d_boxes all (b * 4 * outputSize + j) = d_boxes alone j).
Proof.
  intros Hfits Hb. cbv zeta. unfold cudaYoloLayer.
  destruct (batches_upto batchSize outputSize Hbatch (proj1 Hsize) (fun o => o)
              (fun o batch =>
                 unbatchOut batch outputSize
                   (launchYolo expf input inputSize outputSize P scaleXY mask schedule
                      batch o))
              (fun b => launchYolo expf input inputSize outputSize P scaleXY mask
                          schedule b o)
              o) with (n := Z.to_nat batchSize) as (H & _); [| lia |].
  - intros f m Hm Hcm. destruct (Hfits m Hm) as (F1 & F2).
    assert (countData (batchOut m outputSize f) 0 = countData o m) as Hc0.
    { simpl. unfold offset. rewrite Z.add_0_r. exact Hcm. }
    destruct (runYolo_slots expf (offset (m * inputSize mod 2 ^ 64) input) P
                scaleXY mask (schedule m) (batchOut m outputSize f))
      as (_ & S2 & _ & S4 & S5); rewrite ?Hc0; [unfold INT_MIN; lia | lia |].
    rewrite Hc0 in S4, S5.
    apply (flat_pass batchSize outputSize Hbatch (proj1 Hsize) Hflat) with
      (n := emitted expf (offset (m * inputSize mod 2 ^ 64) input) P (schedule m));
      try assumption.
    apply runYolo_local. simpl. unfold offset. by rewrite Z.add_0_r.
  - rewrite Z2Nat.id in H by lia. by apply H.
Qed.

(** X10. [cudaRegionLayer] over a batch, under the same conditions
    and on a grid whose class cells are distinct: batch elements do not
    interfere, and the softmax buffer plays no part in what a batch
    element finds in its part of the output arrays. *)
Theorem region_batches_independent (st : (Z -> float) * Out) (b : Z) :
  0 < gridSizeX P * gridSizeY P <= INT_MAX ->
  gridSizeX P * gridSizeY P * numOutputClasses P <= 2 ^ 32 ->
  (forall b, 0 <= b < batchSize ->
     0 <= countData (snd st) b /\
     countData (snd st) b +
       emitted expf (offset (b * inputSize mod 2 ^ 64) input) P (schedule b)
       <= outputSize) ->
  0 <= b < batchSize ->
  let all := snd (cudaRegionLayer expf input batchSize inputSize outputSize P schedule st) in
  let alone := snd (launchRegion expf input inputSize outputSize P schedule b st) in
  countData all b = countData alone 0 /\
  (forall k, 0 <= k < outputSize ->
     d_indexes all (b * outputSize + k) = d_indexes alone k /\
     d_scores all (b * outputSize + k) = d_scores alone k /\
     d_classes all (b * outputSize + k) = d_classes alone k) /\
  (forall j, 0 <= j < 4 * outputSize ->
     d_boxes all (b * 4 * outputSize + j) = d_boxes alone j).
Proof.
  intros Hcells Hspan Hfits Hb. cbv zeta. unfold cudaRegionLayer.
  destruct (batches_upto batchSize outputSize Hbatch (proj1 Hsize) snd
              (fun st batch =>
                 let st' := launchRegion expf input inputSize outputSize P schedule
                              batch st in
                 (onto (batch * inputSize mod 2 ^ 64) (fst st'),
                  unbatchOut batch outputSize (snd st')))
              (fun b => snd (launchRegion expf input inputSize outputSize P schedule b st))
              st) with (n := Z.to_nat batchSize) as (H & _); [| lia |].
  - intros f m Hm Hcm. destruct (Hfits m Hm) as (F1 & F2).
    cbv zeta. cbn [snd].
    assert (countData (batchOut m outputSize (snd f)) 0 = countData (snd st) m) as Hc0.
    { simpl. unfold offset. rewrite Z.add_0_r. exact Hcm. }
    unfold launchRegion.
    destruct (runRegion_slots expf (offset (m * inputSize mod 2 ^ 64) input) P
                (schedule m)
                (offset (m * inputSize mod 2 ^ 64) (fst f), batchOut m outputSize (snd f)))
      as (_ & S2 & _ & S4 & S5); cbn [snd]; rewrite ?Hc0; [unfold INT_MIN; lia | lia |].
    cbn [snd] in S2, S4, S5. rewrite Hc0 in S4, S5.
    apply (flat_pass batchSize outputSize Hbatch (proj1 Hsize) Hflat) with
      (n := emitted expf (offset (m * inputSize mod 2 ^ 64) input) P (schedule m));
      try assumption.
    apply (runRegion_local expf (offset (m * inputSize mod 2 ^ 64) input) P Hcells Hspan
             (schedule m)
             (offset (m * inputSize mod 2 ^ 64) (fst f), batchOut m outputSize (snd f))
             (offset (m * inputSize mod 2 ^ 64) (fst st), batchOut m outputSize (snd st))).
    simpl. unfold offset. by rewrite Z.add_0_r.
  - rewrite Z2Nat.id in H by lia. by apply H.
Qed.
End Launchers.
End Batches.

(** *** The launches on the 2 x 2 scenario *)

Section LaunchScenarios.
Import F32 Kernel.

(** The whole launch of 1024 threads on the 2 x 2 scenario raises the
    counter from 0 to 1. *)
Lemma yolo_launch_slots_witness :
  let P := Scenario.scale Scenario.quarter 2 2 1 in
  countData
    (runYolo Expf.expf32 Scenario.oneObject P one Scenario.mask0 (launchIds P)
       Scenario.blank) 0 = 1.
Proof.
  cbv zeta.
  destruct (yolo_launch_slots Expf.expf32 Scenario.oneObject
              (Scenario.scale Scenario.quarter 2 2 1) one Scenario.mask0
              (launchIds (Scenario.scale Scenario.quarter 2 2 1)) Scenario.blank)
    as (H & _); [vm_compute; discriminate | vm_compute; discriminate |].
  rewrite H. vm_compute. reflexivity.
Defined.

(** Cell (0,0) scheduled second of four: its record is in slot 0. *)
Lemma yolo_launch_records_witness :
  let P := Scenario.scale Scenario.quarter 2 2 1 in
  let o' :=
    runYolo Expf.expf32 Scenario.oneObject P one Scenario.mask0
      ([(1, 0, 0)] ++ (0, 0, 0) :: [(0, 1, 0); (1, 1, 0)]) Scenario.blank in
  d_indexes o' 0 = 0 /\ d_classes o' 0 = 0 /\
  d_scores o' 0 =
    add (mul (sigmoidGPU Expf.expf32 (of_int 10)) (sigmoidGPU Expf.expf32 (of_int 2))) one.
Proof.
  cbv zeta.
  destruct (yolo_launch_records Expf.expf32 Scenario.oneObject
              (Scenario.scale Scenario.quarter 2 2 1) one Scenario.mask0
              [(1, 0, 0)] (0, 0, 0) [(0, 1, 0); (1, 1, 0)] Scenario.blank)
    as (Hi & Hs & Hc & _);
    [vm_compute; reflexivity | vm_compute; discriminate | vm_compute; discriminate |].
  assert (countData Scenario.blank 0 +
          emitted Expf.expf32 Scenario.oneObject (Scenario.scale Scenario.quarter 2 2 1)
            [(1, 0, 0)] = 0) as Hslot by (vm_compute; reflexivity).
  rewrite Hslot in Hi, Hs, Hc. rewrite Hi, Hs, Hc.
  split; [reflexivity | split; vm_compute; reflexivity].
Defined.

Lemma region_launch_slots_witness :
  let P := Scenario.scale Scenario.quarter 2 2 1 in
  countData
    (snd (runRegion Expf.expf32 Scenario.oneObject P (launchIds P)
            (fun _ => zero, Scenario.blank))) 0 = 1.
Proof.
  cbv zeta.
  destruct (region_launch_slots Expf.expf32 Scenario.oneObject
              (Scenario.scale Scenario.quarter 2 2 1)
              (launchIds (Scenario.scale Scenario.quarter 2 2 1))
              (fun _ => zero, Scenario.blank))
    as (H & _); [vm_compute; discriminate | vm_compute; discriminate |].
  rewrite H. vm_compute. reflexivity.
Defined.

(** Two classes in one cell: the buffer cell of class 0. *)
Lemma softmax_readback_witness :
  let P := Scenario.scale Scenario.quarter 1 1 2 in
  softmaxGPU Expf.expf32 Scenario.twoClasses P 0 1 0 one (fun _ => of_int 7)
    (chanIndex P 0 1 0 (5 + 0)) =
  div (softmaxExp Expf.expf32 Scenario.twoClasses P 0 1 0 one 0)
      (softmaxSum Expf.expf32 Scenario.twoClasses P 0 1 0 one).
Proof.
  cbv zeta.
  destruct (softmax_readback Expf.expf32 Scenario.twoClasses
              (Scenario.scale Scenario.quarter 1 1 2) 0 1 0)
    with (temp := one) (output := fun _ : Z => of_int 7) as [H _];
    [lia | vm_compute; discriminate |].
  apply H. simpl. lia.
Defined.

(** One class: the softmax probability is [e / (0 + e)]. *)
Lemma region_launch_records_witness :
  let P := Scenario.scale Scenario.quarter 2 2 1 in
  let o' :=
    snd (runRegion Expf.expf32 Scenario.oneObject P
           ([(1, 0, 0)] ++ (0, 0, 0) :: [(0, 1, 0); (1, 1, 0)])
           (fun _ => zero, Scenario.blank)) in
  d_indexes o' 0 = 0 /\ d_classes o' 0 = 0.
Proof.
  cbv zeta.
  destruct (region_launch_records Expf.expf32 Scenario.oneObject
              (Scenario.scale Scenario.quarter 2 2 1)
              [(1, 0, 0)] (0, 0, 0) [(0, 1, 0); (1, 1, 0)] (fun _ => zero, Scenario.blank))
    as (Hi & _ & Hc & _);
    [vm_compute; reflexivity | vm_compute; split; [reflexivity | discriminate]
    | vm_compute; discriminate | vm_compute; discriminate | vm_compute; discriminate |].
  assert (countData (snd (fun _ : Z => zero, Scenario.blank)) 0 +
          emitted Expf.expf32 Scenario.oneObject (Scenario.scale Scenario.quarter 2 2 1)
            [(1, 0, 0)] = 0) as Hslot by (vm_compute; reflexivity).
  rewrite Hslot in Hi, Hc. rewrite Hi, Hc.
  split; [reflexivity | vm_compute; reflexivity].
Defined.

Lemma launch_covers_grid_witness :
  let P := Scenario.scale Scenario.quarter 2 2 1 in
  NoDup (launchIds P) /\ (1, 1, 0) ∈ launchIds P /\ (2, 0, 0) ∈ launchIds P.
Proof.
  cbv zeta.
  destruct (launch_covers_grid (Scenario.scale Scenario.quarter 2 2 1)) as [Hn Hc];
    [simpl; lia | simpl; lia | simpl; lia |].
  split; [exact Hn|]. split.
  - apply Hc. simpl. lia.
  - vm_compute. do 2 apply list_elem_of_further. apply list_elem_of_here.
Defined.

Lemma launch_counts_cells_witness :
  let P := Scenario.scale Scenario.quarter 2 2 1 in
  countData
    (runYolo Expf.expf32 Scenario.oneObject P one Scenario.mask0 (launchIds P)
       Scenario.blank) 0 = 1.
Proof.
  cbv zeta.
  destruct (launch_counts_cells Expf.expf32 Scenario.oneObject
              (Scenario.scale Scenario.quarter 2 2 1) one Scenario.mask0
              (launchIds (Scenario.scale Scenario.quarter 2 2 1)) Scenario.blank
              (fun _ => zero, Scenario.blank))
    as [H _]; [reflexivity | simpl; lia | simpl; lia | simpl; lia |].
  rewrite H; [vm_compute; reflexivity | vm_compute; discriminate | vm_compute; discriminate].
Defined.

Lemma tensor_layout_witness :
  let P := Scenario.scale Scenario.quarter 2 2 1 in
  chanIndex P (bbindexOf P 1 1) (numGridCellsOf P) 0 4 = 19.
Proof.
  cbv zeta.
  destruct (tensor_layout (Scenario.scale Scenario.quarter 2 2 1) 1 1 0 4) as [H _];
    [simpl; lia | simpl; lia | simpl; lia | simpl; lia | simpl; lia | simpl; lia |].
  rewrite H. reflexivity.
Defined.

(** Two batch elements of four slots each: the scenario, and behind it
    an element of zeros, whose four cells all have objectness 0.5. *)
Lemma yolo_batches_independent_witness :
  let P := Scenario.scale Scenario.quarter 2 2 1 in
  let all :=
    cudaYoloLayer Expf.expf32 Scenario.oneObject 2 24 4 P one Scenario.mask0
      (fun _ => gridCells P) Scenario.blank in
  countData all 0 = 1 /\ countData all 1 = 4 /\ d_indexes all (1 * 4 + 3) = 3.
Proof.
  cbv zeta.
  pose proof (yolo_batches_independent Expf.expf32 Scenario.oneObject 2 24 4
                (Scenario.scale Scenario.quarter 2 2 1)
                (fun _ => gridCells (Scenario.scale Scenario.quarter 2 2 1))) as H.
  assert (forall b, 0 <= b < 2 ->
            let all :=
              cudaYoloLayer Expf.expf32 Scenario.oneObject 2 24 4
                (Scenario.scale Scenario.quarter 2 2 1) one Scenario.mask0
                (fun _ => gridCells (Scenario.scale Scenario.quarter 2 2 1))
                Scenario.blank in
            let alone :=
              launchYolo Expf.expf32 Scenario.oneObject 24 4
                (Scenario.scale Scenario.quarter 2 2 1) one Scenario.mask0
                (fun _ => gridCells (Scenario.scale Scenario.quarter 2 2 1)) b
                Scenario.blank in
            countData all b = countData alone 0 /\
            (forall k, 0 <= k < 4 -> d_indexes all (b * 4 + k) = d_indexes alone k)) as H'.
  { intros b Hb.
    destruct (H ltac:(lia) ltac:(unfold INT_MAX; lia) ltac:(lia) one Scenario.mask0
                Scenario.blank b) as (H1 & H2 & _); [|assumption|].
    - intros b' Hb'. assert (b' = 0 \/ b' = 1) as [-> | ->] by lia;
        vm_compute; split; discriminate.
    - split; [exact H1|]. intros k Hk. by destruct (H2 k Hk) as (-> & _). }
  destruct (H' 0) as [A0 _]; [lia|]. destruct (H' 1) as [A1 B1]; [lia|].
  cbv zeta in *. rewrite A0, A1, B1 by lia.
  repeat split; vm_compute; reflexivity.
Defined.

Lemma region_batches_independent_witness :
  let P := Scenario.scale Scenario.quarter 2 2 1 in
  let all :=
    snd (cudaRegionLayer Expf.expf32 Scenario.oneObject 2 24 4 P
           (fun _ => gridCells P) (fun _ => zero, Scenario.blank)) in
  countData all 0 = 1 /\ countData all 1 = 4.
Proof.
  cbv zeta.
  pose proof (region_batches_independent Expf.expf32 Scenario.oneObject 2 24 4
                (Scenario.scale Scenario.quarter 2 2 1)
                (fun _ => gridCells (Scenario.scale Scenario.quarter 2 2 1))) as H.
  assert (forall b, 0 <= b < 2 ->
            countData
              (snd (cudaRegionLayer Expf.expf32 Scenario.oneObject 2 24 4
                      (Scenario.scale Scenario.quarter 2 2 1)
                      (fun _ => gridCells (Scenario.scale Scenario.quarter 2 2 1))
                      (fun _ => zero, Scenario.blank))) b =
            countData
              (snd (launchRegion Expf.expf32 Scenario.oneObject 24 4
                      (Scenario.scale Scenario.quarter 2 2 1)
                      (fun _ => gridCells (Scenario.scale Scenario.quarter 2 2 1)) b
                      (fun _ => zero, Scenario.blank))) 0) as H'.
  { intros b Hb.
    destruct (H ltac:(lia) ltac:(unfold INT_MAX; lia) ltac:(lia)
                (fun _ => zero, Scenario.blank) b) as (H1 & _);
      [vm_compute; split; [reflexivity | discriminate] | vm_compute; discriminate
      | | assumption | exact H1].
    intros b' Hb'. assert (b' = 0 \/ b' = 1) as [-> | ->] by lia;
      vm_compute; split; discriminate. }
  rewrite (H' 0), (H' 1) by lia.
  split; vm_compute; reflexivity.
Defined.
End LaunchScenarios.

(** ** More on the config parser *)

Section ConfigLines.
Import Str Config.

Lemma skipped_classify line : skipped line = true -> classify line = None.
Proof. unfold classify. by intros ->. Qed.

Lemma first_wins_cons_size k v (kvs : list (string * string)) :
  (0 <? Z.of_nat (base.size (first_wins ((k, v) :: kvs)))) = true.
Proof.
  apply Z.ltb_lt. unfold first_wins. simpl.
  assert (base.size (<[k := v]> (list_to_map kvs : gmap string string)) <> 0%nat) as H.
  { intros H%map_size_empty_iff. by apply insert_non_empty in H. }
  lia.
Qed.

(** X11. The number of blocks [parseConfigFile] returns, for every
    resource: one per section header, and one more when the first line
    that is not skipped is not a header (the pairs in front of the first
    header make a block of their own, without [type]) or when no line is
    kept at all (the block is then empty). The result is never the empty
    list. *)
Theorem parseConfigFile_length lines :
  length (parseConfigFile lines) =
    (length (headers (entries lines)) +
     match entries lines with Header _ :: _ => 0 | _ => 1 end)%nat /\
  parseConfigFile lines <> [].
Proof.
  split.
  - rewrite parseConfigFile_sections.
    pose proof (sections_headers (entries lines)) as Hsec.
    destruct (entries lines) as [|[n|k v] es].
    + reflexivity.
    + cbn [sections] in *. destruct (sections es) as [pre secs]. cbn [snd] in Hsec.
      apply Forall2_length in Hsec.
      change (flush (first_wins [])) with (@nil (gmap string string)).
      rewrite app_nil_l, length_fmap. lia.
    + unfold headers in *. cbn [omap list_omap sections] in *. fold (headers es) in *.
      destruct (sections es) as [pre secs]. cbn [snd] in Hsec.
      apply Forall2_length in Hsec. destruct secs as [|sec secs].
      * simpl in *. lia.
      * unfold flush. rewrite first_wins_cons_size.
        rewrite length_app, length_fmap. simpl in *. lia.
  - unfold parseConfigFile. destruct (fold_left parseLine lines ([], ∅)) as [blocks block].
    by destruct blocks.
Qed.

(** X12. Lines that are empty, or begin with a blank or with [#], play
    no part: wherever such a line stands among the others, the blocks are
    the same with and without it. The test is on the first character of
    the raw line, so a pair or a header behind a leading blank is dropped
    with it. *)
Theorem skipped_line_ignored before line after :
  skipped line = true ->
  parseConfigFile (before ++ line :: after) = parseConfigFile (before ++ after).
Proof.
  intros H. unfold parseConfigFile. rewrite !fold_left_app. simpl.
  by rewrite (parseLine_skipped _ line (skipped_classify line H)).
Qed.

Lemma skipped_line_ignored_witness :
  parseConfigFile
    (["[net]"%string; "width=416"%string] ++
     " height=608"%string :: ["height=416"%string]) =
  parseConfigFile (["[net]"%string; "width=416"%string] ++ ["height=416"%string]).
Proof. apply skipped_line_ignored. reflexivity. Defined.

(** *** Lines that are kept *)

Lemma substring_all s : String.substring 0 (String.length s) s = s.
Proof. induction s as [|c s IH]; [reflexivity|]. simpl. by rewrite IH. Qed.

Lemma substring_prefix k s : String.substring 0 (String.length k) (k +:+ s) = k.
Proof.
  induction k as [|c k IH]; simpl.
  - by destruct s.
  - by rewrite IH.
Qed.

Lemma substring_suffix k c v m :
  (String.length v <= m)%nat ->
  String.substring (S (String.length k)) m (k +:+ String c v) = v.
Proof.
  intros Hm. induction k as [|d k IH]; simpl.
  - clear c. revert m Hm. induction v as [|e v IHv]; intros m Hm.
    + by destruct m.
    + destruct m as [|m]; [simpl in Hm; lia|]. simpl. rewrite IHv by (simpl in Hm; lia).
      done.
  - exact IH.
Qed.

Lemma length_append_Z (k s : string) : size (k +:+ s) = size k + size s.
Proof.
  unfold size. induction k as [|c k IH]; [change (EmptyString +:+ s) with s; simpl; lia|].
  change (String c k +:+ s) with (String c (k +:+ s)).
  simpl String.length. rewrite !Nat2Z.inj_succ. lia.
Qed.

Lemma find_from_split c k v n :
  n + size k < npos ->
  find_from c k n = npos ->
  find_from c (k +:+ String c v) n = n + size k.
Proof.
  revert n. induction k as [|d k IH]; intros n Hn Hk; simpl in *.
  - rewrite Ascii.eqb_refl. unfold size. simpl. lia.
  - unfold size in *. simpl String.length in *. rewrite Nat2Z.inj_succ in *.
    destruct (Ascii.eqb d c); [lia|].
    rewrite IH by (unfold size; lia). unfold size. lia.
Qed.

(** X13. A line that is kept and is not a header (of fewer than
    [2 ^ 31] characters, the range of the [int] that takes the position)
    is cut at its first [=]: the key is what stands in front of it, the
    value everything behind it (later [=] included), each trimmed, and
    the pair goes into the block under construction unless the key is
    already there. *)
Theorem line_cut_at_first_equals line k v :
  skipped line = false ->
  Ascii.eqb (front (trim line)) "["%char = false ->
  trim line = (k +:+ String "="%char v)%string ->
  find k "="%char = npos ->
  size (trim line) < 2 ^ 31 ->
  classify line = Some (KeyValue (trim k) (trim v)) /\
  forall blocks block,
    parseLine (blocks, block) line = (blocks, map_insert (trim k) (trim v) block).
Proof.
  intros Hskip Hfront Hline Hk Hsize.
  assert (classify line = Some (KeyValue (trim k) (trim v))) as Hc.
  { unfold classify. rewrite Hskip. cbv zeta. rewrite Hfront.
    rewrite Hline in *. rewrite length_append_Z in Hsize.
    unfold size in Hsize. simpl String.length in Hsize. rewrite Nat2Z.inj_succ in Hsize.
    fold (size k) in Hsize.
    assert (0 <= size k) by (unfold size; lia).
    unfold find. rewrite find_from_split by (unfold npos; lia || exact Hk).
    rewrite Z.add_0_l, s32_small by (unfold INT_MIN, INT_MAX; lia).
    rewrite Z.mod_small by lia.
    unfold substr. rewrite length_append_Z.
    unfold size. simpl String.length. rewrite Nat2Z.inj_succ.
    do 3 f_equal.
    - replace (Z.to_nat (Z.min (Z.of_nat (String.length k))
                           (Z.of_nat (String.length k) + Z.succ (Z.of_nat (String.length v)))))
        with (String.length k) by lia.
      simpl. apply substring_prefix.
    - replace (Z.to_nat (Z.of_nat (String.length k) + 1)) with (S (String.length k)) by lia.
      apply substring_suffix. unfold npos. lia. }
  split; [exact Hc|]. intros blocks block. by apply parseLine_keyvalue.
Qed.

Lemma line_cut_at_first_equals_witness :
  classify "anchors=10,14, 23,27=x"%string =
    Some (KeyValue (trim "anchors") (trim "10,14, 23,27=x"))%string.
Proof.
  destruct (line_cut_at_first_equals "anchors=10,14, 23,27=x" "anchors" "10,14, 23,27=x")%string
    as [H _]; [reflexivity | reflexivity | reflexivity | reflexivity
               | vm_compute; reflexivity | exact H].
Defined.

(** X14. A line that is kept, is not a header and holds no [=]: [find]
    gives [npos], which is [-1] as the [int] [cpos], so that the key is
    the whole line ([substr(0, -1)]) and the value is the whole line too
    ([substr(0)]); the line is stored under itself, it is not rejected. *)
Theorem line_without_equals line :
  skipped line = false ->
  Ascii.eqb (front (trim line)) "["%char = false ->
  find (trim line) "="%char = npos ->
  size (trim line) < 2 ^ 64 ->
  classify line = Some (KeyValue (trim (trim line)) (trim (trim line))) /\
  forall blocks block,
    parseLine (blocks, block) line =
    (blocks, map_insert (trim (trim line)) (trim (trim line)) block).
Proof.
  intros Hskip Hfront Hfind Hsize.
  assert (classify line = Some (KeyValue (trim (trim line)) (trim (trim line)))) as Hc.
  { unfold classify. rewrite Hskip. cbv zeta. rewrite Hfront, Hfind.
    assert (s32 npos = -1) as -> by reflexivity.
    change (-1 + 1) with 0. change (-1 mod 2 ^ 64) with npos.
    unfold substr.
    assert (0 <= size (trim line)) by (unfold size; lia).
    rewrite Z.min_r by (unfold npos; lia).
    unfold size. rewrite Nat2Z.id. simpl Z.to_nat.
    by rewrite substring_all. }
  split; [exact Hc|]. intros blocks block. by apply parseLine_keyvalue.
Qed.

Lemma line_without_equals_witness :
  parseConfigFile ["[net]"; "batch"]%string =
  [ {[ "type" := "net"; "batch" := "batch" ]} ]%string.
Proof.
  destruct (line_without_equals "batch"%string) as [_ H];
    [reflexivity | reflexivity | reflexivity | vm_compute; reflexivity |].
  unfold parseConfigFile.
  change (fold_left parseLine ["[net]"; "batch"]%string ([], ∅))
    with (parseLine (parseLine ([], ∅) "[net]"%string) "batch"%string).
  assert (parseLine ([], ∅) "[net]"%string = ([], {[ "type"%string := "net"%string ]})) as ->
    by (vm_compute; reflexivity).
  rewrite H. vm_compute. reflexivity.
Defined.
End ConfigLines.

(** ** More on the builder *)

Section LoopFacts.
Import Builder.
Variable E : Engine.

(** What one iteration does to the locals, by the type of its block. *)
Lemma step_effect Y weights i block st st' :
  step E Y weights i block st = Ok st' ->
  length (tensorOutputs st') =
    (length (tensorOutputs st) + if isNet block then 0 else 1)%nat /\
  (readsWeights block = false -> weightPtr st' = weightPtr st) /\
  modelType st' = (if isDetection block then modelTypeOf Y block else modelType st) /\
  (exists type, block !! "type"%string = Some type /\ type ∈ knownTypes).
Proof.
  unfold step, buildStep, isNet, readsWeights, isDetection, modelTypeOf, backReference,
    at_, assert, orAbort, bind.
  destruct (engine_getNumChannels E (previous st) =? channels st); simpl; [|discriminate].
  destruct (block !! "type"%string) as [type|] eqn:Htype; simpl; [|discriminate].
  repeat match goal with
    | |- context [String.eqb type ?s] =>
        destruct (String.eqb_spec type s) as [->|?]; simpl
    end;
    case_binds;
    try (intros [= <-]; simpl; rewrite ?length_app; simpl;
         (split; [lia|]); (split; [done|]); (split; [done|]);
         eexists; (split; [reflexivity|]); unfold knownTypes; set_solver).
Qed.

(** X15. The loop of [buildYoloNetwork], when it completes: every block
    but [net] has appended exactly one tensor to [tensorOutputs], so that
    the vector has grown by the number of blocks that are not [net]. With
    the one [net] block in front, the output of block [k] is at offset
    [k - 1], which is what the back-references count on. *)
Theorem loop_tensor_outputs Y weights blocks : forall i st st',
  loop E Y weights i blocks st = Ok st' ->
  length (tensorOutputs st') =
    (length (tensorOutputs st) + length (List.filter (fun b => negb (isNet b)) blocks))%nat.
Proof.
  unfold loop. induction blocks as [|block blocks IH]; intros i st st'; simpl.
  - intros [= <-]. lia.
  - fold (step E Y weights i block st). unfold bind.
    destruct (step E Y weights i block st) as [st1|] eqn:Hstep; [|discriminate].
    intros Hloop. rewrite (IH _ _ _ Hloop).
    destruct (step_effect _ _ _ _ _ _ Hstep) as (-> & _).
    destruct (isNet block); simpl; lia.
Qed.

(** X16. Only [convolutional], [implicit_add] and [implicit_mul] blocks
    move the weights cursor: over blocks of other types the loop, when it
    completes, leaves [weightPtr] where it was. *)
Theorem loop_weights_frame Y weights blocks : forall i st st',
  loop E Y weights i blocks st = Ok st' ->
  Forall (fun b => readsWeights b = false) blocks ->
  weightPtr st' = weightPtr st.
Proof.
  unfold loop. induction blocks as [|block blocks IH]; intros i st st'; simpl.
  - by intros [= <-].
  - fold (step E Y weights i block st). unfold bind.
    destruct (step E Y weights i block st) as [st1|] eqn:Hstep; [|discriminate].
    intros Hloop Hall. apply Forall_cons in Hall as [Hb Hall].
    rewrite (IH _ _ _ Hloop Hall).
    destruct (step_effect _ _ _ _ _ _ Hstep) as (_ & Hw & _). by apply Hw.
Qed.

(** X17. Every block of a config over which the loop completes has a
    [type], and the type is one of the fourteen the builder has a branch
    for; a block of any other type ends the build (there is no branch that
    skips it). *)
Theorem loop_known_types Y weights blocks : forall i st st',
  loop E Y weights i blocks st = Ok st' ->
  Forall (fun b => exists type, b !! "type"%string = Some type /\ type ∈ knownTypes) blocks.
Proof.
  unfold loop. induction blocks as [|block blocks IH]; intros i st st'; simpl.
  - intros _. constructor.
  - fold (step E Y weights i block st). unfold bind.
    destruct (step E Y weights i block st) as [st1|] eqn:Hstep; [|discriminate].
    intros Hloop. constructor; [|by eapply IH].
    by destruct (step_effect _ _ _ _ _ _ Hstep) as (_ & _ & _ & H).
Qed.

Lemma loop_modelType Y weights blocks : forall i st st',
  loop E Y weights i blocks st = Ok st' ->
  modelType st' = lastModelType Y blocks (modelType st).
Proof.
  unfold loop, lastModelType.
  induction blocks as [|block blocks IH]; intros i st st'; simpl.
  - by intros [= <-].
  - fold (step E Y weights i block st). unfold bind.
    destruct (step E Y weights i block st) as [st1|] eqn:Hstep; [|discriminate].
    intros Hloop. rewrite (IH _ _ _ Hloop).
    by destruct (step_effect _ _ _ _ _ _ Hstep) as (_ & _ & -> & _).
Qed.

Lemma lastModelType_none Y blocks start :
  detectionBlocks blocks = 0 -> lastModelType Y blocks start = start.
Proof.
  unfold lastModelType. revert start.
  induction blocks as [|block blocks IH]; intros start; simpl; [done|].
  rewrite detectionBlocks_cons. pose proof (detectionBlocks_nonneg blocks).
  destruct (isDetection block); [lia|]. intros Hd. apply IH. lia.
Qed.

(** A build that returns: the loop has completed, with a model type,
    and what follows the loop keeps it. *)
Lemma build_Ok_loop Y weights st' :
  build E Y weights = Ok st' ->
  exists data st,
    loop E Y weights 0 (m_ConfigBlocks Y) (initialState (tensor E) Y data) = Ok st /\
    modelType st <> -1 /\ modelType st' = modelType st.
Proof.
  unfold build, buildYoloNetwork, bind, orAbort, assert.
  destruct (engine_addInput E _ _ _ _) as [data|]; [|discriminate].
  destruct (0 <? _); [|discriminate].
  fold (loop E Y weights 0 (m_ConfigBlocks Y) (initialState (tensor E) Y data)).
  destruct (loop E Y weights 0 (m_ConfigBlocks Y) (initialState (tensor E) Y data))
    as [st|] eqn:Hloop; [|discriminate].
  unfold finishBuild, bind, assert, orAbort.
  destruct (s32 _ =? weightPtr st); [|discriminate]. simpl.
  destruct (m_YoloCount Y =? inputYoloCount st); [|discriminate].
  destruct (modelType st =? -1) eqn:Hm; simpl; [discriminate|].
  case_binds. intros [= <-]. exists data, st. apply Z.eqb_neq in Hm. by repeat split.
Qed.

Lemma build_Ok_detection Y weights st' :
  build E Y weights = Ok st' -> 0 < detectionBlocks (m_ConfigBlocks Y).
Proof.
  intros (data & st & Hloop & Hm & _)%build_Ok_loop.
  apply loop_modelType in Hloop. simpl in Hloop.
  pose proof (detectionBlocks_nonneg (m_ConfigBlocks Y)).
  destruct (decide (detectionBlocks (m_ConfigBlocks Y) = 0)) as [Hz|]; [|lia].
  rewrite (lastModelType_none _ _ _ Hz) in Hloop. contradiction.
Qed.

(** X18. A build that returns has seen a detection block, and decodes
    every scale by the type of the last one: [modelType] is 0 after a
    [region] block, 1 after a [yolo] block (2 when the network type
    contains [yolor]), and each detection block overwrites it. A config
    without [yolo] or [region] section does not build. *)
Theorem build_model_type Y weights st' :
  build E Y weights = Ok st' ->
  0 < detectionBlocks (m_ConfigBlocks Y) /\
  modelType st' = lastModelType Y (m_ConfigBlocks Y) (-1).
Proof.
  intros Hbuild. split; [by eapply build_Ok_detection|].
  destruct (build_Ok_loop _ _ _ Hbuild) as (data & st & Hloop & _ & ->).
  by rewrite (loop_modelType _ _ _ _ _ _ Hloop).
Qed.
End LoopFacts.

Section LoopScenarios.
Import Builder.

Lemma loop_tensor_outputs_witness :
  let blocks := [DryRun.section "net"; DryRun.section "dropout"; DryRun.section "yolo"] in
  let Y := DryRun.network blocks 1 [DryRun.scale] 10 in
  exists st',
    loop DryRun.engine Y [] 0 blocks (initialState (tensor DryRun.engine) Y [3; 416; 416])
      = Ok st' /\
    length (tensorOutputs st') = 2%nat.
Proof.
  cbv zeta.
  destruct (loop DryRun.engine _ [] 0 _ _) as [st'|e] eqn:H;
    [|vm_compute in H; discriminate].
  exists st'. split; [reflexivity|].
  rewrite (loop_tensor_outputs _ _ _ _ _ _ _ H). reflexivity.
Defined.

Lemma loop_weights_frame_witness :
  let blocks := [DryRun.section "net"; DryRun.section "dropout"; DryRun.section "yolo"] in
  let Y := DryRun.network blocks 1 [DryRun.scale] 10 in
  exists st',
    loop DryRun.engine Y [] 0 blocks (initialState (tensor DryRun.engine) Y [3; 416; 416])
      = Ok st' /\
    weightPtr st' = 0.
Proof.
  cbv zeta.
  destruct (loop DryRun.engine _ [] 0 _ _) as [st'|e] eqn:H;
    [|vm_compute in H; discriminate].
  exists st'. split; [reflexivity|].
  rewrite (loop_weights_frame _ _ _ _ _ _ _ H); [reflexivity|].
  repeat constructor.
Defined.

Lemma loop_known_types_witness :
  Forall (fun b => exists type, b !! "type"%string = Some type /\ type ∈ knownTypes)
    [DryRun.section "net"; DryRun.section "dropout"; DryRun.section "yolo"].
Proof.
  destruct (loop DryRun.engine
              (DryRun.network
                 [DryRun.section "net"; DryRun.section "dropout"; DryRun.section "yolo"]
                 1 [DryRun.scale] 10) [] 0
              [DryRun.section "net"; DryRun.section "dropout"; DryRun.section "yolo"]
              (initialState (tensor DryRun.engine)
                 (DryRun.network
                    [DryRun.section "net"; DryRun.section "dropout"; DryRun.section "yolo"]
                    1 [DryRun.scale] 10) [3; 416; 416])) as [st'|e] eqn:H;
    [|vm_compute in H; discriminate].
  exact (loop_known_types _ _ _ _ _ _ _ H).
Defined.

Lemma build_model_type_witness :
  let blocks := [DryRun.section "net"; DryRun.section "region"; DryRun.section "yolo"] in
  exists st',
    build DryRun.engine (DryRun.network blocks 2 [DryRun.scale; DryRun.scale] 10) [] = Ok st' /\
    modelType st' = 1.
Proof.
  cbv zeta.
  destruct (build DryRun.engine _ []) as [st'|e] eqn:H; [|vm_compute in H; discriminate].
  exists st'. split; [reflexivity|].
  destruct (build_model_type _ _ _ _ H) as [_ ->]. vm_compute. reflexivity.
Defined.
End LoopScenarios.

Section Passes.
Import Str Config Builder.
Variable stof : string -> option F32.float.

Lemma convertAll_Fatal {A} (convert : string -> option A) l e :
  convertAll convert l = Fatal e -> e = BadNumber.
Proof.
  induction l as [|piece l IH]; simpl; [discriminate|].
  unfold bind, orAbort. destruct (convert (trim piece)); [|congruence].
  destruct (convertAll convert l); [discriminate|]. intros [= <-]. by apply IH.
Qed.

Lemma parseConfigBlock_not_ErrorInCfg Y block :
  parseConfigBlock stof Y block <> Fatal ErrorInCfg.
Proof.
  unfold parseConfigBlock, requiredUint, optionalUint, at_, assert, orAbort, bind.
  case_binds; intros Habs; try discriminate Habs;
    injection Habs as ->;
    match goal with H : convertAll _ _ = Fatal _ |- _ => apply convertAll_Fatal in H end;
    discriminate.
Qed.

Lemma parseBlocksLoop_not_ErrorInCfg blocks : forall Y,
  parseBlocksLoop stof Y blocks <> Fatal ErrorInCfg.
Proof.
  induction blocks as [|block blocks IH]; intros Y; simpl; [discriminate|].
  unfold bind. pose proof (parseConfigBlock_not_ErrorInCfg Y block) as H.
  destruct (parseConfigBlock stof Y block); [apply IH | congruence].
Qed.

Lemma parseConfigNMSBlocks_effect nmsBlocks Y Y' :
  parseConfigNMSBlocks stof nmsBlocks Y = Ok Y' ->
  m_ConfigBlocks Y' = m_ConfigBlocks Y /\ m_YoloCount Y' = m_YoloCount Y /\
  m_YoloTensors Y' = m_YoloTensors Y.
Proof.
  unfold parseConfigNMSBlocks, requiredUint, at_, assert, orAbort, bind.
  case_binds. by intros [= <-].
Qed.

Lemma parseConfigNMSBlocks_not_ErrorInCfg nmsBlocks Y :
  parseConfigNMSBlocks stof nmsBlocks Y <> Fatal ErrorInCfg.
Proof.
  unfold parseConfigNMSBlocks, requiredUint, at_, assert, orAbort, bind.
  case_binds; intros Habs; discriminate Habs.
Qed.

(** The block in front when no header leads the resource. *)
Lemma headerless_first_block lines :
  (forall n rest, entries lines <> Header n :: rest) ->
  exists rest, parseConfigFile lines = first_wins (fst (sections (entries lines))) :: rest.
Proof.
  intros Hno. rewrite parseConfigFile_sections.
  destruct (entries lines) as [|[n|k v] es]; [by exists [] | by destruct (Hno n es) |].
  cbn [sections]. destruct (sections es) as [pre secs]. cbn [fst].
  destruct secs as [|sec secs]; [by exists []|].
  unfold flush. rewrite first_wins_cons_size. by eexists.
Qed.

(** X19. A resource whose first kept line is not a section header (or
    that has no kept line at all), with no [type] key among the pairs in
    front of the first header: the first block has no [type], and both
    passes over the blocks end on the [std::out_of_range] of
    [block.at("type")], the pass over the config as well as the pass over
    [config_nms.txt]. *)
Theorem headerless_config_aborts lines Y :
  (forall n rest, entries lines <> Header n :: rest) ->
  "type"%string ∉ (fst (sections (entries lines))).*1 ->
  parseConfigBlocks stof (setConfigBlocks Y (parseConfigFile lines)) = Fatal OutOfRange /\
  parseConfigNMSBlocks stof (parseConfigFile lines) Y = Fatal OutOfRange.
Proof.
  intros Hno Htype. destruct (headerless_first_block lines Hno) as [rest Hfirst].
  assert (first_wins (fst (sections (entries lines))) !! "type"%string = None) as Hnone.
  { unfold first_wins. by apply not_elem_of_list_to_map_1. }
  unfold parseConfigBlocks, parseConfigNMSBlocks. simpl m_ConfigBlocks. rewrite Hfirst.
  simpl. unfold parseConfigBlock, at_, orAbort, bind. by rewrite Hnone.
Qed.

(** The members after the two passes of [createEngine]. *)
Lemma passes_count cfg nms Y Y1 Y2 :
  0 <= m_YoloCount Y < 2 ^ 32 ->
  parseConfigBlocks stof (setConfigBlocks Y (parseConfigFile cfg)) = Ok Y1 ->
  parseConfigNMSBlocks stof (parseConfigFile nms) Y1 = Ok Y2 ->
  m_ConfigBlocks Y2 = parseConfigFile cfg /\
  m_YoloCount Y2 = u32 (m_YoloCount Y + detectionBlocks (parseConfigFile cfg)).
Proof.
  intros Hrange H1 H2. unfold parseConfigBlocks in H1. simpl m_ConfigBlocks in H1.
  apply parseBlocksLoop_count in H1 as (Hb & Hc & Hr & _).
  apply parseConfigNMSBlocks_effect in H2 as (Hb2 & Hc2 & _).
  simpl in Hb, Hc, Hr. split; [congruence|].
  rewrite Hc2. rewrite <- (u32_small (m_YoloCount Y1)) by (apply Hr; lia). exact Hc.
Qed.

(** X20. [createEngine] on an object whose [m_YoloCount] is still 0,
    as the constructor leaves it: whatever the two files, the weights and
    the engine, the run does not end on "Error in yolo cfg file". The
    count the build compares with is the one the pass over the same
    blocks has just made. *)
Theorem createEngine_first (E : Engine) cfg nms weights Y :
  m_YoloCount Y = 0 ->
  createEngine stof E cfg nms weights Y <> Fatal ErrorInCfg.
Proof.
  intros Hzero. unfold createEngine, bind.
  pose proof (parseBlocksLoop_not_ErrorInCfg (parseConfigFile cfg)
                (setConfigBlocks Y (parseConfigFile cfg))) as P1.
  change (parseConfigBlocks stof (setConfigBlocks Y (parseConfigFile cfg))
          <> Fatal ErrorInCfg) in P1.
  destruct (parseConfigBlocks stof (setConfigBlocks Y (parseConfigFile cfg)))
    as [Y1|e1] eqn:H1; [|intros [= ->]; by apply P1].
  pose proof (parseConfigNMSBlocks_not_ErrorInCfg (parseConfigFile nms) Y1) as P2.
  destruct (parseConfigNMSBlocks stof (parseConfigFile nms) Y1) as [Y2|e2] eqn:H2;
    [|intros [= ->]; by apply P2].
  destruct (passes_count cfg nms Y Y1 Y2) as (Hb & Hc); [lia | assumption | assumption |].
  pose proof (first_build_not_ErrorInCfg E Y2 weights) as P3.
  rewrite Hb, Hc, Hzero in P3. specialize (P3 eq_refl).
  destruct (build E Y2 weights); [discriminate | intros [= ->]; by apply P3].
Qed.

(** X21. [createEngine] works once on an object. [m_YoloCount] is never
    reset: after a [createEngine] that returned, it holds the number of
    detection blocks of that config (at least one), the next pass adds
    the detection blocks of the next config to it, and the count check of
    the build cannot hold again. Whatever the files, the weights and the
    engine of the second call, it does not return. *)
Theorem createEngine_once (E E' : Engine) cfg nms weights Y Y1 st cfg' nms' weights' :
  m_YoloCount Y = 0 ->
  detectionBlocks (parseConfigFile cfg) < 2 ^ 32 ->
  createEngine stof E cfg nms weights Y = Ok (Y1, st) ->
  exists e, createEngine stof E' cfg' nms' weights' Y1 = Fatal e.
Proof.
  intros Hzero Hfew Hfirst. unfold createEngine, bind in Hfirst.
  destruct (parseConfigBlocks stof (setConfigBlocks Y (parseConfigFile cfg)))
    as [Ya|] eqn:H1; [|discriminate].
  destruct (parseConfigNMSBlocks stof (parseConfigFile nms) Ya) as [Yb|] eqn:H2;
    [|discriminate].
  destruct (build E Yb weights) as [stb|] eqn:H3; [|discriminate].
  injection Hfirst as -> ->.
  destruct (passes_count cfg nms Y Ya Y1) as (Hb & Hc); [lia | assumption | assumption |].
  pose proof (build_Ok_detection E Y1 weights st H3) as Hpos.
  rewrite Hb in Hpos. rewrite Hzero, Z.add_0_l, u32_small in Hc by lia.
  destruct (createEngine stof E' cfg' nms' weights' Y1) as [[Y2 st2]|e] eqn:Hsecond;
    [exfalso | by exists e].
  unfold createEngine, bind in Hsecond.
  destruct (parseConfigBlocks stof (setConfigBlocks Y1 (parseConfigFile cfg')))
    as [Yc|] eqn:H4; [|discriminate].
  destruct (parseConfigNMSBlocks stof (parseConfigFile nms') Yc) as [Yd|] eqn:H5;
    [|discriminate].
  destruct (build E' Yd weights') as [std|] eqn:H6; [|discriminate].
  destruct (passes_count cfg' nms' Y1 Yc Yd) as (Hb' & Hc'); [lia | assumption | assumption |].
  apply build_Ok_count in H6. rewrite Hb' in H6. rewrite H6 in Hc'.
  pose proof (detectionBlocks_nonneg (parseConfigFile cfg')) as Hnn.
  unfold u32 in Hc'.
  assert ((m_YoloCount Y1 + detectionBlocks (parseConfigFile cfg')
           - detectionBlocks (parseConfigFile cfg')) mod 2 ^ 32 = 0) as Hd.
  { rewrite Zminus_mod, <- Hc', Z.sub_diag. reflexivity. }
  replace (m_YoloCount Y1 + detectionBlocks (parseConfigFile cfg')
           - detectionBlocks (parseConfigFile cfg')) with (m_YoloCount Y1) in Hd by lia.
  rewrite Z.mod_small in Hd by lia. lia.
Qed.
End Passes.

Section PassScenarios.
Import Str Config Builder.

Lemma headerless_config_aborts_witness :
  parseConfigNMSBlocks Sample.stof
    (parseConfigFile ["# thresholds"; "topk=300"; "[property]"]%string) Sample.fresh
  = Fatal OutOfRange.
Proof.
  destruct (headerless_config_aborts Sample.stof
              ["# thresholds"; "topk=300"; "[property]"]%string Sample.fresh) as [_ H];
    [| |exact H].
  - intros n rest. vm_compute. discriminate.
  - assert (fst (sections (entries ["# thresholds"; "topk=300"; "[property]"]%string))
            = [("topk", "300")]%string) as -> by (vm_compute; reflexivity).
    simpl. intros H%list_elem_of_singleton. discriminate.
Defined.

(** The sample config on the dry-run engine: the first call returns. *)
Lemma createEngine_first_witness :
  createEngine Sample.stof DryRun.engine Sample.cfg Sample.nms [] Sample.fresh
    <> Fatal ErrorInCfg.
Proof. apply createEngine_first. reflexivity. Defined.

(** And a second call on the object it leaves does not. *)
Lemma createEngine_once_witness :
  exists Y1 st,
    createEngine Sample.stof DryRun.engine Sample.cfg Sample.nms [] Sample.fresh
      = Ok (Y1, st) /\
    exists e,
      createEngine Sample.stof DryRun.engine Sample.cfg Sample.nms [] Y1 = Fatal e.
Proof.
  destruct (createEngine Sample.stof DryRun.engine Sample.cfg Sample.nms [] Sample.fresh)
    as [[Y1 st]|e] eqn:H; [|vm_compute in H; discriminate].
  exists Y1, st. split; [reflexivity|].
  apply (createEngine_once Sample.stof DryRun.engine DryRun.engine Sample.cfg Sample.nms []
           Sample.fresh Y1 st); [reflexivity | vm_compute; reflexivity | exact H].
Defined.
End PassScenarios.
